(** * World.cpp: session directory, admission queue, shutdown controller, timers

    A shallow embedding of the parts of [src/game/World.cpp] that admit and
    release client sessions, run the shutdown countdown and advance the
    interval timers, with the properties the specification states about them. *)

From Stdlib Require Import ZArith Lia.
From Stdlib Require String.
From stdpp Require Import base option list gmap sorting.

#[local] Open Scope Z_scope.

(** ** Machine integers

    C++ fixed-width integers are integers of [Z] with the wrap-around of each
    conversion written out. *)

Definition u32 (z : Z) : Z := z mod 2 ^ 32.
Definition i32 (z : Z) : Z := (z + 2 ^ 31) mod 2 ^ 32 - 2 ^ 31.
Definition u8 (z : Z) : Z := z mod 2 ^ 8.

(** [MINUTE] and [HOUR] are the [TimeConstants] of Common.h, in seconds: the
    comments beside their uses in [World::ShutdownMsg] ("< 5 min; every 15 sec"
    for [5 * MINUTE]) fix their unit. *)
Definition MINUTE : Z := 60.
Definition HOUR : Z := 60 * MINUTE.

(** ** Declarations of World.h and Common.h

    The enumerators below are declared in headers that are not part of the
    source at hand; the development is parametric in their numeric values. *)

Class Header := {
  SEC_PLAYER : Z;               (* AccountTypes: the plain-player tier *)
  SEC_ADMINISTRATOR : Z;        (* AccountTypes: the highest tier SetPlayerLimit clamps to *)
  SHUTDOWN_MASK_RESTART : Z;    (* ShutdownMask: restart instead of stop *)
  SHUTDOWN_MASK_IDLE : Z;       (* ShutdownMask: wait until no session is left *)
  SHUTDOWN_EXIT_CODE : Z;       (* ShutdownExitCode: the default exit code *)
}.

Inductive ServerMessageType :=
| SERVER_MSG_SHUTDOWN_TIME
| SERVER_MSG_RESTART_TIME
| SERVER_MSG_SHUTDOWN_CANCELLED
| SERVER_MSG_RESTART_CANCELLED.

#[global] Instance ServerMessageType_eq_dec : EqDecision ServerMessageType.
Proof. solve_decision. Defined.

(** ** Session objects

    A [WorldSession*] is an address; [NULL] is address 0. *)

Abbreviation ptr := N.
Definition NULL : ptr := 0%N.

(** Modelled from the spec: class [WorldSession] (WorldSession.h) is not part
    of the source at hand.  A session carries "a stable account identity, a
    security/privilege tier, a queued-flag" and the state that tells whether it
    is still loading its player; the methods World.cpp calls on it read or set
    these fields, or send to its socket. *)
Record WorldSession := mkSession {
  accountId : Z;
  security : Z;
  m_inQueue : bool;
  m_playerLoading : bool;
}.

Definition session_SetInQueue (b : bool) (s : WorldSession) : WorldSession :=
  mkSession (accountId s) (security s) b (m_playerLoading s).

Definition session_SetPlayerLoading (b : bool) (s : WorldSession) : WorldSession :=
  mkSession (accountId s) (security s) (m_inQueue s) b.

(** What the world sends out, in the order it is sent. *)
Inductive Event :=
| EvKickPlayer (p : ptr)                         (* p->KickPlayer() *)
| EvAuthOk (p : ptr)                             (* SMSG_AUTH_RESPONSE, AUTH_OK *)
| EvAuthWaitQueue (p : ptr) (position : Z)       (* SMSG_AUTH_RESPONSE, AUTH_WAIT_QUEUE *)
| EvSendAuthWaitQue (p : ptr) (position : Z)     (* p->SendAuthWaitQue(position) *)
| EvPopulation (active limit : Z)                (* UPDATE realmlist SET population *)
| EvAllowedSecurityLevel                         (* UPDATE realmlist SET allowedSecurityLevel *)
| EvServerMessage (msgid : ServerMessageType) (secs : option Z) (player : ptr).
                                                 (* SendServerMessage(msgid, text, player) *)

#[global] Instance Event_eq_dec : EqDecision Event.
Proof. solve_decision. Defined.

(** ** The world *)

Record World := mkWorld {
  objects : gmap N WorldSession;     (* the live WorldSession objects *)
  m_sessions : gmap Z N;             (* SessionMap: account id -> session *)
  m_QueuedSessions : list N;         (* Queue: std::list<WorldSession*> *)
  m_playerLimit : Z;                 (* int32 *)
  m_maxActiveSessionCount : Z;       (* uint32 *)
  m_maxQueuedSessionCount : Z;       (* uint32 *)
  m_ShutdownMask : Z;                (* uint32 *)
  m_ShutdownTimer : Z;               (* uint32 *)
  m_stopEvent : bool;
  m_ExitCode : Z;                    (* uint8 *)
  m_gameTime : Z;                    (* time_t *)
  sent : list Event;
}.

Definition set_objects (f : gmap N WorldSession -> gmap N WorldSession) (w : World) : World :=
  mkWorld (f (objects w)) (m_sessions w) (m_QueuedSessions w) (m_playerLimit w)
    (m_maxActiveSessionCount w) (m_maxQueuedSessionCount w) (m_ShutdownMask w)
    (m_ShutdownTimer w) (m_stopEvent w) (m_ExitCode w) (m_gameTime w) (sent w).

Definition set_sessions (f : gmap Z N -> gmap Z N) (w : World) : World :=
  mkWorld (objects w) (f (m_sessions w)) (m_QueuedSessions w) (m_playerLimit w)
    (m_maxActiveSessionCount w) (m_maxQueuedSessionCount w) (m_ShutdownMask w)
    (m_ShutdownTimer w) (m_stopEvent w) (m_ExitCode w) (m_gameTime w) (sent w).

Definition set_QueuedSessions (q : list N) (w : World) : World :=
  mkWorld (objects w) (m_sessions w) q (m_playerLimit w)
    (m_maxActiveSessionCount w) (m_maxQueuedSessionCount w) (m_ShutdownMask w)
    (m_ShutdownTimer w) (m_stopEvent w) (m_ExitCode w) (m_gameTime w) (sent w).

Definition set_playerLimit (l : Z) (w : World) : World :=
  mkWorld (objects w) (m_sessions w) (m_QueuedSessions w) l
    (m_maxActiveSessionCount w) (m_maxQueuedSessionCount w) (m_ShutdownMask w)
    (m_ShutdownTimer w) (m_stopEvent w) (m_ExitCode w) (m_gameTime w) (sent w).

Definition set_maxSessionCounts (a q : Z) (w : World) : World :=
  mkWorld (objects w) (m_sessions w) (m_QueuedSessions w) (m_playerLimit w)
    a q (m_ShutdownMask w)
    (m_ShutdownTimer w) (m_stopEvent w) (m_ExitCode w) (m_gameTime w) (sent w).

Definition set_ShutdownMask (m : Z) (w : World) : World :=
  mkWorld (objects w) (m_sessions w) (m_QueuedSessions w) (m_playerLimit w)
    (m_maxActiveSessionCount w) (m_maxQueuedSessionCount w) m
    (m_ShutdownTimer w) (m_stopEvent w) (m_ExitCode w) (m_gameTime w) (sent w).

Definition set_ShutdownTimer (t : Z) (w : World) : World :=
  mkWorld (objects w) (m_sessions w) (m_QueuedSessions w) (m_playerLimit w)
    (m_maxActiveSessionCount w) (m_maxQueuedSessionCount w) (m_ShutdownMask w)
    t (m_stopEvent w) (m_ExitCode w) (m_gameTime w) (sent w).

Definition set_stopEvent (b : bool) (w : World) : World :=
  mkWorld (objects w) (m_sessions w) (m_QueuedSessions w) (m_playerLimit w)
    (m_maxActiveSessionCount w) (m_maxQueuedSessionCount w) (m_ShutdownMask w)
    (m_ShutdownTimer w) b (m_ExitCode w) (m_gameTime w) (sent w).

Definition set_ExitCode (c : Z) (w : World) : World :=
  mkWorld (objects w) (m_sessions w) (m_QueuedSessions w) (m_playerLimit w)
    (m_maxActiveSessionCount w) (m_maxQueuedSessionCount w) (m_ShutdownMask w)
    (m_ShutdownTimer w) (m_stopEvent w) c (m_gameTime w) (sent w).

Definition set_gameTime (t : Z) (w : World) : World :=
  mkWorld (objects w) (m_sessions w) (m_QueuedSessions w) (m_playerLimit w)
    (m_maxActiveSessionCount w) (m_maxQueuedSessionCount w) (m_ShutdownMask w)
    (m_ShutdownTimer w) (m_stopEvent w) (m_ExitCode w) t (sent w).

Definition add_sent (e : Event) (w : World) : World :=
  mkWorld (objects w) (m_sessions w) (m_QueuedSessions w) (m_playerLimit w)
    (m_maxActiveSessionCount w) (m_maxQueuedSessionCount w) (m_ShutdownMask w)
    (m_ShutdownTimer w) (m_stopEvent w) (m_ExitCode w) (m_gameTime w) (sent w ++ [e]).

(** ** A state monad with failure

    A member function of [World] is a function of the world that returns a
    value and the world it leaves; it fails ([None]) where the C++ program has
    no defined behaviour: a failed assertion, a call through a pointer to no
    live object. *)

Definition M (A : Type) : Type := World -> option (A * World).

Definition ret {A} (a : A) : M A := fun w => Some (a, w).

Definition bind {A B} (m : M A) (k : A -> M B) : M B :=
  fun w => match m w with
           | Some (a, w') => k a w'
           | None => None
           end.

Definition undefined {A} : M A := fun _ => None.
Definition get : M World := fun w => Some (w, w).
Definition modify (f : World -> World) : M unit := fun w => Some (tt, f w).
Definition emit (e : Event) : M unit := modify (add_sent e).

Notation "'let*' x ':=' m 'in' k" := (bind m (fun x => k))
  (at level 10, x name, m at level 100, k at level 200).
Notation "'let*' ' p ':=' m 'in' k" := (bind m (fun x => match x with p => k end))
  (at level 10, p pattern, m at level 100, k at level 200).
Notation "m '>>' k" := (bind m (fun _ => k))
  (at level 65, right associativity).

(** [p->...]: the object [p] points to. *)
Definition deref (p : N) : M WorldSession :=
  fun w => match objects w !! p with
           | Some s => Some (s, w)
           | None => None
           end.

(** [delete p]: nothing for [NULL], undefined when [p] is not a live object. *)
Definition delete_session (p : N) : M unit :=
  if decide (p = NULL) then ret tt
  else deref p >> modify (set_objects (base.delete p)).

(** Modelled from the spec: the methods of [WorldSession] that World.cpp
    calls (WorldSession.h and WorldSession.cpp are not part of the source at
    hand): accessors of the fields above, and sends to the session's socket. *)
Definition GetAccountId (p : N) : M Z := let* s := deref p in ret (accountId s).
Definition GetSecurity (p : N) : M Z := let* s := deref p in ret (security s).
Definition PlayerLoading (p : N) : M bool := let* s := deref p in ret (m_playerLoading s).
Definition KickPlayer (p : N) : M unit := deref p >> emit (EvKickPlayer p).
Definition SetInQueue (p : N) (b : bool) : M unit :=
  deref p >> modify (set_objects (alter (session_SetInQueue b) p)).
Definition SendAuthWaitQue (p : N) (position : Z) : M unit :=
  deref p >> emit (EvSendAuthWaitQue p position).

(** ** The session directory and the admission queue *)

Section Sessions.
Context {hdr : Header}.

(** Modelled from the spec: the inline accessors of World.h (not part of the
    source at hand).  The directory holds active and queued sessions alike
    ("active ∪ queued"), the queue the queued ones, and the active count is
    their difference, as [World::UpdateMaxSessionCounters] computes it; a
    negative [m_playerLimit] encodes a required tier, not an amount. *)
Definition GetActiveAndQueuedSessionCount (w : World) : Z :=
  u32 (Z.of_nat (size (m_sessions w))).
Definition GetQueuedSessionCount (w : World) : Z :=
  u32 (Z.of_nat (length (m_QueuedSessions w))).
Definition GetActiveSessionCount (w : World) : Z :=
  u32 (Z.of_nat (size (m_sessions w)) - Z.of_nat (length (m_QueuedSessions w))).
Definition GetPlayerAmountLimit (w : World) : Z :=
  if 0 <=? m_playerLimit w then m_playerLimit w else 0.

(** [World::FindSession] *)
Definition FindSession (id : Z) (w : World) : N :=
  match m_sessions w !! id with
  | Some p => p
  | None => NULL
  end.

(** [World::RemoveSession] *)
Definition RemoveSession (id : Z) : M bool :=
  let* w := get in
  match m_sessions w !! id with
  | Some p =>
      if decide (p = NULL) then ret true
      else
        let* loading := PlayerLoading p in
        if loading then ret false
        else KickPlayer p >> ret true
  | None => ret true
  end.

(** [World::GetQueuedSessionPos]: the loop over the queue, [position] being
    the [uint32] counter and the result its conversion to [int32]. *)
Fixpoint GetQueuedSessionPos_from (sess : N) (iter : list N) (position : Z) : Z :=
  match iter with
  | [] => 0
  | x :: iter' =>
      if decide (x = sess) then i32 position
      else GetQueuedSessionPos_from sess iter' (u32 (position + 1))
  end.

Definition GetQueuedSessionPos (sess : N) (w : World) : Z :=
  GetQueuedSessionPos_from sess (m_QueuedSessions w) 1.

(** [World::AddQueuedSession] *)
Definition AddQueuedSession (sess : N) : M unit :=
  SetInQueue sess true >>
  modify (fun w => set_QueuedSessions (m_QueuedSessions w ++ [sess]) w) >>
  let* w := get in
  deref sess >> emit (EvAuthWaitQueue sess (u32 (GetQueuedSessionPos sess w))).

(** The first loop of [World::RemoveQueuedSession]: [before] is the part of
    the queue already passed, [iter] the part from the iterator on.  It returns
    [found], the two parts of the queue it leaves, and [position]. *)
Fixpoint find_and_erase (sess : N) (before iter : list N) (position : Z)
  : bool * list N * list N * Z :=
  match iter with
  | [] => (false, before, [], position)
  | x :: iter' =>
      if decide (x = sess) then (true, before, iter', position)
      else find_and_erase sess (before ++ [x]) iter' (u32 (position + 1))
  end.

(** The last loop of [World::RemoveQueuedSession]. *)
Fixpoint send_positions (iter : list N) (position : Z) : M unit :=
  match iter with
  | [] => ret tt
  | x :: iter' =>
      SendAuthWaitQue x position >> send_positions iter' (u32 (position + 1))
  end.

(** [World::RemoveQueuedSession] *)
Definition RemoveQueuedSession (sess : N) : M bool :=
  let* w := get in
  let sessions := GetActiveSessionCount w in
  let '(found, before, iter, position) :=
    find_and_erase sess [] (m_QueuedSessions w) 1 in
  (if found then SetInQueue sess false else ret tt) >>
  modify (set_QueuedSessions (before ++ iter)) >>
  let sessions :=
    if negb found && negb (sessions =? 0) then u32 (sessions - 1) else sessions in
  let* w := get in
  let* '(iter, position) :=
    if ((m_playerLimit w =? 0) || (i32 sessions <? m_playerLimit w))
       && negb (bool_decide (m_QueuedSessions w = []))
    then
      match m_QueuedSessions w with
      | pop_sess :: rest =>
          SetInQueue pop_sess false >>
          SendAuthWaitQue pop_sess 0 >>
          modify (set_QueuedSessions rest) >>
          ret (rest, 1)
      | [] => undefined
      end
    else ret (iter, position) in
  send_positions iter position >>
  ret found.

(** [World::UpdateMaxSessionCounters] *)
Definition UpdateMaxSessionCounters : M unit :=
  modify (fun w =>
    set_maxSessionCounts
      (Z.max (m_maxActiveSessionCount w)
             (u32 (Z.of_nat (size (m_sessions w)) - Z.of_nat (length (m_QueuedSessions w)))))
      (Z.max (m_maxQueuedSessionCount w) (u32 (Z.of_nat (length (m_QueuedSessions w)))))
      w).

(** [World::AddSession_] *)
Definition AddSession_ (s : N) : M unit :=
  (if decide (s = NULL) then undefined else ret tt) >>   (* MANGOS_ASSERT(s) *)
  let* id := GetAccountId s in
  let* removed := RemoveSession id in
  if negb removed then
    KickPlayer s >> delete_session s
  else
    let* w := get in
    let* decrease_session :=
      match m_sessions w !! id with
      | Some old =>
          let* queued := RemoveQueuedSession old in
          delete_session old >>
          ret (negb queued)
      | None => ret true
      end in
    modify (set_sessions <[id := s]>) >>
    let* w := get in
    let Sessions := GetActiveAndQueuedSessionCount w in
    let pLimit := u32 (GetPlayerAmountLimit w) in
    let Sessions := if decrease_session : bool then u32 (Sessions - 1) else Sessions in
    let* sec := GetSecurity s in
    if (0 <? pLimit) && (pLimit <=? Sessions) && (sec =? SEC_PLAYER) then
      AddQueuedSession s >> UpdateMaxSessionCounters
    else
      deref s >> emit (EvAuthOk s) >>
      UpdateMaxSessionCounters >>
      if 0 <? pLimit then
        let* w := get in emit (EvPopulation (GetActiveSessionCount w) pLimit)
      else ret tt.

(** The body of the second loop of [World::UpdateSessions]: [alive] is what
    [pSession->Update] answers. *)
Definition erase_dead_session (alive : N -> bool) (id : Z) : M unit :=
  let* w := get in
  match m_sessions w !! id with
  | Some pSession =>
      if alive pSession then ret tt
      else
        RemoveQueuedSession pSession >>
        modify (set_sessions (base.delete id)) >>
        delete_session pSession
  | None => ret tt
  end.

Fixpoint for_each {A} (f : A -> M unit) (l : list A) : M unit :=
  match l with
  | [] => ret tt
  | x :: l' => f x >> for_each f l'
  end.

(** The keys of the session map in the order a [std::map] is iterated. *)
Definition session_keys (w : World) : list Z :=
  merge_sort Z.le (map_to_list (m_sessions w)).*1.

(** [World::UpdateSessions]: [addSessQueue] holds the sessions handed over
    since the last call. *)
Definition UpdateSessions (addSessQueue : list N) (alive : N -> bool) : M unit :=
  for_each AddSession_ addSessQueue >>
  let* w := get in
  for_each (erase_dead_session alive) (session_keys w).

(** [World::KickAll] *)
Definition KickAll : M unit :=
  modify (set_QueuedSessions []) >>
  let* w := get in
  for_each (fun id => KickPlayer (FindSession id w)) (session_keys w).

(** [World::SetPlayerLimit] *)
Definition SetPlayerLimit (limit : Z) (needUpdate : bool) : M unit :=
  let limit := if limit <? - SEC_ADMINISTRATOR then - SEC_ADMINISTRATOR else limit in
  let* w := get in
  let db_update_need :=
    needUpdate
    || negb (Bool.eqb (limit <? 0) (m_playerLimit w <? 0))
    || ((limit <? 0) && (m_playerLimit w <? 0) && negb (limit =? m_playerLimit w)) in
  modify (set_playerLimit limit) >>
  if db_update_need then emit EvAllowedSecurityLevel else ret tt.

End Sessions.

(** ** The shutdown controller *)

Section Shutdown.
Context {hdr : Header}.

(** [World::ShutdownMsg] *)
Definition ShutdownMsg (show : bool) (player : N) : M unit :=
  let* w := get in
  let t := m_ShutdownTimer w in
  if negb (Z.land (m_ShutdownMask w) SHUTDOWN_MASK_IDLE =? 0) then ret tt
  else if show
       || ((t <? 5 * MINUTE) && (t mod 15 =? 0))
       || ((t <? 15 * MINUTE) && (t mod MINUTE =? 0))
       || ((t <? 30 * MINUTE) && (t mod (5 * MINUTE) =? 0))
       || ((t <? 12 * HOUR) && (t mod HOUR =? 0))
       || ((12 * HOUR <=? t) && (t mod (12 * HOUR) =? 0))
  then
    let msgid :=
      if negb (Z.land (m_ShutdownMask w) SHUTDOWN_MASK_RESTART =? 0)
      then SERVER_MSG_RESTART_TIME else SERVER_MSG_SHUTDOWN_TIME in
    emit (EvServerMessage msgid (Some t) player)
  else ret tt.

(** [World::_UpdateGameTime]; [thisTime] is what [time(NULL)] returns. *)
Definition _UpdateGameTime (thisTime : Z) : M unit :=
  let* w := get in
  let elapsed := u32 (thisTime - m_gameTime w) in
  modify (set_gameTime thisTime) >>
  if negb (m_stopEvent w) && (0 <? m_ShutdownTimer w) && (0 <? elapsed) then
    if m_ShutdownTimer w <=? elapsed then
      if (Z.land (m_ShutdownMask w) SHUTDOWN_MASK_IDLE =? 0)
         || (GetActiveAndQueuedSessionCount w =? 0)
      then modify (set_stopEvent true)
      else modify (set_ShutdownTimer 1)
    else
      modify (set_ShutdownTimer (u32 (m_ShutdownTimer w - elapsed))) >>
      ShutdownMsg false NULL
  else ret tt.

(** [World::ShutdownServ] *)
Definition ShutdownServ (time options exitcode : Z) : M unit :=
  let* w := get in
  if m_stopEvent w then ret tt
  else
    modify (set_ShutdownMask options) >>
    modify (set_ExitCode exitcode) >>
    if time =? 0 then
      if (Z.land options SHUTDOWN_MASK_IDLE =? 0)
         || (GetActiveAndQueuedSessionCount w =? 0)
      then modify (set_stopEvent true)
      else modify (set_ShutdownTimer 1)
    else
      modify (set_ShutdownTimer time) >>
      ShutdownMsg true NULL.

(** [World::ShutdownCancel] *)
Definition ShutdownCancel : M unit :=
  let* w := get in
  if (m_ShutdownTimer w =? 0) || m_stopEvent w then ret tt
  else
    let msgid :=
      if negb (Z.land (m_ShutdownMask w) SHUTDOWN_MASK_RESTART =? 0)
      then SERVER_MSG_RESTART_CANCELLED else SERVER_MSG_SHUTDOWN_CANCELLED in
    modify (set_ShutdownMask 0) >>
    modify (set_ShutdownTimer 0) >>
    modify (set_ExitCode (u8 SHUTDOWN_EXIT_CODE)) >>
    emit (EvServerMessage msgid None NULL).

(** [World::World], with [m_stopEvent] and [m_ExitCode] as their definitions
    at the head of the file initialise them. *)
Definition World_new (now : Z) : World :=
  mkWorld ∅ ∅ [] 0 0 0 0 0 false (u8 SHUTDOWN_EXIT_CODE) now [].

End Shutdown.

(** ** The interval timers *)

(** Modelled from the spec: struct [IntervalTimer] (Timer.h) is not part of
    the source at hand: "a fixed period and a current counter". *)
Record IntervalTimer := mkTimer {
  interval : Z;
  current : Z;
}.

Definition GetCurrent (t : IntervalTimer) : Z := current t.
Definition SetCurrent (c : Z) (t : IntervalTimer) : IntervalTimer := mkTimer (interval t) c.

Section Timers.
(** [IntervalTimer::Update], which advances a timer by the elapsed time, is
    declared in Timer.h and taken as it is. *)
Variable IntervalTimer_Update : Z -> IntervalTimer -> IntervalTimer.

(** The body of the first loop of [World::Update], for one timer. *)
Definition Update_timer (diff : Z) (t : IntervalTimer) : IntervalTimer :=
  if 0 <=? GetCurrent t then IntervalTimer_Update diff t else SetCurrent 0 t.

(** The first loop of [World::Update]: every timer of [m_timers] in turn. *)
Definition Update_timers (diff : Z) (m_timers : list IntervalTimer) : list IntervalTimer :=
  Update_timer diff <$> m_timers.

End Timers.

(** * Notions of the specification and worked examples *)

(** ** Notions of the specification *)

(** The three states of the shutdown controller, read off the fields that
    hold them. *)
Inductive ShutdownState := Idle | Counting | Firing.

Definition shutdown_state (w : World) : ShutdownState :=
  if m_stopEvent w then Firing
  else if m_ShutdownTimer w =? 0 then Idle else Counting.

(** The milestone table as the specification words it: one period for each
    range of the remaining time, in seconds. *)
Definition milestone (remaining : Z) : bool :=
  if remaining <? 5 * 60 then remaining mod 15 =? 0
  else if remaining <? 15 * 60 then remaining mod 60 =? 0
  else if remaining <? 30 * 60 then remaining mod (5 * 60) =? 0
  else if remaining <? 12 * 3600 then remaining mod 3600 =? 0
  else remaining mod (12 * 3600) =? 0.

(** The requests the shutdown controller serves. *)
Inductive ShutdownOp :=
| OpShutdownServ (time options exitcode : Z)
| OpShutdownCancel
| OpUpdateGameTime (thisTime : Z).

Definition shutdown_op {hdr : Header} (op : ShutdownOp) : M unit :=
  match op with
  | OpShutdownServ time options exitcode => ShutdownServ time options exitcode
  | OpShutdownCancel => ShutdownCancel
  | OpUpdateGameTime thisTime => _UpdateGameTime thisTime
  end.

(** A header with the flags on distinct bits, for the worked examples. *)
Definition example_header : Header :=
  {| SEC_PLAYER := 0; SEC_ADMINISTRATOR := 3;
     SHUTDOWN_MASK_RESTART := 1; SHUTDOWN_MASK_IDLE := 2;
     SHUTDOWN_EXIT_CODE := 0 |}.

(** Worlds for the worked examples of the shutdown controller. *)
Definition three_sessions : World :=
  set_sessions (fun _ => {[ 10 := 1%N; 20 := 2%N; 30 := 3%N ]})
    (World_new (hdr := example_header) 5000).

Definition countdown (mask remaining : Z) : World :=
  set_ShutdownMask mask (set_ShutdownTimer remaining (World_new (hdr := example_header) 5000)).

(** A timer that counts the elapsed time up from zero, for the worked
    example of the timers. *)
Definition example_Update (diff : Z) (t : IntervalTimer) : IntervalTimer :=
  mkTimer (interval t) (current t + diff).

(** [sends es w]: the world [w] after it has sent [es]. *)
Definition sends (es : list Event) (w : World) : World :=
  mkWorld (objects w) (m_sessions w) (m_QueuedSessions w) (m_playerLimit w)
    (m_maxActiveSessionCount w) (m_maxQueuedSessionCount w) (m_ShutdownMask w)
    (m_ShutdownTimer w) (m_stopEvent w) (m_ExitCode w) (m_gameTime w) (sent w ++ es).

(** What the last loop of [World::RemoveQueuedSession] sends. *)
Fixpoint position_events (iter : list N) (position : Z) : list Event :=
  match iter with
  | [] => []
  | x :: iter' => EvSendAuthWaitQue x position :: position_events iter' (u32 (position + 1))
  end.

(** The parts of the result of [find_and_erase]. *)
Definition erase_found (sess : N) (q : list N) : bool :=
  (find_and_erase sess [] q 1).1.1.1.
Definition erase_before (sess : N) (q : list N) : list N :=
  (find_and_erase sess [] q 1).1.1.2.
Definition erase_iter (sess : N) (q : list N) : list N :=
  (find_and_erase sess [] q 1).1.2.
Definition erase_position (sess : N) (q : list N) : Z :=
  (find_and_erase sess [] q 1).2.

(** The test of [World::RemoveQueuedSession] that lets the head of the queue
    in: there is no limit, or the limit is above the active count, less one
    when the released session was not queued. *)
Definition release_frees_capacity (sess : N) (w : World) : bool :=
  let sessions := GetActiveSessionCount w in
  let sessions :=
    if negb (bool_decide (sess ∈ m_QueuedSessions w)) && negb (sessions =? 0)
    then u32 (sessions - 1) else sessions in
  (m_playerLimit w =? 0) || (i32 sessions <? m_playerLimit w).

(** [count_up n position]: the [uint32] counter [position] after [n]
    increments. *)
Definition count_up (n : nat) (position : Z) : Z :=
  Nat.iter n (fun p => u32 (p + 1)) position.

(** The world [World::RemoveQueuedSession] leaves, in closed form. *)
Definition released (sess : N) (w : World) : World :=
  let q := m_QueuedSessions w in
  let q1 := erase_before sess q ++ erase_iter sess q in
  let w1 :=
    set_QueuedSessions q1
      (if erase_found sess q
       then set_objects (alter (session_SetInQueue false) sess) w else w) in
  if release_frees_capacity sess w && negb (bool_decide (q1 = [])) then
    match q1 with
    | pop_sess :: rest =>
        sends (EvSendAuthWaitQue pop_sess 0 :: position_events rest 1)
          (set_QueuedSessions rest
             (set_objects (alter (session_SetInQueue false) pop_sess) w1))
    | [] => w1
    end
  else sends (position_events (erase_iter sess q) (erase_position sess q)) w1.

(** ** The directory of sessions *)

(** The sessions of the directory: the values of the session map and the
    members of the queue. *)
Definition in_directory (w : World) (p : N) : Prop :=
  (exists id, m_sessions w !! id = Some p) \/ p ∈ m_QueuedSessions w.

(** At most one session for each account: the sessions of the directory are
    live objects, and two of them with the same account are the same. *)
Definition one_session_per_account (w : World) : Prop :=
  (forall p, in_directory w p -> is_Some (objects w !! p)) /\
  (forall p q id, in_directory w p -> in_directory w q ->
     accountId <$> objects w !! p = Some id ->
     accountId <$> objects w !! q = Some id -> p = q).

(** What the operations keep of the directory: no object at [NULL], each
    session filed under its own account, each queued session in the map, and
    no session twice in the queue. *)
Record directory_ok (w : World) : Prop := {
  ok_null : accountId <$> objects w !! NULL = None;
  ok_sessions : forall id p,
    m_sessions w !! id = Some p -> accountId <$> objects w !! p = Some id;
  ok_queued : forall p,
    p ∈ m_QueuedSessions w ->
    exists id, accountId <$> objects w !! p = Some id /\ m_sessions w !! id = Some p;
  ok_nodup : NoDup (m_QueuedSessions w);
}.

(** The network layer creates a session object; [s] is a fresh address. *)
Definition new_WorldSession (s : N) (id sec : Z) : M unit :=
  fun w =>
    if decide (s <> NULL /\ objects w !! s = None)
    then Some (tt, set_objects <[s := mkSession id sec false false]> w)
    else None.

(** A session begins or ends loading its player. *)
Definition SetPlayerLoading (p : N) (b : bool) : M unit :=
  deref p >> modify (set_objects (alter (session_SetPlayerLoading b) p)).

(** A session is pending when the network layer has created it and the
    world has not taken it from [addSessQueue] yet: a live object that is in
    neither the map nor the queue. *)
Definition is_pending (w : World) (s : N) : bool :=
  bool_decide (is_Some (objects w !! s))
  && bool_decide (s ∉ (map_img (m_sessions w) : gset N))
  && bool_decide (s ∉ m_QueuedSessions w).

(** What happens to a world: the network layer creates a session, the world
    takes a pending session from [addSessQueue] and admits it, the sessions
    are updated ([alive] telling which of them are still alive), everybody is
    kicked, the limit is set, a session begins or ends loading, the shutdown
    controller is called. *)
Inductive WorldOp :=
| OpNewSession (s : N) (id sec : Z)
| OpAddSession_ (s : N)
| OpUpdateSessions (alive : N -> bool)
| OpKickAll
| OpSetPlayerLimit (limit : Z) (needUpdate : bool)
| OpSetPlayerLoading (p : N) (b : bool)
| OpShutdown (op : ShutdownOp).

Definition world_op {hdr : Header} (op : WorldOp) : M unit :=
  match op with
  | OpNewSession s id sec => new_WorldSession s id sec
  | OpAddSession_ s =>
      let* w := get in if is_pending w s then AddSession_ s else undefined
  | OpUpdateSessions alive => UpdateSessions [] alive
  | OpKickAll => KickAll
  | OpSetPlayerLimit limit needUpdate => SetPlayerLimit limit needUpdate
  | OpSetPlayerLoading p b => SetPlayerLoading p b
  | OpShutdown op => shutdown_op op
  end.

Inductive reachable {hdr : Header} : World -> Prop :=
| reachable_new (now : Z) : reachable (World_new now)
| reachable_step (w w' : World) (op : WorldOp) :
    reachable w -> world_op op w = Some (tt, w') -> reachable w'.

(** The world a list of operations leaves, from a new world. *)
Definition world_after {hdr : Header} (ops : list WorldOp) : World :=
  match for_each world_op ops (World_new 5000) with
  | Some (_, w) => w
  | None => World_new 5000
  end.

(** The count [World::AddSession_] compares with the limit, for a new session
    of account [id]: the size of the session map with the new session in it,
    less one unless the session it replaces was in the queue. *)
Definition effective_session_count (id : Z) (w : World) : Z :=
  match m_sessions w !! id with
  | Some old =>
      let Sessions := u32 (Z.of_nat (size (m_sessions w))) in
      if bool_decide (old ∈ m_QueuedSessions w) then Sessions else u32 (Sessions - 1)
  | None =>
      let Sessions := u32 (Z.of_nat (S (size (m_sessions w)))) in
      u32 (Sessions - 1)
  end.

(** The session an event is sent to. *)
Definition event_session (e : Event) : option N :=
  match e with
  | EvKickPlayer p | EvAuthOk p | EvAuthWaitQueue p _ | EvSendAuthWaitQue p _ => Some p
  | EvPopulation _ _ | EvAllowedSecurityLevel | EvServerMessage _ _ _ => None
  end.

Definition events_for (p : N) (es : list Event) : list Event :=
  filter (fun e => event_session e = Some p) es.

(** The closed forms of the steps of [World::AddSession_]. *)

(** The world once the session filed under [id], if any, is kicked, released
    from the queue and deleted. *)
Definition replaced (id : Z) (w : World) : World :=
  match m_sessions w !! id with
  | Some old => set_objects (base.delete old) (released old (sends [EvKickPlayer old] w))
  | None => w
  end.

Definition max_counted (w : World) : World :=
  set_maxSessionCounts
    (Z.max (m_maxActiveSessionCount w)
           (u32 (Z.of_nat (size (m_sessions w)) - Z.of_nat (length (m_QueuedSessions w)))))
    (Z.max (m_maxQueuedSessionCount w) (u32 (Z.of_nat (length (m_QueuedSessions w)))))
    w.

Definition queued_at_tail (s : N) (w : World) : World :=
  let wq :=
    set_QueuedSessions (m_QueuedSessions w ++ [s])
      (set_objects (alter (session_SetInQueue true) s) w) in
  sends [EvAuthWaitQueue s (u32 (GetQueuedSessionPos s wq))] wq.

(** The test of [World::AddSession_] that sends a new session of account
    [id] and tier [sec] to the queue. *)
Definition goes_to_queue {hdr : Header} (id sec : Z) (w : World) : bool :=
  let pLimit := u32 (GetPlayerAmountLimit w) in
  (0 <? pLimit) && (pLimit <=? effective_session_count id w) && (sec =? SEC_PLAYER).

Definition joined {hdr : Header} (s : N) (id sec : Z) (w : World) : World :=
  let w3 := set_sessions <[id := s]> (replaced id w) in
  let pLimit := u32 (GetPlayerAmountLimit w) in
  if goes_to_queue id sec w then max_counted (queued_at_tail s w3)
  else
    let w4 := max_counted (sends [EvAuthOk s] w3) in
    if 0 <? pLimit then sends [EvPopulation (GetActiveSessionCount w4) pLimit] w4 else w4.

(** The world once a new session is refused: kicked and deleted. *)
Definition refused (s : N) (w : World) : World :=
  set_objects (base.delete s) (sends [EvKickPlayer s] w).

(** Worlds for the worked examples of admission, all with limit 2.  In
    [full_world] the accounts 10 and 20 are active (sessions 1 and 2) and the
    accounts 30 and 40 are queued, in this order (sessions 3 and 4). *)
Definition full_world : World :=
  mkWorld
    {[ 1%N := mkSession 10 0 false false; 2%N := mkSession 20 0 false false;
       3%N := mkSession 30 0 true false; 4%N := mkSession 40 0 true false ]}
    {[ 10 := 1%N; 20 := 2%N; 30 := 3%N; 40 := 4%N ]}
    [3%N; 4%N] 2 2 2 0 0 false 0 5000 [].

(** Account 10 has session 1, which is loading; session 2 is a new session
    of the same account. *)
Definition loading_world : World :=
  mkWorld
    {[ 1%N := mkSession 10 0 false true; 2%N := mkSession 10 0 false false ]}
    {[ 10 := 1%N ]} [] 2 1 0 0 0 false 0 5000 [].

(** Scenario A: capacity 2, then the sessions of the accounts 10, 20 and
    30 connect in this order; [two_admitted] stops when the third is pending. *)
Definition two_admitted : list WorldOp :=
  [OpSetPlayerLimit 2 false;
   OpNewSession 1 10 0; OpAddSession_ 1;
   OpNewSession 2 20 0; OpAddSession_ 2;
   OpNewSession 3 30 0].

(** The account 10 connects and is admitted, and connects again. *)
Definition same_account_again : list WorldOp :=
  [OpNewSession 1 10 0; OpAddSession_ 1; OpNewSession 2 10 0].

(** The effective count in the words of the specification: the sessions,
    active or queued, that are counted for a candidate of account [id] when
    the candidate is excluded and the session it replaces counts as if it
    had never existed, that is, the sessions of the other accounts. *)
Definition count_excluding_candidate (id : Z) (w : World) : Z :=
  Z.of_nat (size (base.delete id (m_sessions w))).

(** Whether the session that a candidate of account [id] replaces is in the
    queue: [World::AddSession_] then leaves [decrease_session] false. *)
Definition replaces_queued (id : Z) (w : World) : bool :=
  match m_sessions w !! id with
  | Some old => bool_decide (old ∈ m_QueuedSessions w)
  | None => false
  end.

(** Capacity 2 as in scenario A; the session of account 30 is queued, the
    capacity is raised to 3, and account 30 connects again, with session 4. *)
Definition raised_limit : list WorldOp :=
  two_admitted ++ [OpAddSession_ 3; OpSetPlayerLimit 3 false; OpNewSession 4 30 0].

(** * Further parts of World.cpp *)

(** ** Kicking, and the cleanup before the world stops *)

(** [World::KickAllLess] *)
Definition KickAllLess (sec : Z) : M unit :=
  let* w := get in
  for_each
    (fun id =>
       let session := FindSession id w in
       if decide (session = NULL) then ret tt
       else
         let* security := GetSecurity session in
         if security <? sec then KickPlayer session else ret tt)
    (session_keys w).

(** [World::CleanupsBeforeStop]; its last call, of
    [sBattleGroundMgr.DeleteAllBattleGrounds], acts on the battleground
    manager alone. *)
Definition CleanupsBeforeStop {hdr : Header} (addSessQueue : list N) (alive : N -> bool)
  : M unit :=
  KickAll >>
  UpdateSessions addSessQueue alive.

(** The sessions of the map in the order a [std::map] is iterated. *)
Definition sessions_in_order (w : World) : list N :=
  (fun id => FindSession id w) <$> session_keys w.

(** The world the body of the second loop of [World::UpdateSessions] leaves,
    in closed form. *)
Definition erased (alive : N -> bool) (id : Z) (w : World) : World :=
  match m_sessions w !! id with
  | Some pSession =>
      if alive pSession then w
      else set_objects (base.delete pSession)
             (set_sessions (base.delete id) (released pSession w))
  | None => w
  end.

(** The sessions of the map that [World::KickAllLess] kicks. *)
Definition below_tier (sec : Z) (w : World) (p : N) : bool :=
  bool_decide (p <> NULL) &&
  match objects w !! p with
  | Some s => security s <? sec
  | None => false
  end.

(** After the world [w0], [w] has sent admission messages to sessions of
    [l] only, any other message to a session being its kick, and holds
    sessions of [l] only in its queue. *)
Definition sends_to_only (l : list N) (w0 w : World) : Prop :=
  (forall x, x ∈ m_QueuedSessions w -> x ∈ l) /\
  exists later, sent w = sent w0 ++ later /\
    forall e p, e ∈ later -> event_session e = Some p -> p ∈ l \/ e = EvKickPlayer p.

(** ** The countdown over several ticks *)

(** The instants at which the game time is updated, from the time [t] and
    the seconds that pass between one update and the next. *)
Fixpoint times_from (t : Z) (elapsed : list Z) : list Z :=
  match elapsed with
  | [] => []
  | d :: elapsed' => (t + d) :: times_from (t + d) elapsed'
  end.

Definition total (elapsed : list Z) : Z := foldr Z.add 0 elapsed.

(** ** The configuration values

    The arrays of configuration values and their inline accessors
    [getConfig(index)] and [setConfig(index, value)] are declared in World.h,
    [sConfig.GetIntDefault] in Config.h; neither is part of the source at hand.
    The functions of World.cpp that read a value from the configuration file
    are functions of a store of values with these accessors. *)

Module ConfigUInt32.
Section Config.
Variable Store : Type.
Variable getConfig : Z -> Store -> Z.
Variable storeConfig : Z -> Z -> Store -> Store.     (* setConfig(index, value) *)
Variable GetIntDefault : String.string -> Z -> Z.

(** [World::setConfig(eConfigUInt32Values, char const*, uint32)] *)
Definition setConfig (index : Z) (fieldname : String.string) (defvalue : Z) (c : Store) : Store :=
  let c := storeConfig index (u32 (GetIntDefault fieldname defvalue)) c in
  if i32 (getConfig index c) <? 0 then storeConfig index defvalue c else c.

(** [World::setConfigMin(eConfigUInt32Values, char const*, uint32, uint32)] *)
Definition setConfigMin (index : Z) (fieldname : String.string) (defvalue minvalue : Z)
    (c : Store) : Store :=
  let c := setConfig index fieldname defvalue c in
  if getConfig index c <? minvalue then storeConfig index minvalue c else c.

(** [World::setConfigMinMax(eConfigUInt32Values, char const*, uint32, uint32, uint32)] *)
Definition setConfigMinMax (index : Z) (fieldname : String.string)
    (defvalue minvalue maxvalue : Z) (c : Store) : Store :=
  let c := setConfig index fieldname defvalue c in
  if getConfig index c <? minvalue then storeConfig index minvalue c
  else if maxvalue <? getConfig index c then storeConfig index maxvalue c
  else c.

End Config.
End ConfigUInt32.

Module ConfigInt32.
Section Config.
Variable Store : Type.
Variable getConfig : Z -> Store -> Z.
Variable storeConfig : Z -> Z -> Store -> Store.     (* setConfig(index, value) *)
Variable GetIntDefault : String.string -> Z -> Z.

(** [World::setConfig(eConfigInt32Values, char const*, int32)] *)
Definition setConfig (index : Z) (fieldname : String.string) (defvalue : Z) (c : Store) : Store :=
  storeConfig index (i32 (GetIntDefault fieldname defvalue)) c.

(** [World::setConfigMin(eConfigInt32Values, char const*, int32, int32)] *)
Definition setConfigMin (index : Z) (fieldname : String.string) (defvalue minvalue : Z)
    (c : Store) : Store :=
  let c := setConfig index fieldname defvalue c in
  if getConfig index c <? minvalue then storeConfig index minvalue c else c.

(** [World::setConfigMinMax(eConfigInt32Values, char const*, int32, int32, int32)] *)
Definition setConfigMinMax (index : Z) (fieldname : String.string)
    (defvalue minvalue maxvalue : Z) (c : Store) : Store :=
  let c := setConfig index fieldname defvalue c in
  if getConfig index c <? minvalue then storeConfig index minvalue c
  else if maxvalue <? getConfig index c then storeConfig index maxvalue c
  else c.

End Config.
End ConfigInt32.

(** *** Bounds taken from other values

    Two places of [World::LoadConfigSettings] where a bound of one value is
    the value just read of another.  The indices are enumerators of
    [eConfigUInt32Values] (World.h). *)

Section LoadConfigSettings.
Import String.StringSyntax.
#[local] Open Scope string_scope.
Variable Store : Type.
Variable getConfig : Z -> Store -> Z.
Variable storeConfig : Z -> Z -> Store -> Store.     (* setConfig(index, value) *)
Variable GetIntDefault : String.string -> Z -> Z.
Variables CONFIG_UINT32_CHARACTERS_PER_REALM CONFIG_UINT32_CHARACTERS_PER_ACCOUNT : Z.
Variables CONFIG_UINT32_MAX_HONOR_POINTS CONFIG_UINT32_START_HONOR_POINTS : Z.

(** The lines of [World::LoadConfigSettings] that read the numbers of
    characters of a realm and of an account. *)
Definition LoadConfigSettings_characters (c : Store) : Store :=
  let c :=
    ConfigUInt32.setConfigMinMax Store getConfig storeConfig GetIntDefault
      CONFIG_UINT32_CHARACTERS_PER_REALM "CharactersPerRealm" 10 1 10 c in
  (* must be after CONFIG_UINT32_CHARACTERS_PER_REALM *)
  ConfigUInt32.setConfigMin Store getConfig storeConfig GetIntDefault
    CONFIG_UINT32_CHARACTERS_PER_ACCOUNT "CharactersPerAccount" 50
    (getConfig CONFIG_UINT32_CHARACTERS_PER_REALM c) c.

(** The lines that read the most honor points and the honor points at the
    start. *)
Definition LoadConfigSettings_honor (c : Store) : Store :=
  let c :=
    ConfigUInt32.setConfig Store getConfig storeConfig GetIntDefault
      CONFIG_UINT32_MAX_HONOR_POINTS "MaxHonorPoints" 75000 c in
  ConfigUInt32.setConfigMinMax Store getConfig storeConfig GetIntDefault
    CONFIG_UINT32_START_HONOR_POINTS "StartHonorPoints" 0 0
    (getConfig CONFIG_UINT32_MAX_HONOR_POINTS c) c.

End LoadConfigSettings.

(** A store for the worked examples: one value for each index. *)
Definition example_getConfig (index : Z) (c : Z -> Z) : Z := c index.
Definition example_storeConfig (index value : Z) (c : Z -> Z) : Z -> Z :=
  fun i => if decide (i = index) then value else c i.

(** ** The weekly maintenance *)

(** [World::ServerMaintenanceStart]: the date it leaves in
    [m_NextMaintenanceDate] and writes to the table of saved variables.
    [LastWeekEnd] is what [GetDateLastMaintenanceDay()] returns and [today]
    what [GetDateToday()] returns (World.h, not part of the source at hand);
    the rest of the function saves the players and flushes the rank points.
    The sum [LastWeekEnd + 7] is one of [uint32]; the member
    [m_NextMaintenanceDate], declared in World.h, is taken to hold every date
    it is given. *)
Definition ServerMaintenanceStart (LastWeekEnd today : Z) : Z :=
  let m_NextMaintenanceDate := u32 (LastWeekEnd + 7) in
  if m_NextMaintenanceDate <=? today then m_NextMaintenanceDate + 7
  else m_NextMaintenanceDate.

(** [World::InitServerMaintenanceCheck]: [result] is the date the table of
    saved variables holds, if any. *)
Definition InitServerMaintenanceCheck (result : option Z) (mDate today : Z) : Z :=
  let m_NextMaintenanceDate :=
    match result with
    | None => if mDate =? today then mDate else u32 (mDate + 7)
    | Some saved => saved
    end in
  if m_NextMaintenanceDate <=? today then ServerMaintenanceStart mDate today
  else m_NextMaintenanceDate.

(** The maintenance check of [World::Update]: it returns
    [m_MaintenanceTimeChecker].  The three statements it sends to the login
    database delete quest states. *)
Definition Update_maintenance {hdr : Header}
    (today diff m_NextMaintenanceDate m_MaintenanceTimeChecker : Z) : M Z :=
  if m_NextMaintenanceDate <=? today then
    if m_MaintenanceTimeChecker <? diff then
      ShutdownServ 30 SHUTDOWN_MASK_RESTART 2 >>
      ret 600000
    else ret (m_MaintenanceTimeChecker - diff)
  else ret m_MaintenanceTimeChecker.

(** The maintenance check at each of several updates of the world, [diffs]
    being the time each of them is given. *)
Fixpoint maintenance_updates {hdr : Header}
    (today m_NextMaintenanceDate : Z) (diffs : list Z) (m_MaintenanceTimeChecker : Z) : M Z :=
  match diffs with
  | [] => ret m_MaintenanceTimeChecker
  | diff :: diffs' =>
      let* m_MaintenanceTimeChecker :=
        Update_maintenance today diff m_NextMaintenanceDate m_MaintenanceTimeChecker in
      maintenance_updates today m_NextMaintenanceDate diffs' m_MaintenanceTimeChecker
  end.

(** ** The battleground week *)

(** [World::BattleGroundWeek]; [now] is what [time(NULL)] returns. *)
Definition BattleGroundWeek (now : Z) : bool :=
  let time_begin := 1440518400 in
  let time_diff := u32 (now - time_begin) in
  let time := u32 (Z.rem (i32 (time_diff / 3600 / 24 / 7)) 2) in
  time =? 0.

(** ** The battleground windows *)

(** The members of [World] that hold the two battleground windows and the
    switch that tells how far the update has gone through them. *)
Record BattleGroundTimes := mkBattleGroundTimes {
  battleground_time_Start1 : Z;
  battleground_time_End1 : Z;
  battleground_time_Start2 : Z;
  battleground_time_End2 : Z;
  battleground_kaiguan : Z;
}.

Definition set_kaiguan (k : Z) (b : BattleGroundTimes) : BattleGroundTimes :=
  mkBattleGroundTimes (battleground_time_Start1 b) (battleground_time_End1 b)
    (battleground_time_Start2 b) (battleground_time_End2 b) k.

(** The statements the update sends to the login database: the row [id] of
    the table characters_battleground is given a value for [battleground],
    or for [battleground] and the two times. *)
Inductive BattleGroundStatement :=
| SET_battleground (battleground id : Z)
| SET_battleground_and_times
    (battleground battlegroundtime_start battlegroundtime_end id : Z).

(** The four tests on the battleground windows in [World::Update];
    [GetGameTime] is the game time. *)
Definition Update_battleground (GetGameTime : Z) (b : BattleGroundTimes)
  : BattleGroundTimes * list BattleGroundStatement :=
  let db := [] in
  let '(b, db) :=
    if negb (battleground_time_Start1 b =? 0) && (battleground_kaiguan b =? 0) then
      if battleground_time_Start1 b <=? GetGameTime
      then (set_kaiguan 1 b, db ++ [SET_battleground 1 1])
      else (b, db)
    else (b, db) in
  let '(b, db) :=
    if negb (battleground_time_End1 b =? 0) && (battleground_kaiguan b =? 1) then
      if battleground_time_End1 b <=? GetGameTime
      then (set_kaiguan 2 b, db ++ [SET_battleground 0 1])
      else (b, db)
    else (b, db) in
  let '(b, db) :=
    if negb (battleground_time_Start2 b =? 0) && (battleground_kaiguan b =? 2) then
      if battleground_time_Start2 b <=? GetGameTime
      then (set_kaiguan 3 b, db ++ [SET_battleground 1 3])
      else (b, db)
    else (b, db) in
  if negb (battleground_time_End2 b =? 0) && (battleground_kaiguan b =? 3) then
    if battleground_time_End2 b <=? GetGameTime
    then (mkBattleGroundTimes 0 0 0 0 0,
          db ++ [SET_battleground_and_times 1 1 1 1; SET_battleground_and_times 1 1 1 3])
    else (b, db)
  else (b, db).

(** How many of the four instants of the windows the time [now] has
    reached, when they are in order. *)
Definition windows_reached (now : Z) (b : BattleGroundTimes) : Z :=
  (if battleground_time_Start1 b <=? now then 1 else 0)
  + (if battleground_time_End1 b <=? now then 1 else 0)
  + (if battleground_time_Start2 b <=? now then 1 else 0)
  + (if battleground_time_End2 b <=? now then 1 else 0).

(** The statements of the four steps, in order. *)
Definition window_statements : list (list BattleGroundStatement) :=
  [[SET_battleground 1 1]; [SET_battleground 0 1]; [SET_battleground 1 3];
   [SET_battleground_and_times 1 1 1 1; SET_battleground_and_times 1 1 1 3]].

(** ** Worlds for the worked examples of the further properties *)

(** Scenario A with its third session added: the sessions 1 and 2 are
    active, session 3 is queued, and the limit is 2. *)
Definition queue_of_one : list WorldOp :=
  two_admitted ++ [OpAddSession_ 3].

(** The same, and a fourth session, of account 40, is pending. *)
Definition fourth_pending : list WorldOp :=
  queue_of_one ++ [OpNewSession 4 40 0].

(** The same as [queue_of_one], and the limit is then made the required
    tier 1. *)
Definition limit_made_a_tier : list WorldOp :=
  queue_of_one ++ [OpSetPlayerLimit (-1) false].

(** A player (session 1) and an administrator (session 2). *)
Definition mixed_tiers : list WorldOp :=
  [OpNewSession 1 10 0; OpAddSession_ 1; OpNewSession 2 20 3; OpAddSession_ 2].

(** Every session is alive but session 1. *)
Definition all_but_1 (p : N) : bool := negb (p =? 1)%N.

(** A configuration file in which every field reads -5. *)
Definition reads_minus_5 (fieldname : String.string) (defvalue : Z) : Z := -5.

(** * Properties *)

(** ** Machine integers *)

Lemma u32_small (z : Z) : 0 <= z < 2 ^ 32 -> u32 z = z.
Proof. intros. unfold u32. apply Z.mod_small. lia. Qed.

Lemma i32_small (z : Z) : - 2 ^ 31 <= z < 2 ^ 31 -> i32 z = z.
Proof. intros. unfold i32. rewrite Z.mod_small; lia. Qed.

(** ** The shutdown controller *)

Section ShutdownFacts.
Context {hdr : Header}.

Lemma shutdown_state_Firing (w : World) :
  shutdown_state w = Firing <-> m_stopEvent w = true.
Proof. unfold shutdown_state. destruct (m_stopEvent w), (m_ShutdownTimer w =? 0); split; congruence. Qed.

Lemma shutdown_state_Counting (w : World) :
  shutdown_state w = Counting <-> m_stopEvent w = false /\ m_ShutdownTimer w <> 0.
Proof.
  unfold shutdown_state.
  destruct (m_stopEvent w); [split; [congruence | intros [? _]; congruence]|].
  destruct (Z.eqb_spec (m_ShutdownTimer w) 0); split; try congruence; try tauto; intros [_ ?]; lia.
Qed.

Lemma shutdown_state_Idle (w : World) :
  shutdown_state w = Idle <-> m_stopEvent w = false /\ m_ShutdownTimer w = 0.
Proof.
  unfold shutdown_state.
  destruct (m_stopEvent w); [split; [congruence | intros [? _]; congruence]|].
  destruct (Z.eqb_spec (m_ShutdownTimer w) 0); split; try congruence; try tauto; intros [_ ?]; lia.
Qed.

Lemma mod_0_factor (t a b : Z) : t mod (a * b) = 0 -> t mod a = 0.
Proof.
  intros H. destruct (Z.eq_dec a 0) as [->|Ha]; [by rewrite Z.mul_0_l in H|].
  destruct (Z.eq_dec b 0) as [->|Hb].
  - rewrite Z.mul_0_r, Z.mod_0_r in H. subst t. by apply Z.mod_0_l.
  - apply Z.mod_divide in H; [|lia]. destruct H as [c ->].
    replace (c * (a * b)) with (c * b * a) by ring. by apply Z.mod_mul.
Qed.

(** The overlapping tests of [World::ShutdownMsg] select the same instants
    as the table of the specification. *)
Lemma ShutdownMsg_tests_milestone (t : Z) :
  ((t <? 5 * MINUTE) && (t mod 15 =? 0))
  || ((t <? 15 * MINUTE) && (t mod MINUTE =? 0))
  || ((t <? 30 * MINUTE) && (t mod (5 * MINUTE) =? 0))
  || ((t <? 12 * HOUR) && (t mod HOUR =? 0))
  || ((12 * HOUR <=? t) && (t mod (12 * HOUR) =? 0)) = milestone t.
Proof.
  unfold milestone, HOUR, MINUTE.
  change (5 * 60) with 300; change (15 * 60) with 900; change (30 * 60) with 1800;
  change (12 * (60 * 60)) with 43200; change (12 * 3600) with 43200;
  change (60 * 60) with 3600.
  pose proof (mod_0_factor t 15 4) as D60.
  pose proof (mod_0_factor t 60 5) as D300.
  pose proof (mod_0_factor t 300 12) as D3600.
  change (15 * 4) with 60 in D60. change (60 * 5) with 300 in D300.
  change (300 * 12) with 3600 in D3600.
  destruct (Z.ltb_spec t 300), (Z.ltb_spec t 900), (Z.ltb_spec t 1800),
    (Z.ltb_spec t 43200), (Z.leb_spec 43200 t); try lia; simpl;
  destruct (Z.eqb_spec (t mod 15) 0), (Z.eqb_spec (t mod 60) 0),
    (Z.eqb_spec (t mod 300) 0), (Z.eqb_spec (t mod 3600) 0),
    (Z.eqb_spec (t mod 43200) 0); simpl; try reflexivity; exfalso; tauto.
Qed.

Lemma ShutdownMsg_idle (w : World) (show : bool) (player : N) :
  Z.land (m_ShutdownMask w) SHUTDOWN_MASK_IDLE <> 0 ->
  ShutdownMsg show player w = Some (tt, w).
Proof.
  intros Hidle. unfold ShutdownMsg, bind, get.
  destruct (Z.eqb_spec (Z.land (m_ShutdownMask w) SHUTDOWN_MASK_IDLE) 0); [contradiction|].
  reflexivity.
Qed.

Lemma ShutdownMsg_not_idle (w : World) (player : N) :
  Z.land (m_ShutdownMask w) SHUTDOWN_MASK_IDLE = 0 ->
  ShutdownMsg false player w =
    Some (tt,
      if milestone (m_ShutdownTimer w)
      then add_sent (EvServerMessage
             (if negb (Z.land (m_ShutdownMask w) SHUTDOWN_MASK_RESTART =? 0)
              then SERVER_MSG_RESTART_TIME else SERVER_MSG_SHUTDOWN_TIME)
             (Some (m_ShutdownTimer w)) player) w
      else w).
Proof.
  intros Hidle. unfold ShutdownMsg, bind, get. rewrite Hidle. simpl.
  rewrite ShutdownMsg_tests_milestone.
  destruct (milestone (m_ShutdownTimer w)); reflexivity.
Qed.

Lemma Firing_ShutdownServ (w : World) (time options exitcode : Z) :
  m_stopEvent w = true -> ShutdownServ time options exitcode w = Some (tt, w).
Proof. intros Hs. unfold ShutdownServ, bind, get. rewrite Hs. reflexivity. Qed.

Lemma Firing_ShutdownCancel (w : World) :
  m_stopEvent w = true -> ShutdownCancel w = Some (tt, w).
Proof.
  intros Hs. unfold ShutdownCancel, bind, get. rewrite Hs, orb_true_r. reflexivity.
Qed.

Lemma Firing_UpdateGameTime (w : World) (thisTime : Z) :
  m_stopEvent w = true -> _UpdateGameTime thisTime w = Some (tt, set_gameTime thisTime w).
Proof. intros Hs. unfold _UpdateGameTime, bind, get, modify. rewrite Hs. reflexivity. Qed.

(** C5: a shutdown request with delay 0 that is not ignored fires at once,
    with the given exit code, when the mask lacks the idle flag or no session
    is active or queued; otherwise it starts counting from 1.  A tick on which
    the countdown runs out makes the same choice: it fires, or sets the
    countdown back to 1. *)
Theorem shutdown_now_or_wait_idle (w : World) (options exitcode : Z) :
  m_stopEvent w = false ->
  (exists w', ShutdownServ 0 options exitcode w = Some (tt, w') /\
     (Z.land options SHUTDOWN_MASK_IDLE = 0 \/ GetActiveAndQueuedSessionCount w = 0 ->
        shutdown_state w' = Firing /\ m_ExitCode w' = exitcode) /\
     (Z.land options SHUTDOWN_MASK_IDLE <> 0 /\ GetActiveAndQueuedSessionCount w <> 0 ->
        shutdown_state w' = Counting /\ m_ShutdownTimer w' = 1)) /\
  (forall thisTime,
     0 < m_ShutdownTimer w <= u32 (thisTime - m_gameTime w) ->
     exists w', _UpdateGameTime thisTime w = Some (tt, w') /\
       (Z.land (m_ShutdownMask w) SHUTDOWN_MASK_IDLE = 0
        \/ GetActiveAndQueuedSessionCount w = 0 ->
          shutdown_state w' = Firing /\ m_ExitCode w' = m_ExitCode w) /\
       (Z.land (m_ShutdownMask w) SHUTDOWN_MASK_IDLE <> 0
        /\ GetActiveAndQueuedSessionCount w <> 0 ->
          shutdown_state w' = Counting /\ m_ShutdownTimer w' = 1)).
Proof.
  intros Hs. split.
  - unfold ShutdownServ, bind, get. rewrite Hs. simpl.
    destruct (Z.eqb_spec (Z.land options SHUTDOWN_MASK_IDLE) 0) as [Hi|Hi]; simpl.
    + eexists; split; [reflexivity|]. split; [done | tauto].
    + destruct (Z.eqb_spec (GetActiveAndQueuedSessionCount w) 0) as [Hc|Hc]; simpl.
      * eexists; split; [reflexivity|]. split; [done | tauto].
      * eexists; split; [reflexivity|]. split; [tauto|]. intros _.
        unfold shutdown_state. simpl. rewrite Hs. done.
  - intros thisTime [Hpos Hle]. unfold _UpdateGameTime, bind, get, modify. rewrite Hs. simpl.
    destruct (Z.ltb_spec 0 (m_ShutdownTimer w)); [|lia].
    destruct (Z.ltb_spec 0 (u32 (thisTime - m_gameTime w))); [|lia].
    destruct (Z.leb_spec (m_ShutdownTimer w) (u32 (thisTime - m_gameTime w))); [|lia].
    simpl.
    destruct (Z.eqb_spec (Z.land (m_ShutdownMask w) SHUTDOWN_MASK_IDLE) 0) as [Hi|Hi]; simpl.
    + eexists; split; [reflexivity|]. split; [done | tauto].
    + destruct (Z.eqb_spec (GetActiveAndQueuedSessionCount w) 0) as [Hc|Hc]; simpl.
      * eexists; split; [reflexivity|]. split; [done | tauto].
      * eexists; split; [reflexivity|]. split; [tauto|]. intros _.
        unfold shutdown_state. simpl. rewrite Hs. done.
Qed.

Lemma Firing_shutdown_op (op : ShutdownOp) (w : World) :
  m_stopEvent w = true ->
  exists w', shutdown_op op w = Some (tt, w') /\
    m_stopEvent w' = true /\ m_ExitCode w' = m_ExitCode w /\
    m_ShutdownMask w' = m_ShutdownMask w /\ m_ShutdownTimer w' = m_ShutdownTimer w /\
    sent w' = sent w.
Proof.
  intros Hs. destruct op; simpl.
  - rewrite Firing_ShutdownServ by done. eauto 10.
  - rewrite Firing_ShutdownCancel by done. eauto 10.
  - rewrite Firing_UpdateGameTime by done. eexists; split; [reflexivity|]. simpl. eauto.
Qed.

(** C6: once the stop event is set, a shutdown request and a cancellation
    leave the world as it is, a tick only moves the game time, and so no
    sequence of them changes the stop event, the exit code, the mask or the
    countdown, or sends anything. *)
Theorem Firing_is_final (w : World) :
  m_stopEvent w = true ->
  (forall time options exitcode, ShutdownServ time options exitcode w = Some (tt, w)) /\
  ShutdownCancel w = Some (tt, w) /\
  (forall thisTime, _UpdateGameTime thisTime w = Some (tt, set_gameTime thisTime w)) /\
  (forall ops, exists w',
     for_each shutdown_op ops w = Some (tt, w') /\
     shutdown_state w' = Firing /\ m_ExitCode w' = m_ExitCode w /\
     m_ShutdownMask w' = m_ShutdownMask w /\ m_ShutdownTimer w' = m_ShutdownTimer w /\
     sent w' = sent w).
Proof.
  intros Hs. split; [|split; [|split]].
  - intros. by apply Firing_ShutdownServ.
  - by apply Firing_ShutdownCancel.
  - intros. by apply Firing_UpdateGameTime.
  - intros ops. revert w Hs. induction ops as [|op ops IH]; intros w Hs.
    + exists w. simpl. rewrite shutdown_state_Firing. done.
    + destruct (Firing_shutdown_op op w Hs) as (w1 & Hop & Hs1 & He & Hm & Ht & Hsent).
      destruct (IH w1 Hs1) as (w' & Hrun & ? & ? & ? & ? & ?).
      exists w'. simpl. unfold bind. rewrite Hop.
      split; [done|]. repeat split; congruence.
Qed.

(** C7: on every tick of a countdown that is running with time remaining,
    without the idle flag, a warning is broadcast exactly when the tick moves
    the remaining time to a milestone of the table: a tick on which no second
    has passed sends nothing, whatever the remaining time; a tick that leaves
    time reduces the remaining time by the elapsed seconds and sends the
    warning if and only if the new remaining time is a milestone; the tick on
    which the time runs out fires and sends nothing. *)
Theorem countdown_warning_at_milestones (w : World) (thisTime : Z) :
  m_stopEvent w = false ->
  Z.land (m_ShutdownMask w) SHUTDOWN_MASK_IDLE = 0 ->
  0 < m_ShutdownTimer w < 2 ^ 32 ->
  let elapsed := u32 (thisTime - m_gameTime w) in
  let remaining := m_ShutdownTimer w - elapsed in
  exists w', _UpdateGameTime thisTime w = Some (tt, w') /\
    if elapsed <? m_ShutdownTimer w
    then
      (m_ShutdownTimer w' = remaining /\
       shutdown_state w' = Counting /\
       sent w' = sent w ++
         (if (0 <? elapsed) && milestone remaining
          then [EvServerMessage
                  (if Z.land (m_ShutdownMask w) SHUTDOWN_MASK_RESTART =? 0
                   then SERVER_MSG_SHUTDOWN_TIME else SERVER_MSG_RESTART_TIME)
                  (Some remaining) NULL]
          else []))
    else (shutdown_state w' = Firing /\ sent w' = sent w).
Proof.
  intros Hs Hidle Hrange elapsed remaining.
  pose proof (Z.mod_pos_bound (thisTime - m_gameTime w) (2 ^ 32) ltac:(lia)) as He.
  fold (u32 (thisTime - m_gameTime w)) in He. fold elapsed in He.
  unfold _UpdateGameTime, bind, get, modify. rewrite Hs. simpl. fold elapsed.
  rewrite (proj2 (Z.ltb_lt 0 (m_ShutdownTimer w))) by lia. simpl.
  assert (Hst : forall w1, m_stopEvent w1 = false -> m_ShutdownTimer w1 = remaining ->
                           elapsed < m_ShutdownTimer w -> shutdown_state w1 = Counting).
  { intros w1 Hw1 Hw2 Hlt. apply shutdown_state_Counting. subst remaining.
    split; [done | lia]. }
  destruct (Z.ltb_spec 0 elapsed) as [Hpos|Hzero].
  - destruct (Z.leb_spec (m_ShutdownTimer w) elapsed) as [Hup|Hleft].
    + rewrite Hidle. simpl. rewrite (proj2 (Z.ltb_ge elapsed (m_ShutdownTimer w))) by done.
      eexists; split; [reflexivity|]. split; [by apply shutdown_state_Firing | done].
    + rewrite (proj2 (Z.ltb_lt elapsed (m_ShutdownTimer w))) by done.
      simpl. rewrite ShutdownMsg_not_idle by done. simpl.
      rewrite u32_small by lia. fold remaining.
      destruct (milestone remaining).
      * eexists; split; [reflexivity|]. simpl. split; [done|]. split; [by apply Hst|].
        destruct (Z.land (m_ShutdownMask w) SHUTDOWN_MASK_RESTART =? 0); done.
      * eexists; split; [reflexivity|]. simpl. split; [done|]. split; [by apply Hst|].
        by rewrite app_nil_r.
  - assert (Hz : elapsed = 0) by lia.
    rewrite (proj2 (Z.ltb_lt elapsed (m_ShutdownTimer w))) by lia. unfold ret.
    eexists; split; [reflexivity|]. simpl. split; [subst remaining; lia|].
    split; [apply Hst; [done | subst remaining; simpl; lia | lia]|].
    by rewrite app_nil_r.
Qed.

(** C8, as the code has it: a countdown with the idle flag is silent (no
    warning on a request, on a tick or on demand); a cancellation takes effect
    only while counting, where it clears the mask and the countdown, restores
    the default exit code and sends one cancellation notice, with the idle
    flag or without; in the idle state it changes and sends nothing. *)
Theorem idle_countdown_silent_cancel_notifies (w : World) :
  (Z.land (m_ShutdownMask w) SHUTDOWN_MASK_IDLE <> 0 ->
     (forall show player, ShutdownMsg show player w = Some (tt, w)) /\
     (forall thisTime, exists w',
        _UpdateGameTime thisTime w = Some (tt, w') /\ sent w' = sent w)) /\
  (forall time options exitcode,
     Z.land options SHUTDOWN_MASK_IDLE <> 0 ->
     exists w', ShutdownServ time options exitcode w = Some (tt, w') /\ sent w' = sent w) /\
  (shutdown_state w = Counting ->
     exists w', ShutdownCancel w = Some (tt, w') /\
       shutdown_state w' = Idle /\
       m_ShutdownMask w' = 0 /\ m_ShutdownTimer w' = 0 /\
       m_ExitCode w' = u8 SHUTDOWN_EXIT_CODE /\
       sent w' = sent w ++
         [EvServerMessage
            (if Z.land (m_ShutdownMask w) SHUTDOWN_MASK_RESTART =? 0
             then SERVER_MSG_SHUTDOWN_CANCELLED else SERVER_MSG_RESTART_CANCELLED)
            None NULL]) /\
  (shutdown_state w = Idle -> ShutdownCancel w = Some (tt, w)).
Proof.
  split; [|split; [|split]].
  - intros Hidle. split.
    + intros. by apply ShutdownMsg_idle.
    + intros thisTime. unfold _UpdateGameTime, bind, get, modify. simpl.
      destruct (negb (m_stopEvent w) && (0 <? m_ShutdownTimer w)
                && (0 <? u32 (thisTime - m_gameTime w))); [|eauto].
      destruct (m_ShutdownTimer w <=? u32 (thisTime - m_gameTime w)).
      * destruct ((Z.land (m_ShutdownMask w) SHUTDOWN_MASK_IDLE =? 0)
                  || (GetActiveAndQueuedSessionCount w =? 0)); eauto.
      * rewrite ShutdownMsg_idle by done. eauto.
  - intros time options exitcode Hidle. unfold ShutdownServ, bind, get, modify.
    destruct (m_stopEvent w); [eauto|]. simpl.
    destruct (time =? 0).
    + destruct ((Z.land options SHUTDOWN_MASK_IDLE =? 0)
                || (GetActiveAndQueuedSessionCount w =? 0)); eauto.
    + rewrite ShutdownMsg_idle by done. eauto.
  - intros [Hs Hpos]%shutdown_state_Counting.
    unfold ShutdownCancel, bind, get, modify, emit, modify. rewrite Hs.
    destruct (Z.eqb_spec (m_ShutdownTimer w) 0); [done|]. simpl.
    eexists; split; [reflexivity|]. simpl.
    split; [by apply shutdown_state_Idle|].
    destruct (Z.land (m_ShutdownMask w) SHUTDOWN_MASK_RESTART =? 0); done.
  - intros [Hs Hz]%shutdown_state_Idle.
    unfold ShutdownCancel, bind, get. by rewrite Hz.
Qed.

End ShutdownFacts.

(** C5, on a world with three sessions in its directory: a request with
    delay 0 and the idle flag starts counting from 1. *)
Lemma shutdown_now_or_wait_idle_witness :
  exists w', ShutdownServ (hdr := example_header) 0 2 0 three_sessions = Some (tt, w') /\
    shutdown_state w' = Counting /\ m_ShutdownTimer w' = 1.
Proof.
  destruct (shutdown_now_or_wait_idle (hdr := example_header) three_sessions 2 0 eq_refl)
    as [(w' & Hrun & _ & Hwait) _].
  exists w'. split; [exact Hrun|]. apply Hwait. split; vm_compute; discriminate.
Defined.

(** C6, on a world that is firing with exit code 2: a request, a
    cancellation and a tick later its exit code is still 2. *)
Lemma Firing_is_final_witness :
  exists w',
    for_each (shutdown_op (hdr := example_header))
      [OpShutdownServ 30 1 7; OpShutdownCancel; OpUpdateGameTime 5060]
      (set_stopEvent true (set_ExitCode 2 (countdown 0 10))) = Some (tt, w') /\
    shutdown_state w' = Firing /\ m_ExitCode w' = 2.
Proof.
  destruct (Firing_is_final (hdr := example_header)
              (set_stopEvent true (set_ExitCode 2 (countdown 0 10))) eq_refl)
    as (_ & _ & _ & Hops).
  destruct (Hops [OpShutdownServ 30 1 7; OpShutdownCancel; OpUpdateGameTime 5060])
    as (w' & Hrun & Hst & Hcode & _).
  exists w'. split; [exact Hrun|]. split; [exact Hst|]. exact Hcode.
Defined.

(** C7, the worked example: two seconds pass at 301 seconds remaining and
    nothing is sent; two seconds pass at 302 and the warning for 300 seconds
    is sent; a tick on which no second passes at 300 seconds remaining sends
    nothing. *)
Lemma countdown_warning_at_milestones_witness :
  (exists w', _UpdateGameTime (hdr := example_header) 5002 (countdown 0 301) = Some (tt, w') /\
     m_ShutdownTimer w' = 299 /\ sent w' = []) /\
  (exists w', _UpdateGameTime (hdr := example_header) 5002 (countdown 0 302) = Some (tt, w') /\
     m_ShutdownTimer w' = 300 /\
     sent w' = [EvServerMessage SERVER_MSG_SHUTDOWN_TIME (Some 300) NULL]) /\
  (exists w', _UpdateGameTime (hdr := example_header) 5000 (countdown 0 300) = Some (tt, w') /\
     m_ShutdownTimer w' = 300 /\ sent w' = []).
Proof.
  split; [|split].
  - destruct (countdown_warning_at_milestones (hdr := example_header) (countdown 0 301) 5002
                eq_refl eq_refl (conj eq_refl eq_refl))
      as (w' & Hrun & Ht & _ & Hsent).
    exists w'. split; [exact Hrun|]. split; [exact Ht | exact Hsent].
  - destruct (countdown_warning_at_milestones (hdr := example_header) (countdown 0 302) 5002
                eq_refl eq_refl (conj eq_refl eq_refl))
      as (w' & Hrun & Ht & _ & Hsent).
    exists w'. split; [exact Hrun|]. split; [exact Ht | exact Hsent].
  - destruct (countdown_warning_at_milestones (hdr := example_header) (countdown 0 300) 5000
                eq_refl eq_refl (conj eq_refl eq_refl))
      as (w' & Hrun & Ht & _ & Hsent).
    exists w'. split; [exact Hrun|]. split; [exact Ht | exact Hsent].
Defined.

(** C8, as the specification words it, fails: a countdown with the idle
    flag is cancelled and the cancellation notice is sent all the same. *)
Lemma idle_cancel_sends_notice :
  Z.land (m_ShutdownMask (countdown 2 600)) (SHUTDOWN_MASK_IDLE (Header := example_header)) <> 0 /\
  exists w', ShutdownCancel (hdr := example_header) (countdown 2 600) = Some (tt, w') /\
    sent w' = [EvServerMessage SERVER_MSG_SHUTDOWN_CANCELLED None NULL].
Proof.
  split; [vm_compute; discriminate|].
  eexists. split; [vm_compute; reflexivity | reflexivity].
Qed.

(** C8, on a countdown of 600 seconds with the idle flag: a tick sends
    nothing, and the cancellation resets the controller. *)
Lemma idle_countdown_silent_cancel_notifies_witness :
  (exists w', _UpdateGameTime (hdr := example_header) 5300 (countdown 2 600) = Some (tt, w') /\
     sent w' = []) /\
  (exists w', ShutdownCancel (hdr := example_header) (countdown 2 600) = Some (tt, w') /\
     shutdown_state w' = Idle /\ m_ShutdownMask w' = 0 /\ m_ShutdownTimer w' = 0).
Proof.
  destruct (idle_countdown_silent_cancel_notifies (hdr := example_header) (countdown 2 600))
    as (Hsilent & _ & Hcancel & _).
  split.
  - destruct Hsilent as [_ Htick]; [vm_compute; discriminate|].
    destruct (Htick 5300) as (w' & Hrun & Hsent). exists w'. split; [exact Hrun | exact Hsent].
  - destruct Hcancel as (w' & Hrun & Hst & Hm & Ht & _); [reflexivity|].
    exists w'. split; [exact Hrun|]. split; [exact Hst|]. split; [exact Hm | exact Ht].
Defined.

(** ** The interval timers *)

Section TimerFacts.
Variable IntervalTimer_Update : Z -> IntervalTimer -> IntervalTimer.

Lemma Update_timer_negative (diff : Z) (t : IntervalTimer) :
  current t < 0 ->
  Update_timer IntervalTimer_Update diff t = mkTimer (interval t) 0.
Proof.
  intros Hneg. unfold Update_timer, GetCurrent, SetCurrent.
  destruct (Z.leb_spec 0 (current t)); [lia | reflexivity].
Qed.

Lemma Update_timer_advance (diff : Z) (t : IntervalTimer) :
  0 <= current t ->
  Update_timer IntervalTimer_Update diff t = IntervalTimer_Update diff t.
Proof.
  intros Hpos. unfold Update_timer, GetCurrent.
  destruct (Z.leb_spec 0 (current t)); [reflexivity | lia].
Qed.

(** C9: the first loop of a tick keeps every timer in its place, advances by
    the elapsed time each timer whose counter is not negative, and sets a
    negative counter to zero; so a counter that is negative when a tick starts
    is not negative after it, and where advancing keeps a counter from going
    negative no counter is negative after the tick. *)
Theorem timers_advanced_or_clamped (diff : Z) (m_timers : list IntervalTimer) :
  length (Update_timers IntervalTimer_Update diff m_timers) = length m_timers /\
  (forall i t, m_timers !! i = Some t ->
     exists t', Update_timers IntervalTimer_Update diff m_timers !! i = Some t' /\
       (0 <= current t -> t' = IntervalTimer_Update diff t) /\
       (current t < 0 -> current t' = 0 /\ interval t' = interval t)) /\
  ((forall t, 0 <= current t -> 0 <= current (IntervalTimer_Update diff t)) ->
   forall t', t' ∈ Update_timers IntervalTimer_Update diff m_timers -> 0 <= current t').
Proof.
  unfold Update_timers. split; [apply length_fmap|]. split.
  - intros i t Hi. exists (Update_timer IntervalTimer_Update diff t).
    split; [by rewrite list_lookup_fmap, Hi|]. split.
    + intros Hpos. by apply Update_timer_advance.
    + intros Hneg. by rewrite Update_timer_negative.
  - intros Hkeeps t' (t & -> & _)%list_elem_of_fmap.
    destruct (Z.lt_ge_cases (current t) 0).
    + by rewrite Update_timer_negative.
    + rewrite Update_timer_advance by done. by apply Hkeeps.
Qed.

End TimerFacts.

(** C9, on two timers, one with a negative counter: after a tick of 50 ms
    the first counter is zero, the second is advanced, and none is negative. *)
Lemma timers_advanced_or_clamped_witness :
  Update_timers example_Update 50 [mkTimer 100 (-7); mkTimer 100 30]
    = [mkTimer 100 0; mkTimer 100 80] /\
  Forall (fun t' => 0 <= current t')
    (Update_timers example_Update 50 [mkTimer 100 (-7); mkTimer 100 30]).
Proof.
  split; [reflexivity|]. apply Forall_forall.
  apply (timers_advanced_or_clamped example_Update 50 [mkTimer 100 (-7); mkTimer 100 30]).
  intros t Hpos. simpl. lia.
Defined.

(** ** The monad and the session objects *)

Lemma deref_live (w : World) (p : N) (s : WorldSession) :
  objects w !! p = Some s -> deref p w = Some (s, w).
Proof. intros H. unfold deref. by rewrite H. Qed.

Lemma deref_inv (w w' : World) (p : N) (s : WorldSession) :
  deref p w = Some (s, w') -> objects w !! p = Some s /\ w' = w.
Proof. unfold deref. destruct (objects w !! p); intros [= <- <-]; done. Qed.

Lemma SetInQueue_live (w : World) (p : N) (b : bool) :
  is_Some (objects w !! p) ->
  SetInQueue p b w = Some (tt, set_objects (alter (session_SetInQueue b) p) w).
Proof. intros [s H]. unfold SetInQueue, bind. by rewrite (deref_live _ _ _ H). Qed.

Lemma SendAuthWaitQue_live (w : World) (p : N) (position : Z) :
  is_Some (objects w !! p) ->
  SendAuthWaitQue p position w = Some (tt, sends [EvSendAuthWaitQue p position] w).
Proof. intros [s H]. unfold SendAuthWaitQue, bind. by rewrite (deref_live _ _ _ H). Qed.

Lemma KickPlayer_live (w : World) (p : N) :
  is_Some (objects w !! p) ->
  KickPlayer p w = Some (tt, sends [EvKickPlayer p] w).
Proof. intros [s H]. unfold KickPlayer, bind. by rewrite (deref_live _ _ _ H). Qed.

Lemma delete_session_live (w : World) (p : N) :
  is_Some (objects w !! p) -> p <> NULL ->
  delete_session p w = Some (tt, set_objects (base.delete p) w).
Proof.
  intros [s H] Hp. unfold delete_session, bind.
  destruct (decide (p = NULL)); [done|]. by rewrite (deref_live _ _ _ H).
Qed.

Lemma sends_sends (es es' : list Event) (w : World) :
  sends es' (sends es w) = sends (es ++ es') w.
Proof. unfold sends. simpl. by rewrite app_assoc. Qed.

Lemma send_positions_live (iter : list N) (position : Z) (w : World) :
  (forall x, x ∈ iter -> is_Some (objects w !! x)) ->
  send_positions iter position w = Some (tt, sends (position_events iter position) w).
Proof.
  revert position w. induction iter as [|x iter IH]; intros position w Hlive.
  - simpl. unfold ret, sends. rewrite app_nil_r. by destruct w.
  - simpl. unfold bind. rewrite SendAuthWaitQue_live by (apply Hlive; left).
    rewrite IH; [by rewrite sends_sends|].
    intros y Hy. simpl. apply Hlive. by right.
Qed.

(** ** Releasing a session from the queue *)

Lemma count_up_S (n : nat) (position : Z) :
  count_up (S n) position = count_up n (u32 (position + 1)).
Proof. exact (Nat.iter_succ_r n (fun p => u32 (p + 1)) position). Qed.

Lemma find_and_erase_absent (sess : N) (before iter : list N) (position : Z) :
  sess ∉ iter ->
  find_and_erase sess before iter position =
    (false, before ++ iter, [], count_up (length iter) position).
Proof.
  revert before position. induction iter as [|x iter IH]; intros before position Hnot.
  - simpl. by rewrite app_nil_r.
  - apply not_elem_of_cons in Hnot as [Hne Hnot]. cbn [find_and_erase app].
    destruct (decide (x = sess)); [congruence|].
    rewrite IH by done. rewrite <- app_assoc. cbn [length app].
    by rewrite count_up_S.
Qed.

Lemma find_and_erase_present (sess : N) (before l1 l2 : list N) (position : Z) :
  sess ∉ l1 ->
  find_and_erase sess before (l1 ++ sess :: l2) position =
    (true, before ++ l1, l2, count_up (length l1) position).
Proof.
  revert before position. induction l1 as [|x l1 IH]; intros before position Hnot.
  - cbn [find_and_erase app]. destruct (decide (sess = sess)); [|done]. by rewrite app_nil_r.
  - apply not_elem_of_cons in Hnot as [Hne Hnot]. cbn [find_and_erase app].
    destruct (decide (x = sess)); [congruence|].
    rewrite IH by done. rewrite <- app_assoc. cbn [length app].
    by rewrite count_up_S.
Qed.

Lemma count_up_small (n : nat) (position : Z) :
  0 <= position -> position + Z.of_nat n < 2 ^ 32 ->
  count_up n position = position + Z.of_nat n.
Proof.
  unfold count_up. induction n as [|n IH]; intros Hpos Hlt.
  - simpl. lia.
  - simpl. rewrite IH by lia. rewrite u32_small by lia. lia.
Qed.

Lemma erase_absent (sess : N) (q : list N) :
  sess ∉ q ->
  erase_found sess q = false /\ erase_before sess q = q /\ erase_iter sess q = [] /\
  erase_position sess q = count_up (length q) 1.
Proof.
  intros Hnot. unfold erase_found, erase_before, erase_iter, erase_position.
  by rewrite find_and_erase_absent.
Qed.

Lemma erase_present (sess : N) (l1 l2 : list N) :
  sess ∉ l1 ->
  erase_found sess (l1 ++ sess :: l2) = true /\
  erase_before sess (l1 ++ sess :: l2) = l1 /\
  erase_iter sess (l1 ++ sess :: l2) = l2 /\
  erase_position sess (l1 ++ sess :: l2) = count_up (length l1) 1.
Proof.
  intros Hnot. unfold erase_found, erase_before, erase_iter, erase_position.
  by rewrite find_and_erase_present.
Qed.

Lemma erase_found_elem_of (sess : N) (q : list N) :
  erase_found sess q = bool_decide (sess ∈ q).
Proof.
  destruct (decide (sess ∈ q)) as [Hin|Hnot].
  - rewrite bool_decide_eq_true_2 by done.
    apply list_elem_of_split_l in Hin as (l1 & l2 & -> & Hl1).
    by apply erase_present.
  - rewrite bool_decide_eq_false_2 by done. by apply erase_absent.
Qed.

(** What is left of the queue is a part of it. *)
Lemma erase_rest_subseteq (sess : N) (q : list N) (x : N) :
  x ∈ erase_before sess q ++ erase_iter sess q -> x ∈ q.
Proof.
  destruct (decide (sess ∈ q)) as [Hin|Hnot].
  - apply list_elem_of_split_l in Hin as (l1 & l2 & -> & Hl1).
    destruct (erase_present sess l1 l2 Hl1) as (_ & -> & -> & _).
    rewrite !elem_of_app, elem_of_cons. tauto.
  - destruct (erase_absent sess q Hnot) as (_ & -> & -> & _). by rewrite app_nil_r.
Qed.

Lemma erase_iter_subseteq (sess : N) (q : list N) (x : N) :
  x ∈ erase_iter sess q -> x ∈ q.
Proof. intros H. apply (erase_rest_subseteq sess). apply elem_of_app. by right. Qed.

Lemma RemoveQueuedSession_run (sess : N) (w : World) :
  (forall x, x ∈ m_QueuedSessions w -> is_Some (objects w !! x)) ->
  RemoveQueuedSession sess w =
    Some (bool_decide (sess ∈ m_QueuedSessions w), released sess w).
Proof.
  intros Hlive. rewrite <- erase_found_elem_of.
  pose proof (erase_rest_subseteq sess (m_QueuedSessions w)) as Hrest.
  pose proof (erase_iter_subseteq sess (m_QueuedSessions w)) as Hiter.
  assert (Hsess : erase_found sess (m_QueuedSessions w) = true ->
                  is_Some (objects w !! sess)).
  { rewrite erase_found_elem_of. intros Hin%bool_decide_eq_true. by apply Hlive. }
  unfold released, release_frees_capacity. rewrite <- !erase_found_elem_of.
  unfold RemoveQueuedSession, erase_found, erase_before, erase_iter, erase_position in *.
  unfold bind at 1. unfold get at 1.
  destruct (find_and_erase sess [] (m_QueuedSessions w) 1)
    as [[[found before] iter] position]. simpl in *.
  set (w0 := if found then set_objects (alter (session_SetInQueue false) sess) w else w).
  assert (Hobj : forall x, is_Some (objects w !! x) -> is_Some (objects w0 !! x)).
  { intros x Hx. subst w0. destruct found; [|done]. simpl.
    rewrite lookup_alter. case_decide; [subst; by apply fmap_is_Some | done]. }
  assert (Hstep1 : (if found then SetInQueue sess false else ret tt) w = Some (tt, w0)).
  { subst w0. destruct found; [|done]. apply SetInQueue_live. by apply Hsess. }
  unfold bind at 1. rewrite Hstep1.
  unfold bind at 1. unfold modify at 1.
  unfold bind at 1. unfold get at 1.
  assert (Hlimit : m_playerLimit (set_QueuedSessions (before ++ iter) w0) = m_playerLimit w).
  { subst w0. by destruct found. }
  rewrite Hlimit.
  cbn [m_QueuedSessions set_QueuedSessions].
  destruct (((m_playerLimit w =? 0)
             || (i32 (if negb found && negb (GetActiveSessionCount w =? 0)
                      then u32 (GetActiveSessionCount w - 1)
                      else GetActiveSessionCount w) <? m_playerLimit w))
            && negb (bool_decide (before ++ iter = []))) eqn:Hpromote.
  - destruct (before ++ iter) as [|pop_sess rest] eqn:Hq1.
    { rewrite bool_decide_eq_true_2 in Hpromote by done.
      by rewrite andb_false_r in Hpromote. }
    unfold bind at 1. unfold bind at 1.
    rewrite SetInQueue_live; [|simpl; apply Hobj, Hlive, Hrest; left].
    unfold bind at 1. rewrite SendAuthWaitQue_live.
    2:{ simpl. rewrite lookup_alter. case_decide; [apply fmap_is_Some|];
        apply Hobj, Hlive, Hrest; left. }
    unfold bind at 1. unfold modify at 1. unfold ret at 1.
    unfold bind at 1. rewrite send_positions_live.
    2:{ intros x Hx. simpl. rewrite lookup_alter.
        case_decide; [apply fmap_is_Some|]; apply Hobj, Hlive, Hrest.
        - left. - by right. }
    unfold ret, sends. simpl. by rewrite <- app_assoc.
  - unfold bind at 1. unfold ret at 1.
    unfold bind at 1. rewrite send_positions_live.
    2:{ intros x Hx. simpl. by apply Hobj, Hlive, Hiter. }
    reflexivity.
Qed.

Lemma position_events_imap (iter : list N) (position : Z) :
  0 <= position -> position + Z.of_nat (length iter) < 2 ^ 32 ->
  position_events iter position =
    imap (fun i x => EvSendAuthWaitQue x (position + Z.of_nat i)) iter.
Proof.
  revert position. induction iter as [|x iter IH]; intros position Hpos Hlt; [done|].
  cbn [position_events length] in *. rewrite imap_cons, Z.add_0_r. f_equal.
  rewrite u32_small by lia. rewrite IH by lia.
  apply imap_ext. intros i y _. simpl. f_equal. lia.
Qed.

Lemma released_sessions (sess : N) (w : World) :
  m_sessions (released sess w) = m_sessions w.
Proof.
  unfold released.
  destruct (erase_found sess (m_QueuedSessions w));
    destruct (release_frees_capacity sess w && _);
    try destruct (erase_before sess (m_QueuedSessions w) ++ erase_iter sess (m_QueuedSessions w));
    reflexivity.
Qed.

Lemma released_playerLimit (sess : N) (w : World) :
  m_playerLimit (released sess w) = m_playerLimit w.
Proof.
  unfold released.
  destruct (erase_found sess (m_QueuedSessions w));
    destruct (release_frees_capacity sess w && _);
    try destruct (erase_before sess (m_QueuedSessions w) ++ erase_iter sess (m_QueuedSessions w));
    reflexivity.
Qed.

(** The session objects after a release: the same objects, with the queued
    flag of some of them cleared. *)
Lemma released_objects (sess : N) (w : World) (p : N) :
  objects (released sess w) !! p = objects w !! p \/
  objects (released sess w) !! p = session_SetInQueue false <$> objects w !! p.
Proof.
  unfold released.
  destruct (erase_found sess (m_QueuedSessions w));
    destruct (release_frees_capacity sess w && _);
    try destruct (erase_before sess (m_QueuedSessions w) ++ erase_iter sess (m_QueuedSessions w));
    simpl; rewrite ?lookup_alter; repeat case_decide; subst; auto.
  right. rewrite <- option_fmap_compose. by destruct (objects w !! p).
Qed.

Lemma released_objects_identity (sess : N) (w : World) (p : N) :
  accountId <$> objects (released sess w) !! p = accountId <$> objects w !! p /\
  security <$> objects (released sess w) !! p = security <$> objects w !! p /\
  m_playerLoading <$> objects (released sess w) !! p = m_playerLoading <$> objects w !! p.
Proof.
  destruct (released_objects sess w p) as [-> | ->]; [done|].
  by destruct (objects w !! p).
Qed.

Lemma released_live (sess : N) (w : World) (p : N) :
  is_Some (objects (released sess w) !! p) <-> is_Some (objects w !! p).
Proof.
  destruct (released_objects sess w p) as [-> | ->]; [done|].
  by rewrite fmap_is_Some.
Qed.

(** The queue after a release: without the released session, and without
    the head when it is let in. *)
Lemma released_queue (sess : N) (w : World) :
  let q1 := erase_before sess (m_QueuedSessions w) ++ erase_iter sess (m_QueuedSessions w) in
  m_QueuedSessions (released sess w) =
    if release_frees_capacity sess w && negb (bool_decide (q1 = []))
    then tail q1 else q1.
Proof.
  unfold released.
  destruct (release_frees_capacity sess w && _) eqn:Hp; simpl.
  - destruct (erase_before sess (m_QueuedSessions w) ++ erase_iter sess (m_QueuedSessions w));
      reflexivity.
  - reflexivity.
Qed.

Lemma released_sent (sess : N) (w : World) :
  let q := m_QueuedSessions w in
  let q1 := erase_before sess q ++ erase_iter sess q in
  sent (released sess w) = sent w ++
    if release_frees_capacity sess w && negb (bool_decide (q1 = []))
    then match q1 with
         | pop_sess :: rest => EvSendAuthWaitQue pop_sess 0 :: position_events rest 1
         | [] => []
         end
    else position_events (erase_iter sess q) (erase_position sess q).
Proof.
  unfold released.
  destruct (erase_found sess (m_QueuedSessions w));
    (destruct (release_frees_capacity sess w && _) eqn:Hp; simpl;
     [destruct (erase_before sess (m_QueuedSessions w) ++ erase_iter sess (m_QueuedSessions w));
      simpl; [by rewrite app_nil_r | reflexivity]
     | reflexivity]).
Qed.

Lemma erase_decompose (sess : N) (q : list N) :
  if bool_decide (sess ∈ q)
  then q = erase_before sess q ++ sess :: erase_iter sess q /\ (sess ∉ erase_before sess q) /\
       erase_position sess q = count_up (length (erase_before sess q)) 1
  else erase_before sess q = q /\ erase_iter sess q = [].
Proof.
  case_bool_decide as Hin.
  - apply list_elem_of_split_l in Hin as (l1 & l2 & -> & Hl1).
    by destruct (erase_present sess l1 l2 Hl1) as (_ & -> & -> & ->).
  - by destruct (erase_absent sess q Hin) as (_ & -> & -> & _).
Qed.

Lemma erase_rest_length (sess : N) (q : list N) :
  (length (erase_before sess q ++ erase_iter sess q) <= length q)%nat.
Proof.
  pose proof (erase_decompose sess q) as H. case_bool_decide.
  - destruct H as (Hq & _). rewrite Hq at 3. rewrite !length_app. simpl. lia.
  - destruct H as (-> & ->). rewrite app_nil_r. lia.
Qed.

Lemma erase_rest_NoDup (sess : N) (q : list N) :
  NoDup q -> NoDup (erase_before sess q ++ erase_iter sess q) /\
             sess ∉ erase_before sess q ++ erase_iter sess q.
Proof.
  intros Hnd. pose proof (erase_decompose sess q) as H. case_bool_decide.
  - destruct H as (Hq & Hb & _). rewrite Hq in Hnd.
    apply NoDup_app in Hnd as (Hnd1 & Hdisj & (Hs & Hnd2)%NoDup_cons).
    split.
    + apply NoDup_app. split; [done|]. split; [|done].
      intros x Hx Hx'. apply (Hdisj x Hx). by right.
    + rewrite elem_of_app. tauto.
  - destruct H as (-> & ->). by rewrite app_nil_r.
Qed.

(** C3: releasing a session whose queue holds live sessions returns whether
    it was queued; a queued session leaves the queue and is marked not
    queued; when the count the release leaves is under the limit (or there is
    no limit) and the queue is not empty, its head, and only its head, leaves
    the queue, is marked not queued and is sent position 0, and every session
    left is sent its position; otherwise every session behind the released one
    is sent its position; and every position sent is the 1-based place the
    session has in the queue that is left. *)
Theorem release_promotes_head_and_renumbers (sess : N) (w : World) :
  (forall x, x ∈ m_QueuedSessions w -> is_Some (objects w !! x)) ->
  Z.of_nat (length (m_QueuedSessions w)) < 2 ^ 32 - 1 ->
  exists w' before iter,
    RemoveQueuedSession sess w = Some (bool_decide (sess ∈ m_QueuedSessions w), w') /\
    m_sessions w' = m_sessions w /\
    (if bool_decide (sess ∈ m_QueuedSessions w)
     then m_QueuedSessions w = before ++ sess :: iter /\ (sess ∉ before) /\
          m_inQueue <$> objects w' !! sess = Some false
     else before = m_QueuedSessions w /\ iter = []) /\
    (if release_frees_capacity sess w && negb (bool_decide (before ++ iter = []))
     then exists pop_sess,
          before ++ iter = pop_sess :: m_QueuedSessions w' /\
          m_inQueue <$> objects w' !! pop_sess = Some false /\
          sent w' = sent w ++
            EvSendAuthWaitQue pop_sess 0 ::
            imap (fun i x => EvSendAuthWaitQue x (Z.of_nat i + 1)) (m_QueuedSessions w')
     else m_QueuedSessions w' = before ++ iter /\
          sent w' = sent w ++
            imap (fun i x => EvSendAuthWaitQue x (Z.of_nat (length before + i) + 1)) iter) /\
    (forall p position,
       EvSendAuthWaitQue p position ∈ drop (length (sent w)) (sent w') ->
       position <> 0 ->
       m_QueuedSessions w' !! Z.to_nat (position - 1) = Some p).
Proof.
  intros Hlive Hlen.
  exists (released sess w), (erase_before sess (m_QueuedSessions w)),
    (erase_iter sess (m_QueuedSessions w)).
  split; [by apply RemoveQueuedSession_run|].
  split; [apply released_sessions|].
  pose proof (erase_decompose sess (m_QueuedSessions w)) as Hdec.
  pose proof (erase_rest_length sess (m_QueuedSessions w)) as Hlen1.
  pose proof (released_queue sess w) as Hq. pose proof (released_sent sess w) as Hs.
  pose proof (erase_rest_subseteq sess (m_QueuedSessions w)) as Hsub.
  simpl in Hq, Hs.
  set (before := erase_before sess (m_QueuedSessions w)) in *.
  set (iter := erase_iter sess (m_QueuedSessions w)) in *.
  assert (Hsent_rest :
    position_events iter (erase_position sess (m_QueuedSessions w)) =
    imap (fun i x => EvSendAuthWaitQue x (Z.of_nat (length before + i) + 1)) iter).
  { destruct (bool_decide (sess ∈ m_QueuedSessions w)).
    - destruct Hdec as (Hdec & _ & Hpos). rewrite Hpos.
      assert (Hlb : (length before + S (length iter) = length (m_QueuedSessions w))%nat).
      { apply (f_equal length) in Hdec. rewrite length_app in Hdec. simpl in Hdec. lia. }
      rewrite count_up_small by lia. rewrite position_events_imap by lia.
      apply imap_ext. intros. f_equal. lia.
    - destruct Hdec as (_ & ->). done. }
  split; [|split].
  - destruct (bool_decide (sess ∈ m_QueuedSessions w)) eqn:Hin; [|done].
    apply bool_decide_eq_true in Hin.
    destruct Hdec as (Hdec & Hb & _). split; [done|]. split; [done|].
    destruct (Hlive _ Hin) as [s Hp].
    assert (Hf : erase_found sess (m_QueuedSessions w) = true).
    { rewrite erase_found_elem_of. by apply bool_decide_eq_true_2. }
    unfold released. rewrite Hf. fold before iter.
    destruct (release_frees_capacity sess w && _); [destruct (before ++ iter)|];
      simpl; rewrite ?lookup_alter; repeat case_decide; subst;
      rewrite ?lookup_alter, ?decide_True by done; rewrite ?Hp; done.
  - destruct (release_frees_capacity sess w && _) eqn:Hpromote.
    + destruct (before ++ iter) as [|pop_sess rest] eqn:Hq1.
      { by rewrite bool_decide_eq_true_2, andb_false_r in Hpromote. }
      exists pop_sess. simpl in Hq. rewrite Hq. split; [done|]. split.
      * assert (Hpop : pop_sess ∈ m_QueuedSessions w) by (apply Hsub; left).
        destruct (Hlive _ Hpop) as [s Hp].
        unfold released. fold before iter. rewrite Hq1, Hpromote.
        destruct (erase_found sess (m_QueuedSessions w)); simpl;
          rewrite ?lookup_alter; repeat case_decide; subst;
          rewrite ?lookup_alter, ?decide_True by done; rewrite ?Hp; done.
      * rewrite Hs. do 2 f_equal. simpl in Hlen1. rewrite position_events_imap by lia.
        apply imap_ext. intros. f_equal. lia.
    + split; [done|]. by rewrite Hs, Hsent_rest.
  - intros p position. rewrite Hs, drop_app_length, Hq.
    destruct (release_frees_capacity sess w && _) eqn:Hpromote.
    + destruct (before ++ iter) as [|pop_sess rest] eqn:Hq1; [by intros ?%elem_of_nil|].
      simpl in Hlen1. rewrite position_events_imap by lia.
      intros [[= -> ->] | Hin]%elem_of_cons Hne; [done|].
      apply elem_of_lookup_imap in Hin as (i & x & [= -> ->] & Hi). simpl.
      replace (Z.to_nat (1 + Z.of_nat i - 1)) with i by lia. done.
    + rewrite Hsent_rest.
      intros (i & x & [= -> ->] & Hi)%elem_of_lookup_imap _.
      replace (Z.to_nat (Z.of_nat (length before + i) + 1 - 1))
        with (length before + i)%nat by lia.
      rewrite lookup_app_r by lia.
      replace (length before + i - length before)%nat with i by lia. done.
Qed.

(** ** The position of a session in the queue *)

Lemma GetQueuedSessionPos_from_absent (sess : N) (iter : list N) (position : Z) :
  sess ∉ iter -> GetQueuedSessionPos_from sess iter position = 0.
Proof.
  revert position. induction iter as [|x iter IH]; intros position Hnot; [done|].
  apply not_elem_of_cons in Hnot as [Hne Hnot]. simpl.
  destruct (decide (x = sess)); [congruence|]. by apply IH.
Qed.

Lemma GetQueuedSessionPos_from_first (sess : N) (l1 l2 : list N) (position : Z) :
  sess ∉ l1 ->
  GetQueuedSessionPos_from sess (l1 ++ sess :: l2) position =
    i32 (count_up (length l1) position).
Proof.
  revert position. induction l1 as [|x l1 IH]; intros position Hnot.
  - simpl. by destruct (decide (sess = sess)).
  - apply not_elem_of_cons in Hnot as [Hne Hnot]. cbn [GetQueuedSessionPos_from app length].
    destruct (decide (x = sess)); [congruence|]. rewrite IH by done.
    by rewrite count_up_S.
Qed.

Lemma first_index_split (sess : N) (q : list N) (i : nat) :
  q !! i = Some sess -> (forall j, (j < i)%nat -> q !! j <> Some sess) ->
  q = take i q ++ sess :: drop (S i) q /\ (sess ∉ take i q) /\ length (take i q) = i.
Proof.
  intros Hi Hfirst. split; [|split].
  - by rewrite <- (take_drop_middle q i sess Hi) at 1.
  - intros (j & Hj)%list_elem_of_lookup. apply lookup_take_Some in Hj as [Hj Hlt].
    by apply (Hfirst j).
  - apply length_take_le. apply lookup_lt_Some in Hi. lia.
Qed.

(** Who is let in by a release is not in the queue that is left. *)
Lemma released_promoted_not_queued (sess pop_sess : N) (w : World) :
  NoDup (m_QueuedSessions w) ->
  Z.of_nat (length (m_QueuedSessions w)) < 2 ^ 32 - 1 ->
  EvSendAuthWaitQue pop_sess 0 ∈ drop (length (sent w)) (sent (released sess w)) ->
  pop_sess ∉ m_QueuedSessions (released sess w).
Proof.
  intros Hnd Hlen. rewrite released_sent, drop_app_length, released_queue. simpl.
  pose proof (erase_rest_length sess (m_QueuedSessions w)) as Hlen1.
  destruct (erase_rest_NoDup sess _ Hnd) as [Hnd1 _].
  destruct (release_frees_capacity sess w && _).
  - destruct (erase_before sess (m_QueuedSessions w) ++ erase_iter sess (m_QueuedSessions w))
      as [|p rest]; [by intros ?%elem_of_nil|].
    apply NoDup_cons in Hnd1 as [Hp _]. simpl in Hlen1.
    rewrite position_events_imap by lia.
    intros [[= ->] | Hin]%elem_of_cons; [done|].
    apply elem_of_lookup_imap in Hin as (i & x & [= _ ?] & _). lia.
  - pose proof (erase_decompose sess (m_QueuedSessions w)) as Hdec.
    destruct (bool_decide (sess ∈ m_QueuedSessions w)).
    + destruct Hdec as (Hdec & _ & ->).
      apply (f_equal length) in Hdec. rewrite length_app in Hdec. simpl in Hdec.
      rewrite count_up_small by lia. rewrite position_events_imap by lia.
      intros (i & x & [= _ ?] & _)%elem_of_lookup_imap. lia.
    + destruct Hdec as (_ & ->). by intros ?%elem_of_nil.
Qed.

Lemma filter_all {A} (P : A -> Prop) `{forall x, Decision (P x)} (l : list A) :
  (forall x, x ∈ l -> P x) -> filter P l = l.
Proof.
  induction l as [|x l IH]; intros Hall; [done|].
  rewrite filter_cons_True by (apply Hall, elem_of_cons; by left).
  rewrite IH; [done|]. intros y Hy. apply Hall, elem_of_cons. by right.
Qed.

(** What the first loop of [World::RemoveQueuedSession] leaves of a queue
    without duplicates: the queue without the released session. *)
Lemma erase_rest_filter (sess : N) (q : list N) :
  NoDup q ->
  erase_before sess q ++ erase_iter sess q = filter (fun x => x <> sess) q.
Proof.
  intros Hnd. pose proof (erase_decompose sess q) as Hdec.
  destruct (bool_decide (sess ∈ q)) eqn:Hin.
  - destruct Hdec as (Hq & Hbefore & _).
    set (before := erase_before sess q) in *. set (iter := erase_iter sess q) in *.
    rewrite Hq in Hnd |- *.
    apply NoDup_app in Hnd as (_ & Hdisj & Hnd). apply NoDup_cons in Hnd as [Hiter _].
    rewrite filter_app, filter_cons_False by (by intros H; apply H).
    rewrite !filter_all; [done| |]; intros x Hx ->; done.
  - destruct Hdec as [-> ->]. rewrite app_nil_r. apply bool_decide_eq_false in Hin.
    rewrite filter_all; [done|]. by intros x Hx ->.
Qed.

(** C10: for a session that is not in the queue the position is 0; for a
    session in the queue it is one more than the index of its first
    occurrence.  And 0 is also what a release sends to the session it lets
    in: a release runs to its end; whenever it frees capacity and the queue
    without the released session is not empty, it sends position 0 to the
    head of that queue and takes it out of the queue, and the position of
    that session in the queue that is left is 0 again, as for any session it
    sent 0 to. *)
Theorem queue_position_zero_or_index (sess : N) (w : World) :
  Z.of_nat (length (m_QueuedSessions w)) < 2 ^ 31 ->
  (sess ∉ m_QueuedSessions w -> GetQueuedSessionPos sess w = 0) /\
  (forall i, m_QueuedSessions w !! i = Some sess ->
     (forall j, (j < i)%nat -> m_QueuedSessions w !! j <> Some sess) ->
     GetQueuedSessionPos sess w = Z.of_nat i + 1) /\
  (NoDup (m_QueuedSessions w) ->
   (forall x, x ∈ m_QueuedSessions w -> is_Some (objects w !! x)) ->
   (forall gone found w' pop_sess,
      RemoveQueuedSession gone w = Some (found, w') ->
      EvSendAuthWaitQue pop_sess 0 ∈ drop (length (sent w)) (sent w') ->
      GetQueuedSessionPos pop_sess w' = 0) /\
   (forall gone, exists w',
      RemoveQueuedSession gone w = Some (bool_decide (gone ∈ m_QueuedSessions w), w') /\
      forall pop_sess rest,
        release_frees_capacity gone w = true ->
        filter (fun x => x <> gone) (m_QueuedSessions w) = pop_sess :: rest ->
        EvSendAuthWaitQue pop_sess 0 ∈ drop (length (sent w)) (sent w') /\
        m_QueuedSessions w' = rest /\
        GetQueuedSessionPos pop_sess w' = 0)).
Proof.
  intros Hlen. unfold GetQueuedSessionPos. split; [|split].
  - apply GetQueuedSessionPos_from_absent.
  - intros i Hi Hfirst.
    destruct (first_index_split sess _ i Hi Hfirst) as (Hq & Hnot & Hl).
    rewrite Hq, GetQueuedSessionPos_from_first by done. rewrite Hl.
    apply lookup_lt_Some in Hi.
    rewrite count_up_small by lia. rewrite i32_small by lia. lia.
  - intros Hnd Hlive.
    assert (Hzero : forall gone pop_sess,
      EvSendAuthWaitQue pop_sess 0 ∈ drop (length (sent w)) (sent (released gone w)) ->
      GetQueuedSessionPos_from pop_sess (m_QueuedSessions (released gone w)) 1 = 0).
    { intros gone pop_sess Hev. apply GetQueuedSessionPos_from_absent.
      apply released_promoted_not_queued; [done | lia | done]. }
    split.
    + intros gone found w' pop_sess Hrun Hev.
      rewrite RemoveQueuedSession_run in Hrun by done. injection Hrun as _ <-.
      by apply Hzero.
    + intros gone. exists (released gone w).
      split; [by apply RemoveQueuedSession_run|].
      intros pop_sess rest Hfree Hq. rewrite <- erase_rest_filter in Hq by done.
      assert (Hev : EvSendAuthWaitQue pop_sess 0
                      ∈ drop (length (sent w)) (sent (released gone w))).
      { pose proof (released_sent gone w) as Hsent. simpl in Hsent.
        rewrite Hsent, drop_app_length, Hfree, Hq. simpl.
        apply elem_of_cons. by left. }
      split; [done|]. split; [|by apply Hzero].
      pose proof (released_queue gone w) as Hqueue. simpl in Hqueue.
      by rewrite Hqueue, Hfree, Hq.
Qed.

(** ** The directory stays well formed *)

Lemma directory_ok_one_session (w : World) :
  directory_ok w -> one_session_per_account w.
Proof.
  intros [Hnull Hmap Hqueue Hnd].
  assert (Hfiled : forall p id, in_directory w p ->
            accountId <$> objects w !! p = Some id -> m_sessions w !! id = Some p).
  { intros p id [[id' Hp] | Hp] Hid.
    - apply Hmap in Hp as Hid'. congruence.
    - apply Hqueue in Hp as (id' & Hid' & Hp). congruence. }
  split.
  - intros p [[id Hp] | Hp].
    + apply Hmap in Hp. apply fmap_Some in Hp as (s & -> & _). eauto.
    + apply Hqueue in Hp as (id & Hp & _). apply fmap_Some in Hp as (s & -> & _). eauto.
  - intros p q id Hp Hq Hpid Hqid.
    pose proof (Hfiled p id Hp Hpid). pose proof (Hfiled q id Hq Hqid). congruence.
Qed.

(** A change that keeps the session map, the queue and the accounts of the
    objects keeps the directory well formed. *)
Lemma directory_ok_ext (w w' : World) :
  (forall p, accountId <$> objects w' !! p = accountId <$> objects w !! p) ->
  m_sessions w' = m_sessions w ->
  m_QueuedSessions w' = m_QueuedSessions w ->
  directory_ok w -> directory_ok w'.
Proof.
  intros Hobj Hmap Hq [Hnull Hsess Hqueue Hnd]. split.
  - by rewrite Hobj.
  - intros id p. rewrite Hmap, Hobj. apply Hsess.
  - intros p. rewrite Hq, Hmap. setoid_rewrite Hobj. apply Hqueue.
  - by rewrite Hq.
Qed.

Lemma directory_ok_sends (es : list Event) (w : World) :
  directory_ok w -> directory_ok (sends es w).
Proof. by apply directory_ok_ext. Qed.

Lemma directory_ok_queue_live (w : World) (p : N) :
  directory_ok w -> p ∈ m_QueuedSessions w -> is_Some (objects w !! p).
Proof.
  intros Hok Hp. apply (ok_queued _ Hok) in Hp as (id & Hid & _).
  apply fmap_Some in Hid as (s & -> & _). eauto.
Qed.

Lemma directory_ok_session_live (w : World) (id : Z) (p : N) :
  directory_ok w -> m_sessions w !! id = Some p ->
  p <> NULL /\ exists s, objects w !! p = Some s /\ accountId s = id.
Proof.
  intros Hok Hp. apply (ok_sessions _ Hok) in Hp.
  split.
  - intros ->. by rewrite (ok_null _ Hok) in Hp.
  - apply fmap_Some in Hp as (s & -> & ->). eauto.
Qed.

Lemma released_queue_subseteq (sess : N) (w : World) (x : N) :
  x ∈ m_QueuedSessions (released sess w) -> x ∈ m_QueuedSessions w.
Proof.
  rewrite released_queue. simpl. intros Hx.
  apply (erase_rest_subseteq sess).
  destruct (release_frees_capacity sess w && _); [|done].
  destruct (erase_before sess (m_QueuedSessions w) ++ erase_iter sess (m_QueuedSessions w));
    [done|]. by right.
Qed.

Lemma released_queue_NoDup (sess : N) (w : World) :
  NoDup (m_QueuedSessions w) ->
  NoDup (m_QueuedSessions (released sess w)) /\ sess ∉ m_QueuedSessions (released sess w).
Proof.
  intros [Hnd Hnot]%(erase_rest_NoDup sess). rewrite released_queue. simpl.
  destruct (release_frees_capacity sess w && _); [|done].
  destruct (erase_before sess (m_QueuedSessions w) ++ erase_iter sess (m_QueuedSessions w));
    [done|]. simpl. apply NoDup_cons in Hnd as [_ Hnd]. apply not_elem_of_cons in Hnot as [_ Hnot].
  done.
Qed.

Lemma directory_ok_released (sess : N) (w : World) :
  directory_ok w -> directory_ok (released sess w).
Proof.
  intros [Hnull Hsess Hqueue Hnd]. split.
  - by rewrite (proj1 (released_objects_identity sess w NULL)).
  - intros id p. rewrite released_sessions, (proj1 (released_objects_identity sess w p)).
    apply Hsess.
  - intros p Hp%released_queue_subseteq. rewrite released_sessions.
    setoid_rewrite (proj1 (released_objects_identity sess w p)). by apply Hqueue.
  - by apply released_queue_NoDup.
Qed.

(** A session that is in neither the map nor the queue is deleted. *)
Lemma directory_ok_delete (p : N) (w : World) :
  directory_ok w -> ~ in_directory w p ->
  directory_ok (set_objects (base.delete p) w).
Proof.
  intros [Hnull Hsess Hqueue Hnd] Hout. split; simpl.
  - rewrite lookup_delete. case_decide; [done|]. done.
  - intros id q Hq. rewrite lookup_delete_ne; [by apply Hsess|].
    intros <-. apply Hout. left. eauto.
  - intros q Hq. rewrite lookup_delete_ne; [by apply Hqueue|].
    intros <-. apply Hout. by right.
  - done.
Qed.

(** The session [s] of account [id] takes the place of the session filed
    under [id], if any, which is not queued. *)
Lemma directory_ok_insert (s : N) (id : Z) (w : World) :
  directory_ok w ->
  accountId <$> objects w !! s = Some id ->
  (forall old, m_sessions w !! id = Some old -> old ∉ m_QueuedSessions w) ->
  directory_ok (set_sessions <[id := s]> w).
Proof.
  intros [Hnull Hsess Hqueue Hnd] Hs Hold. split; simpl.
  - done.
  - intros id' p. rewrite lookup_insert. case_decide as Hid.
    + subst id'. by intros [= <-].
    + apply Hsess.
  - intros p Hp. destruct (Hqueue p Hp) as (id' & Hid' & Hfiled).
    exists id'. split; [done|]. rewrite lookup_insert_ne; [done|].
    intros <-. by apply (Hold p).
  - done.
Qed.

(** The session [s], filed in the map, joins the queue. *)
Lemma directory_ok_push (s : N) (w : World) :
  directory_ok w ->
  (exists id, accountId <$> objects w !! s = Some id /\ m_sessions w !! id = Some s) ->
  s ∉ m_QueuedSessions w ->
  directory_ok
    (set_QueuedSessions (m_QueuedSessions w ++ [s])
       (set_objects (alter (session_SetInQueue true) s) w)).
Proof.
  intros [Hnull Hsess Hqueue Hnd] (id & Hid & Hfiled) Hnot.
  assert (Hacc : forall p,
            accountId <$> alter (session_SetInQueue true) s (objects w) !! p
            = accountId <$> objects w !! p).
  { intros p. rewrite lookup_alter. case_decide; [subst|done].
    by destruct (objects w !! p). }
  split; simpl.
  - by rewrite Hacc.
  - intros id' p. rewrite Hacc. apply Hsess.
  - intros p. rewrite Hacc. intros [Hp | ->%list_elem_of_singleton]%elem_of_app; eauto.
  - apply NoDup_app. split; [done|]. split; [|apply NoDup_singleton].
    intros x Hx ->%list_elem_of_singleton. done.
Qed.

(** ** Admission *)

Section Admission.
Context {hdr : Header}.

Lemma GetAccountId_live (w : World) (p : N) (s : WorldSession) :
  objects w !! p = Some s -> GetAccountId p w = Some (accountId s, w).
Proof. intros H. unfold GetAccountId, bind. by rewrite (deref_live _ _ _ H). Qed.

Lemma GetSecurity_live (w : World) (p : N) (sec : Z) :
  security <$> objects w !! p = Some sec -> GetSecurity p w = Some (sec, w).
Proof.
  intros (s & H & ->)%fmap_Some. unfold GetSecurity, bind. by rewrite (deref_live _ _ _ H).
Qed.

Lemma PlayerLoading_live (w : World) (p : N) (b : bool) :
  m_playerLoading <$> objects w !! p = Some b -> PlayerLoading p w = Some (b, w).
Proof.
  intros (s & H & ->)%fmap_Some. unfold PlayerLoading, bind. by rewrite (deref_live _ _ _ H).
Qed.

Lemma RemoveSession_none (id : Z) (w : World) :
  m_sessions w !! id = None -> RemoveSession id w = Some (true, w).
Proof. intros H. unfold RemoveSession, bind, get. by rewrite H. Qed.

Lemma RemoveSession_loading (id : Z) (old : N) (w : World) :
  m_sessions w !! id = Some old -> old <> NULL ->
  m_playerLoading <$> objects w !! old = Some true ->
  RemoveSession id w = Some (false, w).
Proof.
  intros H Hnull Hl. unfold RemoveSession, bind, get. rewrite H.
  destruct (decide (old = NULL)); [done|]. by rewrite (PlayerLoading_live _ _ _ Hl).
Qed.

Lemma RemoveSession_kick (id : Z) (old : N) (w : World) :
  m_sessions w !! id = Some old -> old <> NULL ->
  m_playerLoading <$> objects w !! old = Some false ->
  RemoveSession id w = Some (true, sends [EvKickPlayer old] w).
Proof.
  intros H Hnull Hl. unfold RemoveSession, bind, get. rewrite H.
  destruct (decide (old = NULL)); [done|]. rewrite (PlayerLoading_live _ _ _ Hl).
  apply fmap_Some in Hl as (s & Hs & _).
  rewrite KickPlayer_live by eauto. done.
Qed.

Lemma AddQueuedSession_live (s : N) (w : World) :
  is_Some (objects w !! s) -> AddQueuedSession s w = Some (tt, queued_at_tail s w).
Proof.
  intros Hs. unfold AddQueuedSession, bind. rewrite SetInQueue_live by done.
  unfold modify, get. simpl.
  assert (Hs' : is_Some (alter (session_SetInQueue true) s (objects w) !! s)).
  { rewrite lookup_alter, decide_True by done. by apply fmap_is_Some. }
  destruct Hs' as [so' Hso'].
  unfold deref. simpl. rewrite Hso'. done.
Qed.

(** A new session of an account whose session is still loading is refused. *)
Lemma AddSession__refused (s old : N) (so : WorldSession) (w : World) :
  objects w !! s = Some so -> s <> NULL ->
  m_sessions w !! accountId so = Some old -> old <> NULL ->
  m_playerLoading <$> objects w !! old = Some true ->
  AddSession_ s w = Some (tt, refused s w).
Proof.
  intros Hs Hnull Hold Holdnull Hloading. unfold AddSession_, bind.
  destruct (decide (s = NULL)); [done|]. unfold ret at 1.
  rewrite (GetAccountId_live _ _ _ Hs).
  rewrite (RemoveSession_loading _ _ _ Hold Holdnull Hloading). simpl.
  rewrite KickPlayer_live by eauto.
  rewrite delete_session_live; [done | simpl; eauto | done].
Qed.

Lemma replaced_sessions (id : Z) (w : World) :
  m_sessions (replaced id w) = m_sessions w.
Proof.
  unfold replaced. destruct (m_sessions w !! id); [|done].
  simpl. by rewrite released_sessions.
Qed.

Lemma replaced_playerLimit (id : Z) (w : World) :
  m_playerLimit (replaced id w) = m_playerLimit w.
Proof.
  unfold replaced. destruct (m_sessions w !! id); [|done].
  simpl. by rewrite released_playerLimit.
Qed.

Lemma replaced_objects (id : Z) (w : World) (p : N) :
  m_sessions w !! id <> Some p ->
  accountId <$> objects (replaced id w) !! p = accountId <$> objects w !! p /\
  security <$> objects (replaced id w) !! p = security <$> objects w !! p /\
  m_playerLoading <$> objects (replaced id w) !! p = m_playerLoading <$> objects w !! p.
Proof.
  intros Hp. unfold replaced. destruct (m_sessions w !! id) as [old|]; [|done].
  simpl. rewrite lookup_delete_ne by congruence.
  apply (released_objects_identity old (sends [EvKickPlayer old] w) p).
Qed.

Lemma replaced_queue_subseteq (id : Z) (w : World) (x : N) :
  x ∈ m_QueuedSessions (replaced id w) -> x ∈ m_QueuedSessions w.
Proof.
  unfold replaced. destruct (m_sessions w !! id) as [old|]; [|done].
  simpl. by intros ?%released_queue_subseteq.
Qed.

Lemma replaced_old_gone (id : Z) (old : N) (w : World) :
  directory_ok w -> m_sessions w !! id = Some old ->
  objects (replaced id w) !! old = None /\ old ∉ m_QueuedSessions (replaced id w).
Proof.
  intros Hok Hold. unfold replaced. rewrite Hold. simpl. split.
  - apply lookup_delete_eq.
  - apply released_queue_NoDup. simpl. apply Hok.
Qed.

(** The new session takes its place in the map. *)
Lemma directory_ok_taken (s : N) (so : WorldSession) (w : World) :
  directory_ok w -> objects w !! s = Some so -> ~ in_directory w s ->
  directory_ok (set_sessions <[accountId so := s]> (replaced (accountId so) w)).
Proof.
  intros Hok Hs Hnew.
  assert (Hsid : accountId <$> objects w !! s = Some (accountId so)) by by rewrite Hs.
  destruct (m_sessions w !! accountId so) as [old|] eqn:Hold.
  2:{ unfold replaced. rewrite Hold. apply directory_ok_insert; [done..|].
      intros old. by rewrite Hold. }
  assert (Hso : s <> old). { intros ->. apply Hnew. left. eauto. }
  destruct (replaced_old_gone _ _ _ Hok Hold) as [Hgone Hnotq].
  pose proof (directory_ok_released old _ (directory_ok_sends [EvKickPlayer old] w Hok)) as Hok1.
  pose proof (replaced_sessions (accountId so) w) as Hmap.
  unfold replaced in *. rewrite Hold in *. simpl in *.
  destruct Hok1 as [Hnull1 Hsess1 Hqueue1 Hnd1].
  rewrite released_sessions in Hsess1, Hqueue1. simpl in Hsess1, Hqueue1.
  split; simpl.
  - rewrite lookup_delete. by case_decide.
  - intros id' p. rewrite released_sessions. simpl.
    rewrite lookup_insert. case_decide as Hid.
    + subst id'. intros [= <-]. rewrite lookup_delete_ne by done.
      by rewrite (proj1 (released_objects_identity old _ s)).
    + intros Hp. rewrite lookup_delete_ne; [by apply Hsess1|].
      intros <-. apply (ok_sessions _ Hok) in Hp, Hold. congruence.
  - intros p Hp. destruct (Hqueue1 p Hp) as (id' & Hid' & Hfiled).
    assert (Hpo : old <> p) by (by intros ->).
    exists id'. rewrite lookup_delete_ne by done. split; [done|].
    rewrite released_sessions. simpl. rewrite lookup_insert_ne; [done|].
    intros <-. congruence.
  - done.
Qed.

Lemma directory_ok_max_counted (w : World) : directory_ok w -> directory_ok (max_counted w).
Proof. by apply directory_ok_ext. Qed.

Lemma directory_ok_queued_at_tail (s : N) (w : World) :
  directory_ok w ->
  (exists id, accountId <$> objects w !! s = Some id /\ m_sessions w !! id = Some s) ->
  s ∉ m_QueuedSessions w ->
  directory_ok (queued_at_tail s w).
Proof. intros. unfold queued_at_tail. by apply directory_ok_sends, directory_ok_push. Qed.

Lemma directory_ok_joined (s : N) (so : WorldSession) (w : World) :
  directory_ok w -> objects w !! s = Some so -> ~ in_directory w s ->
  directory_ok (joined s (accountId so) (security so) w).
Proof.
  intros Hok Hs Hnew. pose proof (directory_ok_taken s so w Hok Hs Hnew) as Hok3.
  unfold joined. destruct (goes_to_queue _ _ w).
  - apply directory_ok_max_counted, directory_ok_queued_at_tail; [done|..].
    + exists (accountId so). simpl. rewrite lookup_insert_eq. split; [|done].
      destruct (replaced_objects (accountId so) w s) as (-> & _); [|by rewrite Hs].
      intros Hfiled. apply Hnew. left. eauto.
    + simpl. intros Hq%replaced_queue_subseteq. apply Hnew. by right.
  - destruct (0 <? u32 (GetPlayerAmountLimit w));
      [apply directory_ok_sends|]; by apply directory_ok_max_counted, directory_ok_sends.
Qed.

Lemma effective_session_count_spec (s : N) (id : Z) (w : World) :
  (if match m_sessions w !! id with
      | Some old => negb (bool_decide (old ∈ m_QueuedSessions w))
      | None => true
      end
   then u32 (u32 (Z.of_nat (size (<[id := s]> (m_sessions w)))) - 1)
   else u32 (Z.of_nat (size (<[id := s]> (m_sessions w)))))
  = effective_session_count id w.
Proof.
  unfold effective_session_count. destruct (m_sessions w !! id) as [old|] eqn:Hold.
  - rewrite map_size_insert_Some by eauto. by destruct (bool_decide _).
  - by rewrite map_size_insert_None.
Qed.

(** The end of [World::AddSession_], from the test of the limit on. *)
Lemma AddSession__tail (s : N) (sec : Z) (decrease_session : bool) (w3 : World) :
  security <$> objects w3 !! s = Some sec ->
  (let* sec := GetSecurity s in
   if (0 <? u32 (GetPlayerAmountLimit w3))
      && (u32 (GetPlayerAmountLimit w3) <=?
          (if decrease_session then u32 (GetActiveAndQueuedSessionCount w3 - 1)
           else GetActiveAndQueuedSessionCount w3))
      && (sec =? SEC_PLAYER)
   then AddQueuedSession s >> UpdateMaxSessionCounters
   else
     deref s >> emit (EvAuthOk s) >>
     UpdateMaxSessionCounters >>
     if 0 <? u32 (GetPlayerAmountLimit w3) then
       let* w := get in
       emit (EvPopulation (GetActiveSessionCount w) (u32 (GetPlayerAmountLimit w3)))
     else ret tt) w3
  = Some (tt,
      if (0 <? u32 (GetPlayerAmountLimit w3))
         && (u32 (GetPlayerAmountLimit w3) <=?
             (if decrease_session then u32 (GetActiveAndQueuedSessionCount w3 - 1)
              else GetActiveAndQueuedSessionCount w3))
         && (sec =? SEC_PLAYER)
      then max_counted (queued_at_tail s w3)
      else
        if 0 <? u32 (GetPlayerAmountLimit w3)
        then sends [EvPopulation (GetActiveSessionCount (max_counted (sends [EvAuthOk s] w3)))
                      (u32 (GetPlayerAmountLimit w3))]
               (max_counted (sends [EvAuthOk s] w3))
        else max_counted (sends [EvAuthOk s] w3)).
Proof.
  intros Hsec. unfold bind at 1. rewrite (GetSecurity_live _ _ _ Hsec).
  apply fmap_Some in Hsec as (so & Hso & _).
  destruct ((0 <? u32 (GetPlayerAmountLimit w3)) && _ && (sec =? SEC_PLAYER)).
  - unfold bind. rewrite AddQueuedSession_live by eauto. done.
  - unfold bind at 1. unfold bind at 1. rewrite (deref_live _ _ _ Hso).
    unfold emit, modify, UpdateMaxSessionCounters, bind, get, modify.
    destruct (0 <? u32 (GetPlayerAmountLimit w3)); done.
Qed.

(** A new session of an account that has no session, or one that is not
    loading, joins the directory. *)
Lemma AddSession__joined (s : N) (so : WorldSession) (w : World) :
  directory_ok w -> objects w !! s = Some so -> ~ in_directory w s ->
  (forall old, m_sessions w !! accountId so = Some old ->
     m_playerLoading <$> objects w !! old = Some false) ->
  AddSession_ s w = Some (tt, joined s (accountId so) (security so) w).
Proof.
  intros Hok Hs Hnew Hloaded.
  assert (Hsnull : s <> NULL).
  { intros ->. pose proof (ok_null _ Hok) as H. by rewrite Hs in H. }
  assert (Hsec3 : security <$>
            objects (set_sessions <[accountId so := s]> (replaced (accountId so) w)) !! s
            = Some (security so)).
  { simpl. destruct (replaced_objects (accountId so) w s) as (_ & -> & _); [|by rewrite Hs].
    intros Hfiled. apply Hnew. left. eauto. }
  assert (Hlimit3 : GetPlayerAmountLimit
            (set_sessions <[accountId so := s]> (replaced (accountId so) w))
            = GetPlayerAmountLimit w).
  { unfold GetPlayerAmountLimit. simpl. by rewrite replaced_playerLimit. }
  assert (Hcount3 : GetActiveAndQueuedSessionCount
            (set_sessions <[accountId so := s]> (replaced (accountId so) w))
            = u32 (Z.of_nat (size (<[accountId so := s]> (m_sessions w))))).
  { unfold GetActiveAndQueuedSessionCount. simpl. by rewrite replaced_sessions. }
  pose proof (effective_session_count_spec s (accountId so) w) as Heff.
  unfold joined, goes_to_queue. rewrite <- Heff, <- Hcount3, <- Hlimit3. clear Heff.
  unfold AddSession_. unfold bind at 1.
  destruct (decide (s = NULL)); [done|]. unfold ret at 1.
  unfold bind at 1. rewrite (GetAccountId_live _ _ _ Hs).
  unfold bind at 1.
  unfold replaced in *.
  destruct (m_sessions w !! accountId so) as [old|] eqn:Hold.
  - destruct (directory_ok_session_live _ _ _ Hok Hold) as (Holdnull & oo & Hoo & _).
    rewrite (RemoveSession_kick _ _ _ Hold Holdnull) by (by apply Hloaded).
    cbn [negb]. unfold bind at 1. unfold get at 1.
    cbn [m_sessions sends]. rewrite Hold.
    unfold bind at 1. unfold bind at 1.
    rewrite RemoveQueuedSession_run.
    2:{ intros x Hx. by apply (directory_ok_queue_live w). }
    unfold bind at 1. rewrite delete_session_live; [| |done].
    2:{ apply released_live. simpl. eauto. }
    unfold ret at 1. unfold bind at 1. unfold modify at 1.
    unfold bind at 1. unfold get at 1.
    apply (AddSession__tail s (security so) _ _ Hsec3).
  - rewrite (RemoveSession_none _ _ Hold).
    cbn [negb]. unfold bind at 1. unfold get at 1. rewrite Hold.
    unfold bind at 1. unfold ret at 1. unfold bind at 1. unfold modify at 1.
    unfold bind at 1. unfold get at 1.
    apply (AddSession__tail s (security so) true _ Hsec3).
Qed.

End Admission.

(** ** Every operation keeps the directory well formed *)

Section Reachable.
Context {hdr : Header}.

Lemma for_each_preserves {A} (P : World -> Prop) (f : A -> M unit) (l : list A) :
  (forall x w w', P w -> f x w = Some (tt, w') -> P w') ->
  forall w w', P w -> for_each f l w = Some (tt, w') -> P w'.
Proof.
  intros Hf. induction l as [|x l IH]; intros w w' HP; simpl.
  - by intros [= <-].
  - unfold bind. destruct (f x w) as [[[] w1]|] eqn:Hx; [|done].
    intros Hrun. apply (IH w1); [|done]. by apply (Hf x w).
Qed.

Lemma is_pending_spec (w : World) (s : N) :
  is_pending w s = true -> is_Some (objects w !! s) /\ ~ in_directory w s.
Proof.
  unfold is_pending. intros [[Hlive Hmap]%andb_prop Hq]%andb_prop.
  apply bool_decide_eq_true in Hlive, Hmap, Hq. split; [done|].
  intros [[id Hid] | Hin]; [|done].
  apply Hmap. apply elem_of_map_img. eauto.
Qed.

Lemma directory_ok_refused (s : N) (w : World) :
  directory_ok w -> ~ in_directory w s -> directory_ok (refused s w).
Proof. intros Hok Hnew. unfold refused. by apply directory_ok_delete; [apply directory_ok_sends|]. Qed.

Lemma directory_ok_new_WorldSession (s : N) (id sec : Z) (w w' : World) :
  directory_ok w -> new_WorldSession s id sec w = Some (tt, w') ->
  directory_ok w' /\ objects w' !! s = Some (mkSession id sec false false) /\
  ~ in_directory w' s.
Proof.
  intros Hok. unfold new_WorldSession. case_decide as Hfresh; [|done].
  destruct Hfresh as [Hnull Hfresh]. intros [= <-].
  assert (Hout : ~ in_directory w s).
  { intros Hin. apply directory_ok_one_session in Hok as [Hlive _].
    apply Hlive in Hin as [? Hin]. congruence. }
  split; [|split].
  - destruct Hok as [Hn Hsess Hqueue Hnd]. split; simpl.
    + by rewrite lookup_insert_ne.
    + intros id' p Hp. rewrite lookup_insert_ne; [by apply Hsess|].
      intros <-. apply Hout. left. eauto.
    + intros p Hp. rewrite lookup_insert_ne; [by apply Hqueue|].
      intros <-. apply Hout. by right.
    + done.
  - simpl. apply lookup_insert_eq.
  - done.
Qed.

(** [World::AddSession_] keeps the directory well formed, whether it refuses
    the new session or files it. *)
Lemma AddSession__cases (s : N) (so : WorldSession) (w : World) :
  directory_ok w -> objects w !! s = Some so -> ~ in_directory w s ->
  exists w', AddSession_ s w = Some (tt, w') /\ directory_ok w' /\
    (w' = refused s w \/ w' = joined s (accountId so) (security so) w).
Proof.
  intros Hok Hs Hnew.
  assert (Hsnull : s <> NULL).
  { intros ->. pose proof (ok_null _ Hok) as H. by rewrite Hs in H. }
  destruct (m_sessions w !! accountId so) as [old|] eqn:Hold.
  - destruct (directory_ok_session_live _ _ _ Hok Hold) as (Holdnull & oo & Hoo & _).
    destruct (m_playerLoading oo) eqn:Hloading.
    + exists (refused s w). split; [|split; [by apply directory_ok_refused | by left]].
      apply (AddSession__refused s old so); [done..|]. by rewrite Hoo, <- Hloading.
    + exists (joined s (accountId so) (security so) w).
      split; [|split; [by apply directory_ok_joined | by right]].
      apply AddSession__joined; [done..|].
      intros old' Hold'. rewrite Hold in Hold'. injection Hold' as <-.
      by rewrite Hoo, <- Hloading.
  - exists (joined s (accountId so) (security so) w).
    split; [|split; [by apply directory_ok_joined | by right]].
    apply AddSession__joined; [done..|]. intros old. by rewrite Hold.
Qed.

Lemma directory_ok_erase_dead_session (alive : N -> bool) (id : Z) (w w' : World) :
  directory_ok w -> erase_dead_session alive id w = Some (tt, w') -> directory_ok w'.
Proof.
  intros Hok. unfold erase_dead_session. unfold bind at 1. unfold get at 1.
  destruct (m_sessions w !! id) as [p|] eqn:Hp; [|by intros [= <-]].
  destruct (alive p); [by intros [= <-]|].
  destruct (directory_ok_session_live _ _ _ Hok Hp) as (Hpnull & so & Hso & Hid).
  unfold bind at 1. rewrite RemoveQueuedSession_run.
  2:{ intros x Hx. by apply (directory_ok_queue_live w). }
  unfold bind at 1. unfold modify at 1.
  rewrite delete_session_live; [| |done].
  2:{ simpl. apply released_live. eauto. }
  intros [= <-].
  pose proof (directory_ok_released p w Hok) as [Hnull1 Hsess1 Hqueue1 Hnd1].
  destruct (released_queue_NoDup p w (ok_nodup _ Hok)) as [_ Hgone].
  rewrite released_sessions in Hsess1, Hqueue1.
  split; simpl.
  - rewrite lookup_delete. by case_decide.
  - intros id' q. rewrite released_sessions, lookup_delete. case_decide; [done|].
    intros Hq. rewrite lookup_delete_ne; [by apply Hsess1|].
    intros <-. apply (ok_sessions _ Hok) in Hp, Hq. congruence.
  - intros q Hq. destruct (Hqueue1 q Hq) as (id' & Hid' & Hfiled).
    assert (Hqp : p <> q) by (by intros ->).
    exists id'. rewrite lookup_delete_ne by done. split; [done|].
    rewrite released_sessions, lookup_delete_ne; [done|]. intros <-. congruence.
  - done.
Qed.

Lemma KickPlayer_inv (p : N) (w w' : World) :
  KickPlayer p w = Some (tt, w') -> w' = sends [EvKickPlayer p] w.
Proof.
  unfold KickPlayer, bind. destruct (deref p w) as [[so w1]|] eqn:Hd; [|done].
  apply deref_inv in Hd as [_ ->]. by intros [= <-].
Qed.

(** The shutdown controller does not touch the directory. *)
Lemma shutdown_op_directory (op : ShutdownOp) (w w' : World) :
  shutdown_op op w = Some (tt, w') ->
  objects w' = objects w /\ m_sessions w' = m_sessions w /\
  m_QueuedSessions w' = m_QueuedSessions w.
Proof.
  destruct op; simpl.
  - unfold ShutdownServ, ShutdownMsg, bind, get, modify, emit, modify, ret.
    repeat (match goal with |- context [if ?b then _ else _] => destruct b end; simpl);
      by intros [= <-].
  - unfold ShutdownCancel, bind, get, modify, emit, modify, ret.
    repeat (match goal with |- context [if ?b then _ else _] => destruct b end; simpl);
      by intros [= <-].
  - unfold _UpdateGameTime, ShutdownMsg, bind, get, modify, emit, modify, ret.
    repeat (match goal with |- context [if ?b then _ else _] => destruct b end; simpl);
      by intros [= <-].
Qed.

Lemma directory_ok_world_op (op : WorldOp) (w w' : World) :
  directory_ok w -> world_op op w = Some (tt, w') -> directory_ok w'.
Proof.
  intros Hok. destruct op as [s id sec|s|alive| |limit needUpdate|p b|op]; simpl.
  - intros Hnew. by destruct (directory_ok_new_WorldSession _ _ _ _ _ Hok Hnew).
  - unfold bind, get. destruct (is_pending w s) eqn:Hpending; [|done].
    apply is_pending_spec in Hpending as ([so Hs] & Hout).
    destruct (AddSession__cases s _ w Hok Hs Hout) as (w2 & -> & Hok2 & _).
    by intros [= <-].
  - unfold UpdateSessions. simpl. unfold bind at 1. unfold ret at 1.
    unfold bind at 1. unfold get at 1.
    apply for_each_preserves; [|done]. intros id w1 w2. apply directory_ok_erase_dead_session.
  - unfold KickAll. unfold bind at 1. unfold modify at 1.
    unfold bind at 1. unfold get at 1.
    apply for_each_preserves.
    + intros id w1 w2 Hok1 ->%KickPlayer_inv. by apply directory_ok_sends.
    + destruct Hok as [Hnull Hsess Hqueue Hnd]. split; simpl; [done..| |apply NoDup_nil_2].
      by intros p ?%elem_of_nil.
  - unfold SetPlayerLimit, bind, get, modify, emit, modify, ret.
    destruct (_ || _ || _); intros [= <-]; by apply (directory_ok_ext w).
  - unfold SetPlayerLoading, bind.
    destruct (deref p w) as [[so w1]|] eqn:Hd; [|done].
    apply deref_inv in Hd as [Hp ->]. unfold modify. intros [= <-].
    apply (directory_ok_ext w); [|done..]. intros q. simpl.
    rewrite lookup_alter. case_decide; [subst|done]. by rewrite Hp.
  - intros (Hobj & Hmap & Hq)%shutdown_op_directory.
    apply (directory_ok_ext w); [|done..]. intros q. by rewrite Hobj.
Qed.

Lemma directory_ok_World_new (now : Z) : directory_ok (World_new now).
Proof.
  split; simpl; [done | | |apply NoDup_nil_2].
  - intros id p. by rewrite lookup_empty.
  - by intros p ?%elem_of_nil.
Qed.

Lemma reachable_directory_ok (w : World) : reachable w -> directory_ok w.
Proof.
  induction 1 as [now | w w' op _ IH Hop].
  - apply directory_ok_World_new.
  - by apply (directory_ok_world_op op w).
Qed.

Lemma reachable_for_each (ops : list WorldOp) (w w' : World) :
  reachable w -> for_each world_op ops w = Some (tt, w') -> reachable w'.
Proof.
  revert w. induction ops as [|op ops IH]; intros w Hw; simpl.
  - by intros [= <-].
  - unfold bind. destruct (world_op op w) as [[[] w1]|] eqn:Hop; [|done].
    apply IH. by apply (reachable_step w w1 op).
Qed.

End Reachable.

(** ** What admission leaves and sends *)

Section AdmissionFacts.
Context {hdr : Header}.

Lemma events_for_nil (p : N) (es : list Event) :
  (forall e, e ∈ es -> event_session e <> Some p) -> events_for p es = [].
Proof.
  unfold events_for. induction es as [|e es IH]; intros Hes; [done|].
  rewrite filter_cons_False by (apply Hes; left).
  apply IH. intros e' He'. apply Hes. by right.
Qed.

Lemma position_events_sessions (iter : list N) (position : Z) (e : Event) :
  e ∈ position_events iter position -> exists x, x ∈ iter /\ event_session e = Some x.
Proof.
  revert position. induction iter as [|x iter IH]; intros position; simpl.
  - by intros ?%elem_of_nil.
  - intros [-> | He]%elem_of_cons.
    + exists x. split; [left | done].
    + destruct (IH _ He) as (y & Hy & Hey). exists y. split; [by right | done].
Qed.

(** A release sends to sessions of the queue only. *)
Lemma released_events_sessions (sess : N) (w : World) (e : Event) :
  e ∈ drop (length (sent w)) (sent (released sess w)) ->
  exists x, x ∈ m_QueuedSessions w /\ event_session e = Some x.
Proof.
  rewrite released_sent, drop_app_length. simpl.
  pose proof (erase_rest_subseteq sess (m_QueuedSessions w)) as Hrest.
  pose proof (erase_iter_subseteq sess (m_QueuedSessions w)) as Hiter.
  destruct (release_frees_capacity sess w && _).
  - destruct (erase_before sess (m_QueuedSessions w) ++ erase_iter sess (m_QueuedSessions w))
      as [|p rest]; [by intros ?%elem_of_nil|].
    intros [-> | He]%elem_of_cons.
    + exists p. split; [apply Hrest; left | done].
    + apply position_events_sessions in He as (x & Hx & Hex).
      exists x. split; [apply Hrest; by right | done].
  - intros (x & Hx & Hex)%position_events_sessions. exists x. split; [by apply Hiter | done].
Qed.

Lemma released_sent_prefix (sess : N) (w : World) :
  sent (released sess w) = sent w ++ drop (length (sent w)) (sent (released sess w)).
Proof. rewrite released_sent at 1. by rewrite released_sent, drop_app_length. Qed.

(** What is sent while the old session of an account is replaced: its kick,
    then what its release sends. *)
Lemma replaced_sent (id : Z) (w : World) :
  sent (replaced id w) = sent w ++
    match m_sessions w !! id with
    | Some old =>
        EvKickPlayer old ::
        drop (length (sent (sends [EvKickPlayer old] w)))
             (sent (released old (sends [EvKickPlayer old] w)))
    | None => []
    end.
Proof.
  unfold replaced. destruct (m_sessions w !! id) as [old|]; [|by rewrite app_nil_r].
  simpl. rewrite released_sent_prefix at 1. simpl. by rewrite <- app_assoc.
Qed.

Lemma replaced_events_for (s : N) (id : Z) (w : World) :
  ~ in_directory w s ->
  events_for s (drop (length (sent w)) (sent (replaced id w))) = [].
Proof.
  intros Hnew. rewrite replaced_sent, drop_app_length. apply events_for_nil.
  destruct (m_sessions w !! id) as [old|] eqn:Hold; [|by intros e ?%elem_of_nil].
  intros e [-> | He]%elem_of_cons; simpl.
  - intros [= ->]. apply Hnew. left. eauto.
  - apply released_events_sessions in He as (x & Hx & ->). simpl in Hx.
    intros [= ->]. apply Hnew. by right.
Qed.

Lemma joined_sessions (s : N) (id sec : Z) (w : World) :
  m_sessions (joined s id sec w) = <[id := s]> (m_sessions w).
Proof.
  unfold joined.
  destruct (goes_to_queue id sec w); [|destruct (0 <? _)]; simpl; by rewrite replaced_sessions.
Qed.

Lemma joined_queue (s : N) (id sec : Z) (w : World) :
  m_QueuedSessions (joined s id sec w) =
    m_QueuedSessions (replaced id w) ++ (if goes_to_queue id sec w then [s] else []).
Proof.
  unfold joined.
  destruct (goes_to_queue id sec w); [|destruct (0 <? _)]; simpl; by rewrite ?app_nil_r.
Qed.

Lemma joined_objects (s : N) (id sec : Z) (w : World) :
  objects (joined s id sec w) =
    if goes_to_queue id sec w
    then alter (session_SetInQueue true) s (objects (replaced id w))
    else objects (replaced id w).
Proof.
  unfold joined. by destruct (goes_to_queue id sec w); [|destruct (0 <? _)].
Qed.

Lemma joined_sent (s : N) (id sec : Z) (w : World) :
  exists position population,
    sent (joined s id sec w) = sent (replaced id w) ++
      (if goes_to_queue id sec w then [EvAuthWaitQueue s position]
       else EvAuthOk s :: population) /\
    position = u32 (GetQueuedSessionPos_from s (m_QueuedSessions (replaced id w) ++ [s]) 1) /\
    events_for s population = [].
Proof.
  unfold joined. destruct (goes_to_queue id sec w).
  - eexists _, []. simpl. split; [reflexivity|]. split; [reflexivity|done].
  - destruct (0 <? _); simpl.
    + eexists _, [_]. rewrite <- app_assoc. simpl. split; [reflexivity|].
      split; [reflexivity|done].
    + eexists _, []. split; [reflexivity|]. split; [reflexivity|done].
Qed.

(** The object of a new session is as it was once the old one is replaced. *)
Lemma replaced_new_object (s : N) (id : Z) (w : World) :
  ~ in_directory w s -> objects (replaced id w) !! s = objects w !! s.
Proof.
  intros Hnew. unfold replaced. destruct (m_sessions w !! id) as [old|] eqn:Hold; [|done].
  simpl. rewrite lookup_delete_ne by (intros ->; apply Hnew; left; eauto).
  unfold released.
  assert (Hq : forall x, x ∈ erase_before old (m_QueuedSessions w)
                             ++ erase_iter old (m_QueuedSessions w) -> x <> s).
  { intros x Hx%erase_rest_subseteq ->. apply Hnew. by right. }
  assert (Hos : old <> s) by (intros ->; apply Hnew; left; eauto).
  simpl. destruct (erase_found old (m_QueuedSessions w));
    destruct (release_frees_capacity _ _ && _);
    try (destruct (erase_before old (m_QueuedSessions w) ++ erase_iter old (m_QueuedSessions w))
           as [|p rest] eqn:Hq1);
    simpl; rewrite ?lookup_alter_ne; try done.
  all: apply Hq; left.
Qed.

End AdmissionFacts.

(** ** The claims on admission *)

Section AdmissionClaims.
Context {hdr : Header}.

Lemma replaced_queue_length (id : Z) (w : World) :
  (length (m_QueuedSessions (replaced id w)) <= length (m_QueuedSessions w))%nat.
Proof.
  unfold replaced. destruct (m_sessions w !! id) as [old|]; [|done]. simpl.
  rewrite released_queue. simpl.
  pose proof (erase_rest_length old (m_QueuedSessions w)) as Hlen.
  destruct (release_frees_capacity _ _ && _); [|done].
  destruct (erase_before old (m_QueuedSessions w) ++ erase_iter old (m_QueuedSessions w));
    simpl in *; lia.
Qed.

(** C1: in every reachable world the sessions of the directory, in the map
    or in the queue, are live and no two of them have the same account; and a
    new session of an account whose session is not loading is admitted after
    that session is kicked, deleted and taken out of the map and the queue. *)
Theorem one_session_per_account_reachable (w : World) :
  reachable w ->
  one_session_per_account w /\
  (forall s so old,
     objects w !! s = Some so -> ~ in_directory w s ->
     m_sessions w !! accountId so = Some old ->
     m_playerLoading <$> objects w !! old = Some false ->
     exists w', AddSession_ s w = Some (tt, w') /\
       EvKickPlayer old ∈ drop (length (sent w)) (sent w') /\
       objects w' !! old = None /\ ~ in_directory w' old /\
       m_sessions w' !! accountId so = Some s /\
       one_session_per_account w').
Proof.
  intros Hok%reachable_directory_ok. split; [by apply directory_ok_one_session|].
  intros s so old Hs Hnew Hold Hloaded.
  assert (Hso : s <> old) by (intros ->; apply Hnew; left; eauto).
  destruct (replaced_old_gone _ _ _ Hok Hold) as [Hgone Hnotq].
  exists (joined s (accountId so) (security so) w).
  split.
  { apply AddSession__joined; [done..|]. intros old'. rewrite Hold. by intros [= <-]. }
  split; [|split; [|split; [|split]]].
  - destruct (joined_sent s (accountId so) (security so) w) as (pos & pop & -> & _).
    rewrite replaced_sent, Hold, <- app_assoc, drop_app_length. left.
  - rewrite joined_objects. destruct (goes_to_queue _ _ w); [|done].
    by rewrite lookup_alter_ne.
  - intros [[id' Hfiled] | Hq].
    + rewrite joined_sessions, lookup_insert in Hfiled. case_decide; [congruence|].
      apply (ok_sessions _ Hok) in Hfiled, Hold. congruence.
    + rewrite joined_queue in Hq. apply elem_of_app in Hq as [Hq | Hq]; [done|].
      destruct (goes_to_queue _ _ w); [|by apply elem_of_nil in Hq].
      apply list_elem_of_singleton in Hq. congruence.
  - rewrite joined_sessions. apply lookup_insert_eq.
  - by apply directory_ok_one_session, directory_ok_joined.
Qed.

(** A new session that is not refused is filed under its account and goes to
    the tail of the queue, marked queued and told its position there, exactly
    when the test of [World::AddSession_] on the limit, the count of sessions
    and the tier holds; otherwise it is not queued and is sent the admitted
    response. *)
Lemma AddSession__by_effective_count (s : N) (so : WorldSession) (w : World) :
  directory_ok w ->
  objects w !! s = Some so -> ~ in_directory w s ->
  (forall old, m_sessions w !! accountId so = Some old ->
     m_playerLoading <$> objects w !! old = Some false) ->
  Z.of_nat (length (m_QueuedSessions w)) < 2 ^ 31 - 1 ->
  exists w', AddSession_ s w = Some (tt, w') /\
    m_sessions w' !! accountId so = Some s /\
    if (0 <? u32 (GetPlayerAmountLimit w))
       && (u32 (GetPlayerAmountLimit w) <=? effective_session_count (accountId so) w)
       && (security so =? SEC_PLAYER)
    then
      (exists q, m_QueuedSessions w' = q ++ [s] /\ s ∉ q) /\
      (m_sessions w !! accountId so = None ->
       m_QueuedSessions w' = m_QueuedSessions w ++ [s]) /\
      m_inQueue <$> objects w' !! s = Some true /\
      events_for s (drop (length (sent w)) (sent w')) =
        [EvAuthWaitQueue s (Z.of_nat (length (m_QueuedSessions w')))]
    else
      (s ∉ m_QueuedSessions w') /\
      m_inQueue <$> objects w' !! s = Some (m_inQueue so) /\
      events_for s (drop (length (sent w)) (sent w')) = [EvAuthOk s].
Proof.
  intros Hok Hs Hnew Hloaded Hlen.
  exists (joined s (accountId so) (security so) w).
  split; [by apply AddSession__joined|].
  split; [rewrite joined_sessions; apply lookup_insert_eq|].
  change ((0 <? u32 (GetPlayerAmountLimit w))
          && (u32 (GetPlayerAmountLimit w) <=? effective_session_count (accountId so) w)
          && (security so =? SEC_PLAYER))
    with (goes_to_queue (accountId so) (security so) w).
  assert (Hq3 : s ∉ m_QueuedSessions (replaced (accountId so) w)).
  { intros Hq%replaced_queue_subseteq. apply Hnew. by right. }
  pose proof (replaced_queue_length (accountId so) w) as Hlen3.
  pose proof (replaced_events_for s (accountId so) w Hnew) as Hquiet.
  destruct (joined_sent s (accountId so) (security so) w) as (pos & pop & Hsent & Hpos & Hpop).
  assert (Hnews : drop (length (sent w)) (sent (joined s (accountId so) (security so) w))
            = drop (length (sent w)) (sent (replaced (accountId so) w))
              ++ (if goes_to_queue (accountId so) (security so) w
                  then [EvAuthWaitQueue s pos] else EvAuthOk s :: pop)).
  { rewrite Hsent. rewrite (replaced_sent (accountId so) w) at 1.
    rewrite <- app_assoc, drop_app_length.
    by rewrite (replaced_sent (accountId so) w), drop_app_length. }
  rewrite Hnews, joined_objects, joined_queue. unfold events_for in *.
  rewrite filter_app, Hquiet. simpl.
  destruct (goes_to_queue (accountId so) (security so) w).
  - split; [eauto|]. split; [|split].
    + intros Hnone. unfold replaced. by rewrite Hnone.
    + rewrite lookup_alter_eq, replaced_new_object, Hs by done. done.
    + rewrite filter_cons_True by done. rewrite filter_nil. f_equal. f_equal.
      rewrite Hpos, GetQueuedSessionPos_from_first by done.
      rewrite count_up_small by lia. rewrite i32_small by lia.
      rewrite u32_small by lia. rewrite length_app. simpl. lia.
  - rewrite app_nil_r. split; [done|]. split.
    + by rewrite replaced_new_object, Hs.
    + rewrite filter_cons_True by done. by rewrite Hpop.
Qed.

(** The count of [World::AddSession_] and the count of the specification:
    the sessions of the other accounts, and one more when the session that
    is replaced was in the queue. *)
Lemma effective_session_count_others (id : Z) (w : World) :
  effective_session_count id w =
    u32 (count_excluding_candidate id w + (if replaces_queued id w then 1 else 0)).
Proof.
  unfold effective_session_count, count_excluding_candidate, replaces_queued, u32.
  destruct (m_sessions w !! id) as [old|] eqn:Hold.
  - pose proof (map_size_ne_0_lookup_2 (m_sessions w) id (mk_is_Some _ _ Hold)) as Hpos.
    rewrite map_size_delete_Some by eauto.
    destruct (bool_decide (old ∈ m_QueuedSessions w)).
    + f_equal. lia.
    + rewrite Zminus_mod_idemp_l. f_equal. lia.
  - rewrite map_size_delete_None by done.
    rewrite Zminus_mod_idemp_l. f_equal. lia.
Qed.

(** C2, as the code has it: a new session that is not refused is filed under
    its account and goes to the tail of the queue, marked queued and told its
    position there, exactly when the limit is positive, the effective count of
    sessions has reached it and the session is of the plain-player tier;
    otherwise it is not queued and is sent the admitted response.  The
    effective count, a [uint32], excludes the candidate: it is the number of
    sessions, active or queued, of the other accounts, and one more when the
    session that the candidate replaces was in the queue. *)
Theorem admitted_or_queued_by_capacity (s : N) (so : WorldSession) (w : World) :
  directory_ok w ->
  objects w !! s = Some so -> ~ in_directory w s ->
  (forall old, m_sessions w !! accountId so = Some old ->
     m_playerLoading <$> objects w !! old = Some false) ->
  Z.of_nat (length (m_QueuedSessions w)) < 2 ^ 31 - 1 ->
  exists w', AddSession_ s w = Some (tt, w') /\
    m_sessions w' !! accountId so = Some s /\
    if (0 <? u32 (GetPlayerAmountLimit w))
       && (u32 (GetPlayerAmountLimit w) <=?
             u32 (count_excluding_candidate (accountId so) w
                  + (if replaces_queued (accountId so) w then 1 else 0)))
       && (security so =? SEC_PLAYER)
    then
      (exists q, m_QueuedSessions w' = q ++ [s] /\ s ∉ q) /\
      (m_sessions w !! accountId so = None ->
       m_QueuedSessions w' = m_QueuedSessions w ++ [s]) /\
      m_inQueue <$> objects w' !! s = Some true /\
      events_for s (drop (length (sent w)) (sent w')) =
        [EvAuthWaitQueue s (Z.of_nat (length (m_QueuedSessions w')))]
    else
      (s ∉ m_QueuedSessions w') /\
      m_inQueue <$> objects w' !! s = Some (m_inQueue so) /\
      events_for s (drop (length (sent w)) (sent w')) = [EvAuthOk s].
Proof.
  intros Hok Hs Hnew Hloaded Hlen.
  destruct (AddSession__by_effective_count s so w Hok Hs Hnew Hloaded Hlen)
    as (w' & Hrun & Hfiled & Hcase).
  rewrite effective_session_count_others in Hcase. eauto.
Qed.

(** C4: while the session of an account is loading, a request to remove it
    answers false and changes nothing, and a new session of the same account
    is kicked and deleted: the map and the queue are as they were, and the new
    session is sent neither the admitted nor the queued response. *)
Theorem loading_session_kept_newcomer_refused
    (w : World) (id : Z) (old : N) (oo : WorldSession) :
  m_sessions w !! id = Some old -> old <> NULL ->
  objects w !! old = Some oo -> m_playerLoading oo = true ->
  RemoveSession id w = Some (false, w) /\
  (forall s so,
     objects w !! s = Some so -> accountId so = id -> s <> NULL -> s <> old ->
     exists w', AddSession_ s w = Some (tt, w') /\
       m_sessions w' = m_sessions w /\ m_QueuedSessions w' = m_QueuedSessions w /\
       objects w' !! s = None /\ objects w' !! old = Some oo /\
       sent w' = sent w ++ [EvKickPlayer s]).
Proof.
  intros Hold Hnull Hoo Hloading.
  assert (Hl : m_playerLoading <$> objects w !! old = Some true) by (by rewrite Hoo, <- Hloading).
  split; [by apply (RemoveSession_loading id old)|].
  intros s so Hs Hid Hsnull Hso. exists (refused s w). split.
  - apply (AddSession__refused s old so); [done | done | by rewrite Hid | done | done].
  - unfold refused. simpl. rewrite lookup_delete_eq, lookup_delete_ne by done. done.
Qed.

End AdmissionClaims.

(** ** Worked examples of admission and release *)

Lemma world_after_reachable {hdr : Header} (ops : list WorldOp) :
  for_each world_op ops (World_new 5000) <> None -> reachable (world_after ops).
Proof.
  intros Hrun. unfold world_after.
  destruct (for_each world_op ops (World_new 5000)) as [[[] w]|] eqn:Hops; [|done].
  apply (reachable_for_each ops (World_new 5000)); [apply reachable_new | done].
Qed.

(** C1, when the account 10 connects again (session 2): its session 1 is
    kicked and deleted, and session 2 is filed in its place. *)
Lemma one_session_per_account_reachable_witness :
  one_session_per_account (world_after (hdr := example_header) same_account_again) /\
  exists w',
    AddSession_ (hdr := example_header) 2 (world_after (hdr := example_header) same_account_again)
      = Some (tt, w') /\
    objects w' !! 1%N = None /\ m_sessions w' !! 10 = Some 2%N /\
    one_session_per_account w'.
Proof.
  destruct (one_session_per_account_reachable (hdr := example_header)
              (world_after (hdr := example_header) same_account_again))
    as [Hone Hagain].
  { apply world_after_reachable. vm_compute. discriminate. }
  split; [exact Hone|].
  destruct (Hagain 2%N (mkSession 10 0 false false) 1%N) as (w' & Hrun & _ & Hgone & _ & Hfiled & Hone').
  - vm_compute. reflexivity.
  - apply (is_pending_spec (world_after (hdr := example_header) same_account_again) 2).
    vm_compute. reflexivity.
  - vm_compute. reflexivity.
  - vm_compute. reflexivity.
  - exists w'. split; [exact Hrun|]. split; [exact Hgone|]. split; [exact Hfiled | exact Hone'].
Defined.

(** C2, scenario A: with capacity 2 and the sessions of the accounts 10 and
    20 admitted, the session of account 30 goes to the queue, at position 1.
    And when the capacity is then raised to 3 and account 30 connects again,
    the queued session it replaces still counts: the new session is queued. *)
Lemma admitted_or_queued_by_capacity_witness :
  sent (world_after (hdr := example_header) two_admitted)
    = [EvAuthOk 1; EvPopulation 1 2; EvAuthOk 2; EvPopulation 2 2] /\
  (exists w',
     AddSession_ (hdr := example_header) 3 (world_after (hdr := example_header) two_admitted)
       = Some (tt, w') /\
     m_sessions w' !! 30 = Some 3%N /\
     m_QueuedSessions w' = [3%N] /\
     events_for 3
       (drop (length (sent (world_after (hdr := example_header) two_admitted))) (sent w'))
       = [EvAuthWaitQueue 3 1]) /\
  (exists w',
     AddSession_ (hdr := example_header) 4 (world_after (hdr := example_header) raised_limit)
       = Some (tt, w') /\
     m_sessions w' !! 30 = Some 4%N /\
     (exists q, m_QueuedSessions w' = q ++ [4%N]) /\
     m_inQueue <$> objects w' !! 4%N = Some true).
Proof.
  split; [vm_compute; reflexivity|]. split.
  - destruct (admitted_or_queued_by_capacity (hdr := example_header) 3%N
                (mkSession 30 0 false false)
                (world_after (hdr := example_header) two_admitted))
      as (w' & Hrun & Hfiled & Hqueued).
    + apply (reachable_directory_ok (hdr := example_header)), world_after_reachable.
      vm_compute. discriminate.
    + vm_compute. reflexivity.
    + apply (is_pending_spec (world_after (hdr := example_header) two_admitted) 3).
      vm_compute. reflexivity.
    + intros old Hold. vm_compute in Hold. discriminate.
    + vm_compute. reflexivity.
    + exists w'. split; [exact Hrun|]. split; [exact Hfiled|].
      assert (Hcond :
        (0 <? u32 (GetPlayerAmountLimit (world_after (hdr := example_header) two_admitted)))
        && (u32 (GetPlayerAmountLimit (world_after (hdr := example_header) two_admitted))
            <=? u32 (count_excluding_candidate (accountId (mkSession 30 0 false false))
                       (world_after (hdr := example_header) two_admitted)
                     + (if replaces_queued (accountId (mkSession 30 0 false false))
                             (world_after (hdr := example_header) two_admitted)
                        then 1 else 0)))
        && (security (mkSession 30 0 false false) =? SEC_PLAYER (Header := example_header))
        = true) by (vm_compute; reflexivity).
      rewrite Hcond in Hqueued.
      destruct Hqueued as (_ & Htail & _ & Hev).
      assert (Hq : m_QueuedSessions w' = [3%N]) by (apply Htail; vm_compute; reflexivity).
      split; [exact Hq|]. rewrite Hev, Hq. reflexivity.
  - destruct (admitted_or_queued_by_capacity (hdr := example_header) 4%N
                (mkSession 30 0 false false)
                (world_after (hdr := example_header) raised_limit))
      as (w' & Hrun & Hfiled & Hqueued).
    + apply (reachable_directory_ok (hdr := example_header)), world_after_reachable.
      vm_compute. discriminate.
    + vm_compute. reflexivity.
    + apply (is_pending_spec (world_after (hdr := example_header) raised_limit) 4).
      vm_compute. reflexivity.
    + intros old Hold.
      assert (Hthree : m_sessions (world_after (hdr := example_header) raised_limit) !! 30
                = Some 3%N) by (vm_compute; reflexivity).
      change (accountId (mkSession 30 0 false false)) with 30 in Hold.
      rewrite Hthree in Hold. injection Hold as <-. vm_compute. reflexivity.
    + vm_compute. reflexivity.
    + exists w'. split; [exact Hrun|]. split; [exact Hfiled|].
      assert (Hcond :
        (0 <? u32 (GetPlayerAmountLimit (world_after (hdr := example_header) raised_limit)))
        && (u32 (GetPlayerAmountLimit (world_after (hdr := example_header) raised_limit))
            <=? u32 (count_excluding_candidate (accountId (mkSession 30 0 false false))
                       (world_after (hdr := example_header) raised_limit)
                     + (if replaces_queued (accountId (mkSession 30 0 false false))
                             (world_after (hdr := example_header) raised_limit)
                        then 1 else 0)))
        && (security (mkSession 30 0 false false) =? SEC_PLAYER (Header := example_header))
        = true) by (vm_compute; reflexivity).
      rewrite Hcond in Hqueued.
      destruct Hqueued as ((q & Hq & _) & _ & Hin & _).
      split; [by exists q | exact Hin].
Defined.

(** C2, as the specification words it, fails: the capacity is 3 and the
    sessions of two other accounts are there, so that the count that excludes
    the candidate and the queued session it replaces is 2 and below the
    capacity; yet the new session of account 30 is queued and told position
    1, and is not sent the admitted response. *)
Lemma reconnecting_queued_session_is_counted :
  objects (world_after (hdr := example_header) raised_limit) !! 4%N
    = Some (mkSession 30 0 false false) /\
  m_sessions (world_after (hdr := example_header) raised_limit) !! 30 = Some 3%N /\
  m_QueuedSessions (world_after (hdr := example_header) raised_limit) = [3%N] /\
  u32 (GetPlayerAmountLimit (world_after (hdr := example_header) raised_limit)) = 3 /\
  count_excluding_candidate 30 (world_after (hdr := example_header) raised_limit) = 2 /\
  exists w',
    AddSession_ (hdr := example_header) 4 (world_after (hdr := example_header) raised_limit)
      = Some (tt, w') /\
    m_QueuedSessions w' = [4%N] /\
    m_inQueue <$> objects w' !! 4%N = Some true /\
    drop (length (sent (world_after (hdr := example_header) raised_limit))) (sent w')
      = [EvKickPlayer 3; EvAuthWaitQueue 4 1] /\
    ~ (4%N ∈ m_QueuedSessions w' <->
       0 < u32 (GetPlayerAmountLimit (world_after (hdr := example_header) raised_limit)) /\
       u32 (GetPlayerAmountLimit (world_after (hdr := example_header) raised_limit))
         <= count_excluding_candidate 30 (world_after (hdr := example_header) raised_limit) /\
       security (mkSession 30 0 false false) = SEC_PLAYER (Header := example_header)).
Proof.
  do 5 (split; [vm_compute; reflexivity|]).
  eexists. split; [vm_compute; reflexivity|].
  do 3 (split; [reflexivity|]).
  intros [Hqueued _].
  destruct Hqueued as (_ & Hle & _); [apply list_elem_of_singleton; reflexivity|].
  vm_compute in Hle. by apply Hle.
Qed.

(** C3, on the full world when the active session 1 goes: the head of the
    queue, session 3, is let in with position 0, and session 4 is told that
    it is first now. *)
Lemma release_promotes_head_and_renumbers_witness :
  exists w',
    RemoveQueuedSession 1 full_world = Some (false, w') /\
    m_QueuedSessions w' = [4%N] /\
    sent w' = [EvSendAuthWaitQue 3 0; EvSendAuthWaitQue 4 1].
Proof.
  destruct (release_promotes_head_and_renumbers 1%N full_world)
    as (w' & before & iter & Hrun & _ & Hleft & Hpromote & _).
  - intros x Hx. apply elem_of_cons in Hx as [-> | Hx]; [by eexists|].
    apply elem_of_cons in Hx as [-> | Hx]; [by eexists|]. by apply elem_of_nil in Hx.
  - vm_compute. reflexivity.
  - change (bool_decide (1%N ∈ m_QueuedSessions full_world)) with false in Hrun, Hleft.
    destruct Hleft as [-> ->].
    change (release_frees_capacity 1 full_world
            && negb (bool_decide (m_QueuedSessions full_world ++ [] = []))) with true in Hpromote.
    destruct Hpromote as (pop_sess & Hq & _ & Hsent).
    injection Hq as <- Hq. exists w'. split; [exact Hrun|]. split; [by rewrite <- Hq|].
    rewrite Hsent, <- Hq. reflexivity.
Defined.

(** C4, on the world where session 1 of account 10 is loading: the request
    to remove it answers false, and the new session 2 of the account is
    kicked and deleted. *)
Lemma loading_session_kept_newcomer_refused_witness :
  RemoveSession 10 loading_world = Some (false, loading_world) /\
  exists w',
    AddSession_ (hdr := example_header) 2 loading_world = Some (tt, w') /\
    m_sessions w' = m_sessions loading_world /\
    objects w' !! 2%N = None /\ sent w' = [EvKickPlayer 2].
Proof.
  destruct (loading_session_kept_newcomer_refused (hdr := example_header)
              loading_world 10 1%N (mkSession 10 0 false true))
    as [Hkept Hrefused]; [vm_compute; reflexivity | discriminate | vm_compute; reflexivity
                         | reflexivity |].
  split; [exact Hkept|].
  destruct (Hrefused 2%N (mkSession 10 0 false false))
    as (w' & Hrun & Hmap & _ & Hgone & _ & Hsent);
    [vm_compute; reflexivity | reflexivity | discriminate | discriminate |].
  exists w'. split; [exact Hrun|]. split; [exact Hmap|]. split; [exact Hgone | exact Hsent].
Defined.

(** C10, on the full world: session 4 is second in the queue, and session 1,
    which is not queued, has position 0.  When session 1 goes, session 3 is
    let in and sent position 0, and its position in the queue that is left is
    0, as that of session 1. *)
Lemma queue_position_zero_or_index_witness :
  GetQueuedSessionPos 1 full_world = 0 /\ GetQueuedSessionPos 4 full_world = 2 /\
  exists w',
    RemoveQueuedSession 1 full_world = Some (false, w') /\
    EvSendAuthWaitQue 3 0 ∈ drop (length (sent full_world)) (sent w') /\
    m_QueuedSessions w' = [4%N] /\
    GetQueuedSessionPos 3 w' = 0.
Proof.
  destruct (queue_position_zero_or_index 1%N full_world) as (Hzero & _ & Hrelease);
    [vm_compute; reflexivity|].
  destruct (queue_position_zero_or_index 4%N full_world) as (_ & Hindex & _);
    [vm_compute; reflexivity|].
  split; [|split].
  - apply Hzero. simpl. intros Hin.
    apply elem_of_cons in Hin as [Hin | Hin]; [discriminate|].
    apply elem_of_cons in Hin as [Hin | Hin]; [discriminate|]. by apply elem_of_nil in Hin.
  - apply (Hindex 1%nat); [reflexivity|].
    intros j Hj. assert (j = 0%nat) as -> by lia. discriminate.
  - destruct Hrelease as [_ Hlets].
    + simpl. apply NoDup_cons. split; [|apply NoDup_singleton].
      intros Hin. apply list_elem_of_singleton in Hin. discriminate.
    + intros x Hx. apply elem_of_cons in Hx as [-> | Hx]; [by eexists|].
      apply elem_of_cons in Hx as [-> | Hx]; [by eexists|]. by apply elem_of_nil in Hx.
    + destruct (Hlets 1%N) as (w' & Hrun & Hhead).
      exists w'. split; [exact Hrun|].
      apply (Hhead 3%N [4%N]); vm_compute; reflexivity.
Defined.

(** * Further properties *)

(** ** The update of the sessions and the cleanup before the world stops *)

Section CleanupFacts.
Context {hdr : Header}.

Lemma sends_nil (w : World) : sends [] w = w.
Proof. destruct w. unfold sends. simpl. by rewrite app_nil_r. Qed.

Lemma released_empty_queue (sess : N) (w : World) :
  m_QueuedSessions w = [] -> released sess w = w.
Proof.
  intros Hq. unfold released. rewrite Hq. cbn.
  rewrite andb_false_r. cbn. rewrite sends_nil.
  destruct w. simpl in *. by subst.
Qed.

Lemma erase_dead_session_run (alive : N -> bool) (id : Z) (w : World) :
  directory_ok w -> erase_dead_session alive id w = Some (tt, erased alive id w).
Proof.
  intros Hok. unfold erase_dead_session, erased. unfold bind at 1. unfold get at 1.
  destruct (m_sessions w !! id) as [p|] eqn:Hp; [|done].
  destruct (alive p); [done|].
  destruct (directory_ok_session_live _ _ _ Hok Hp) as (Hpnull & so & Hso & Hid).
  unfold bind at 1. rewrite RemoveQueuedSession_run.
  2:{ intros x Hx. by apply (directory_ok_queue_live w). }
  unfold bind at 1. unfold modify at 1.
  rewrite delete_session_live; [done| |done].
  simpl. apply released_live. eauto.
Qed.

Lemma erased_sessions (alive : N -> bool) (k : Z) (w : World) (id : Z) :
  m_sessions (erased alive k w) !! id =
    match m_sessions w !! id with
    | Some p => if decide (id = k) then if alive p then Some p else None else Some p
    | None => None
    end.
Proof.
  unfold erased. destruct (m_sessions w !! k) as [p|] eqn:Hp.
  - destruct (alive p) eqn:Hal.
    + destruct (m_sessions w !! id) as [q|] eqn:Hq; [|done].
      case_decide; [|done]. subst. rewrite Hp in Hq. injection Hq as <-. by rewrite Hal.
    + simpl. rewrite released_sessions, lookup_delete. case_decide as Hk.
      * subst. by rewrite Hp, decide_True, Hal.
      * destruct (m_sessions w !! id); [|done]. by rewrite decide_False by congruence.
  - destruct (m_sessions w !! id) as [q|] eqn:Hq; [|done].
    case_decide; [|done]. subst. congruence.
Qed.

Lemma erased_queue (alive : N -> bool) (k : Z) (w : World) (x : N) :
  x ∈ m_QueuedSessions (erased alive k w) -> x ∈ m_QueuedSessions w.
Proof.
  unfold erased. destruct (m_sessions w !! k) as [p|]; [|done].
  destruct (alive p); [done|]. simpl. apply released_queue_subseteq.
Qed.

Lemma erased_objects (alive : N -> bool) (k : Z) (w : World) (q : N) :
  is_Some (objects (erased alive k w) !! q) <->
  is_Some (objects w !! q) /\
  ~ (exists p, m_sessions w !! k = Some p /\ alive p = false /\ q = p).
Proof.
  unfold erased. destruct (m_sessions w !! k) as [p|] eqn:Hp.
  - destruct (alive p) eqn:Hal.
    + split; [|tauto]. intros H. split; [done|]. intros (p' & [= <-] & ? & _). congruence.
    + simpl. rewrite lookup_delete. case_decide as Hq.
      * subst. split; [by intros [? ?]|]. intros [_ []]. eauto.
      * rewrite released_live. split; [|tauto]. intros H. split; [done|].
        intros (p' & [= <-] & _ & ->). done.
  - split; [|tauto]. intros H. split; [done|]. by intros (p' & ? & _).
Qed.

Lemma erase_dead_sessions_run (alive : N -> bool) (l : list Z) (w : World) :
  directory_ok w ->
  exists w', for_each (erase_dead_session alive) l w = Some (tt, w') /\
    directory_ok w' /\
    (forall id, m_sessions w' !! id =
       match m_sessions w !! id with
       | Some p => if decide (id ∈ l) then if alive p then Some p else None else Some p
       | None => None
       end) /\
    (forall q, is_Some (objects w' !! q) <->
       is_Some (objects w !! q) /\
       ~ (exists id, id ∈ l /\ m_sessions w !! id = Some q /\ alive q = false)) /\
    (forall x, x ∈ m_QueuedSessions w' -> x ∈ m_QueuedSessions w).
Proof.
  revert w. induction l as [|k l IH]; intros w Hok.
  - exists w. split; [done|]. split; [done|]. split; [|split; [|done]].
    + intros id. destruct (m_sessions w !! id); [|done]. by rewrite decide_False by (by intros ?%elem_of_nil).
    + intros q. split; [|tauto]. intros H. split; [done|]. intros (id & ?%elem_of_nil & _). done.
  - pose proof (erase_dead_session_run alive k w Hok) as Hrun.
    assert (Hok1 : directory_ok (erased alive k w)).
    { by apply (directory_ok_erase_dead_session alive k w). }
    destruct (IH _ Hok1) as (w' & Hrest & Hok' & Hmap & Hobj & Hqueue).
    exists w'. split; [|split; [done|split; [|split]]].
    + simpl. unfold bind. by rewrite Hrun.
    + intros id. rewrite Hmap, erased_sessions.
      destruct (m_sessions w !! id) as [p|] eqn:Hp; [|done].
      destruct (decide (id = k)) as [->|Hne].
      * rewrite (decide_True (P := k ∈ k :: l)) by (apply elem_of_cons; by left).
        destruct (alive p) eqn:Hal; [|done]. rewrite Hal. by case_decide.
      * destruct (decide (id ∈ l)) as [Hin|Hout].
        -- by rewrite (decide_True (P := id ∈ k :: l)) by (apply elem_of_cons; by right).
        -- by rewrite (decide_False (P := id ∈ k :: l)) by (by intros [?|?]%elem_of_cons).
    + intros q. rewrite Hobj, erased_objects. split.
      * intros [[Hlive Hk] Hl]. split; [done|].
        intros (id & [->|Hin]%elem_of_cons & Hq & Hal).
        -- apply Hk. eauto.
        -- apply Hl. exists id. split; [done|]. split; [|done].
           rewrite erased_sessions, Hq. case_decide; [|done]. subst.
           exfalso. apply Hk. eauto.
      * intros [Hlive Hkl]. split; [split; [done|]|].
        -- intros (p & Hp & Hal & ->). apply Hkl. exists k. split; [apply elem_of_cons; by left|done].
        -- intros (id & Hin & Hq & Hal). apply Hkl. exists id. split; [apply elem_of_cons; by right|].
           split; [|done]. rewrite erased_sessions in Hq.
           destruct (m_sessions w !! id) as [p|]; [|done].
           case_decide; [|done]. destruct (alive p); [done|done].
    + intros x Hx. by apply (erased_queue alive k w), Hqueue.
Qed.

Lemma session_keys_spec (w : World) (id : Z) :
  id ∈ session_keys w <-> is_Some (m_sessions w !! id).
Proof.
  unfold session_keys. rewrite merge_sort_Permutation.
  rewrite list_elem_of_fmap. split.
  - intros ([id' p] & -> & Hin). apply elem_of_map_to_list in Hin. eauto.
  - intros [p Hp]. exists (id, p). split; [done|]. by apply elem_of_map_to_list.
Qed.

(** X1: [World::UpdateSessions] keeps exactly the sessions that are alive. *)
Theorem UpdateSessions_keeps_the_alive (alive : N -> bool) (w : World) :
  directory_ok w ->
  exists w', UpdateSessions [] alive w = Some (tt, w') /\
    directory_ok w' /\
    (forall id, m_sessions w' !! id =
       match m_sessions w !! id with
       | Some p => if alive p then Some p else None
       | None => None
       end) /\
    (forall id p, m_sessions w !! id = Some p -> alive p = false ->
       objects w' !! p = None /\ (p ∉ m_QueuedSessions w')) /\
    (forall id p, m_sessions w !! id = Some p -> alive p = true ->
       is_Some (objects w' !! p)) /\
    (forall x, x ∈ m_QueuedSessions w' -> x ∈ m_QueuedSessions w).
Proof.
  intros Hok.
  destruct (erase_dead_sessions_run alive (session_keys w) w Hok)
    as (w' & Hrun & Hok' & Hmap & Hobj & Hqueue).
  assert (Hmap' : forall id, m_sessions w' !! id =
     match m_sessions w !! id with
     | Some p => if alive p then Some p else None
     | None => None
     end).
  { intros id. rewrite Hmap. destruct (m_sessions w !! id) as [p|] eqn:Hp; [|done].
    rewrite decide_True; [done|]. apply session_keys_spec. eauto. }
  exists w'. split; [|split; [done|split; [done|split; [|split; [|done]]]]].
  - unfold UpdateSessions. simpl. unfold bind at 1. unfold ret at 1.
    unfold bind at 1. unfold get at 1. done.
  - intros id p Hp Hal.
    assert (Hgone : objects w' !! p = None).
    { apply eq_None_not_Some. rewrite Hobj. intros [_ []]. exists id.
      split; [|done]. apply session_keys_spec. eauto. }
    split; [done|]. intros Hin.
    apply (directory_ok_queue_live _ _ Hok') in Hin as [? Hin]. congruence.
  - intros id p Hp Hal. apply Hobj.
    destruct (directory_ok_session_live _ _ _ Hok Hp) as (_ & so & Hso & _).
    split; [eauto|]. intros (id' & _ & _ & ?). congruence.
Qed.

End CleanupFacts.

Section KickFacts.
Context {hdr : Header}.

Lemma sessions_in_order_spec (w : World) (p : N) :
  p ∈ sessions_in_order w <-> exists id, m_sessions w !! id = Some p.
Proof.
  unfold sessions_in_order. rewrite list_elem_of_fmap. split.
  - intros (id & -> & [q Hq]%session_keys_spec). exists id. unfold FindSession. by rewrite Hq.
  - intros (id & Hp). exists id. split.
    + unfold FindSession. by rewrite Hp.
    + apply session_keys_spec. eauto.
Qed.

Lemma session_keys_NoDup (w : World) : NoDup (session_keys w).
Proof.
  unfold session_keys. rewrite merge_sort_Permutation. apply NoDup_fst_map_to_list.
Qed.

(** No session is filed under two accounts. *)
Lemma sessions_in_order_NoDup (w : World) : directory_ok w -> NoDup (sessions_in_order w).
Proof.
  intros Hok. unfold sessions_in_order. apply NoDup_fmap_2_strong; [|apply session_keys_NoDup].
  intros id id' [p Hp]%session_keys_spec [p' Hp']%session_keys_spec.
  unfold FindSession. rewrite Hp, Hp'. intros <-.
  apply (ok_sessions _ Hok) in Hp, Hp'. congruence.
Qed.

Lemma kick_each_run (w0 : World) (l : list Z) (w : World) :
  (forall id, id ∈ l -> is_Some (objects w !! FindSession id w0)) ->
  for_each (fun id => KickPlayer (FindSession id w0)) l w =
    Some (tt, sends (EvKickPlayer <$> ((fun id => FindSession id w0) <$> l)) w).
Proof.
  revert w. induction l as [|id l IH]; intros w Hlive; simpl.
  - by rewrite sends_nil.
  - unfold bind. rewrite KickPlayer_live by (apply Hlive, elem_of_cons; by left).
    rewrite IH.
    + by rewrite sends_sends.
    + intros id' Hin. simpl. apply Hlive, elem_of_cons. by right.
Qed.

Lemma KickAll_run (w : World) :
  directory_ok w ->
  KickAll w =
    Some (tt, sends (EvKickPlayer <$> sessions_in_order w) (set_QueuedSessions [] w)).
Proof.
  intros Hok. unfold KickAll. unfold bind at 1. unfold modify at 1.
  unfold bind at 1. unfold get at 1.
  change (session_keys (set_QueuedSessions [] w)) with (session_keys w).
  rewrite kick_each_run; [done|].
  intros id [p Hp]%session_keys_spec. simpl. unfold FindSession. simpl. rewrite Hp.
  destruct (directory_ok_session_live _ _ _ Hok Hp) as (_ & so & Hso & _). eauto.
Qed.

Lemma directory_ok_no_queue (w : World) :
  directory_ok w -> directory_ok (set_QueuedSessions [] w).
Proof.
  intros [Hnull Hsess Hqueue Hnd]. split; simpl; [done..| |apply NoDup_nil_2].
  by intros p ?%elem_of_nil.
Qed.

Lemma erased_empty_queue (alive : N -> bool) (id : Z) (w : World) :
  m_QueuedSessions w = [] ->
  m_QueuedSessions (erased alive id w) = [] /\ sent (erased alive id w) = sent w.
Proof.
  intros Hq. unfold erased. destruct (m_sessions w !! id) as [p|]; [|done].
  destruct (alive p); [done|]. by rewrite released_empty_queue.
Qed.

Lemma below_tier_spec (sec : Z) (w : World) (p : N) :
  below_tier sec w p = true <->
  p <> NULL /\ exists s, objects w !! p = Some s /\ security s < sec.
Proof.
  unfold below_tier. rewrite andb_true_iff, bool_decide_eq_true.
  destruct (objects w !! p) as [s|].
  - rewrite Z.ltb_lt. split.
    + intros [? ?]. eauto.
    + by intros [? (s' & [= <-] & ?)].
  - split; [by intros [_ ?]|]. by intros [_ (s & ? & _)].
Qed.

Lemma kick_below_run (sec : Z) (w0 : World) (l : list Z) (w : World) :
  objects w = objects w0 ->
  (forall id, id ∈ l -> FindSession id w0 <> NULL ->
     is_Some (objects w0 !! FindSession id w0)) ->
  for_each
    (fun id =>
       let session := FindSession id w0 in
       if decide (session = NULL) then ret tt
       else
         let* security := GetSecurity session in
         if security <? sec then KickPlayer session else ret tt) l w =
    Some (tt,
      sends (EvKickPlayer <$>
               filter (fun p => below_tier sec w0 p = true)
                 ((fun id => FindSession id w0) <$> l)) w).
Proof.
  revert w. induction l as [|id l IH]; intros w Hobj Hlive.
  - simpl. by rewrite sends_nil.
  - cbn [for_each fmap list_fmap]. unfold bind at 1.
    assert (Hrest : forall id', id' ∈ l -> FindSession id' w0 <> NULL ->
              is_Some (objects w0 !! FindSession id' w0)).
    { intros id' Hin. apply Hlive, elem_of_cons. by right. }
    rewrite filter_cons.
    destruct (decide (below_tier sec w0 (FindSession id w0) = true)) as [Hb|Hb].
    + apply below_tier_spec in Hb as (Hnull & s & Hs & Hsec).
      rewrite decide_False by done.
      unfold bind at 1. rewrite (GetSecurity_live w _ (security s)) by (by rewrite Hobj, Hs).
      rewrite (proj2 (Z.ltb_lt _ _) Hsec).
      rewrite KickPlayer_live by (rewrite Hobj; eauto).
      rewrite IH by done. by rewrite sends_sends.
    + destruct (decide (FindSession id w0 = NULL)) as [Hnull|Hnull].
      * unfold ret at 1. by apply IH.
      * destruct (Hlive id) as [s Hs]; [apply elem_of_cons; by left | done |].
        unfold bind at 1.
        rewrite (GetSecurity_live w _ (security s)) by (by rewrite Hobj, Hs).
        destruct (security s <? sec) eqn:Hsec.
        -- exfalso. apply Hb, below_tier_spec. split; [done|].
           exists s. split; [done|]. by apply Z.ltb_lt.
        -- unfold ret at 1. by apply IH.
Qed.

(** X3: [World::KickAllLess] kicks the sessions below the tier, each once,
    and no other. *)
Theorem KickAllLess_kicks_below_tier (sec : Z) (w : World) :
  directory_ok w ->
  exists es, KickAllLess sec w = Some (tt, sends es w) /\
    NoDup es /\
    (forall e, e ∈ es <->
       exists id p s, e = EvKickPlayer p /\ m_sessions w !! id = Some p /\
         objects w !! p = Some s /\ security s < sec).
Proof.
  intros Hok.
  exists (EvKickPlayer <$>
            filter (fun p => below_tier sec w p = true) (sessions_in_order w)).
  split; [|split].
  - unfold KickAllLess. unfold bind at 1. unfold get at 1.
    apply kick_below_run; [done|].
    intros id [p Hp]%session_keys_spec _. unfold FindSession. rewrite Hp.
    destruct (directory_ok_session_live _ _ _ Hok Hp) as (_ & so & Hso & _). eauto.
  - apply NoDup_fmap_2; [by intros p q [= ->]|].
    by apply NoDup_filter, sessions_in_order_NoDup.
  - intros e. rewrite list_elem_of_fmap. split.
    + intros (p & -> & [Hbelow Hin]%list_elem_of_filter).
      apply sessions_in_order_spec in Hin as [id Hp].
      apply below_tier_spec in Hbelow as (_ & s & Hs & Hsec).
      by exists id, p, s.
    + intros (id & p & s & -> & Hp & Hs & Hsec). exists p. split; [done|].
      apply list_elem_of_filter. split; [|apply sessions_in_order_spec; eauto].
      apply below_tier_spec.
      destruct (directory_ok_session_live _ _ _ Hok Hp) as (Hnull & _). eauto.
Qed.

End KickFacts.

Section DirectoryFacts.
Context {hdr : Header}.

(** X4: [World::AddSession_] files the new session under its own account,
    unless it refuses it, and leaves the other accounts as they are. *)
Theorem AddSession__files_own_account_only (s : N) (so : WorldSession) (w : World) :
  directory_ok w -> objects w !! s = Some so -> ~ in_directory w s ->
  exists w', AddSession_ s w = Some (tt, w') /\
    (forall id, id <> accountId so -> FindSession id w' = FindSession id w) /\
    (size (m_sessions w) <= size (m_sessions w') <= S (size (m_sessions w)))%nat /\
    match m_sessions w !! accountId so with
    | Some old =>
        if bool_decide (m_playerLoading <$> objects w !! old = Some true)
        then FindSession (accountId so) w' = old /\ objects w' !! s = None
        else FindSession (accountId so) w' = s /\ objects w' !! old = None
    | None => FindSession (accountId so) w' = s /\
              size (m_sessions w') = S (size (m_sessions w))
    end.
Proof.
  intros Hok Hs Hnew.
  assert (Hsnull : s <> NULL).
  { intros ->. pose proof (ok_null _ Hok) as H. by rewrite Hs in H. }
  assert (Hjoined : forall id,
    FindSession id (joined s (accountId so) (security so) w) =
      if decide (id = accountId so) then s else FindSession id w).
  { intros id. unfold FindSession. rewrite joined_sessions.
    case_decide as Hid; [subst; by rewrite lookup_insert_eq|].
    by rewrite lookup_insert_ne. }
  destruct (m_sessions w !! accountId so) as [old|] eqn:Hold.
  - destruct (directory_ok_session_live _ _ _ Hok Hold) as (Holdnull & oo & Hoo & _).
    rewrite Hoo. simpl. destruct (m_playerLoading oo) eqn:Hloading.
    + exists (refused s w). split; [|split; [done|split; [simpl; lia|]]].
      { apply (AddSession__refused s old so); [done..|]. by rewrite Hoo, <- Hloading. }
      rewrite bool_decide_eq_true_2 by done. unfold FindSession. simpl. rewrite Hold.
      split; [done|]. apply lookup_delete_eq.
    + exists (joined s (accountId so) (security so) w).
      split; [|split; [|split]].
      * apply AddSession__joined; [done..|].
        intros old' Hold'. rewrite Hold in Hold'. injection Hold' as <-.
        by rewrite Hoo, <- Hloading.
      * intros id Hid. by rewrite Hjoined, decide_False.
      * rewrite joined_sessions, map_size_insert, Hold. simpl. lia.
      * rewrite bool_decide_eq_false_2 by done. rewrite Hjoined, decide_True by done.
        split; [done|]. rewrite joined_objects.
        destruct (replaced_old_gone _ _ _ Hok Hold) as [Hgone _].
        destruct (goes_to_queue _ _ _); [|done].
        rewrite lookup_alter_ne; [done|]. intros ->. apply Hnew. left. eauto.
  - exists (joined s (accountId so) (security so) w).
    split; [|split; [|split]].
    + apply AddSession__joined; [done..|]. intros old. by rewrite Hold.
    + intros id Hid. by rewrite Hjoined, decide_False.
    + rewrite joined_sessions, map_size_insert, Hold. simpl. lia.
    + rewrite Hjoined, decide_True by done. split; [done|].
      by rewrite joined_sessions, map_size_insert, Hold.
Qed.

(** *** The highest counts *)

Lemma released_maxSessionCounts (sess : N) (w : World) :
  m_maxActiveSessionCount (released sess w) = m_maxActiveSessionCount w /\
  m_maxQueuedSessionCount (released sess w) = m_maxQueuedSessionCount w.
Proof.
  unfold released.
  destruct (erase_found sess (m_QueuedSessions w));
    destruct (release_frees_capacity sess w && _);
    try destruct (erase_before sess (m_QueuedSessions w) ++ erase_iter sess (m_QueuedSessions w));
    done.
Qed.

Lemma replaced_maxSessionCounts (id : Z) (w : World) :
  m_maxActiveSessionCount (replaced id w) = m_maxActiveSessionCount w /\
  m_maxQueuedSessionCount (replaced id w) = m_maxQueuedSessionCount w.
Proof.
  unfold replaced. destruct (m_sessions w !! id) as [old|]; [|done].
  simpl. by destruct (released_maxSessionCounts old (sends [EvKickPlayer old] w)) as [-> ->].
Qed.

Lemma joined_maxSessionCounts (s : N) (id sec : Z) (w : World) :
  let w' := joined s id sec w in
  m_maxActiveSessionCount w' =
    Z.max (m_maxActiveSessionCount w) (GetActiveSessionCount w') /\
  m_maxQueuedSessionCount w' =
    Z.max (m_maxQueuedSessionCount w) (GetQueuedSessionCount w').
Proof.
  destruct (replaced_maxSessionCounts id w) as [Ha Hq].
  unfold joined, GetActiveSessionCount, GetQueuedSessionCount.
  destruct (goes_to_queue id sec w); [|destruct (0 <? _)]; simpl; by rewrite Ha, Hq.
Qed.

Lemma erased_maxSessionCounts (alive : N -> bool) (id : Z) (w : World) :
  m_maxActiveSessionCount (erased alive id w) = m_maxActiveSessionCount w /\
  m_maxQueuedSessionCount (erased alive id w) = m_maxQueuedSessionCount w.
Proof.
  unfold erased. destruct (m_sessions w !! id) as [p|]; [|done].
  destruct (alive p); [done|]. simpl. apply released_maxSessionCounts.
Qed.

Lemma shutdown_op_maxSessionCounts (op : ShutdownOp) (w w' : World) :
  shutdown_op op w = Some (tt, w') ->
  m_maxActiveSessionCount w' = m_maxActiveSessionCount w /\
  m_maxQueuedSessionCount w' = m_maxQueuedSessionCount w.
Proof.
  destruct op; simpl.
  - unfold ShutdownServ, ShutdownMsg, bind, get, modify, emit, modify, ret.
    repeat (match goal with |- context [if ?b then _ else _] => destruct b end; simpl);
      by intros [= <-].
  - unfold ShutdownCancel, bind, get, modify, emit, modify, ret.
    repeat (match goal with |- context [if ?b then _ else _] => destruct b end; simpl);
      by intros [= <-].
  - unfold _UpdateGameTime, ShutdownMsg, bind, get, modify, emit, modify, ret.
    repeat (match goal with |- context [if ?b then _ else _] => destruct b end; simpl);
      by intros [= <-].
Qed.

Lemma world_op_maxSessionCounts (op : WorldOp) (w w' : World) :
  directory_ok w -> world_op op w = Some (tt, w') ->
  m_maxActiveSessionCount w <= m_maxActiveSessionCount w' /\
  m_maxQueuedSessionCount w <= m_maxQueuedSessionCount w'.
Proof.
  intros Hok. destruct op as [s id sec|s|alive| |limit needUpdate|p b|op]; simpl.
  - unfold new_WorldSession. case_decide; [|done]. intros [= <-]. simpl. lia.
  - unfold bind, get. destruct (is_pending w s) eqn:Hpending; [|done].
    apply is_pending_spec in Hpending as ([so Hs] & Hout).
    destruct (AddSession__cases s _ w Hok Hs Hout) as (w2 & -> & _ & [-> | ->]);
      intros [= <-].
    + simpl. lia.
    + destruct (joined_maxSessionCounts s (accountId so) (security so) w) as [-> ->]. lia.
  - unfold UpdateSessions. simpl. unfold bind at 1. unfold ret at 1.
    unfold bind at 1. unfold get at 1. intros Hrun.
    enough (directory_ok w' /\
            m_maxActiveSessionCount w' = m_maxActiveSessionCount w /\
            m_maxQueuedSessionCount w' = m_maxQueuedSessionCount w) as (_ & -> & ->) by lia.
    revert Hrun.
    apply (for_each_preserves
             (fun w2 => directory_ok w2 /\
                m_maxActiveSessionCount w2 = m_maxActiveSessionCount w /\
                m_maxQueuedSessionCount w2 = m_maxQueuedSessionCount w)
             (erase_dead_session alive)); [|done].
    intros id w2 w3 (Hok2 & Ha2 & Hq2) Hstep.
    split; [by apply (directory_ok_erase_dead_session alive id w2)|].
    rewrite (erase_dead_session_run alive id w2 Hok2) in Hstep. injection Hstep as <-.
    destruct (erased_maxSessionCounts alive id w2) as [-> ->]. done.
  - rewrite KickAll_run by done. intros [= <-]. simpl. lia.
  - unfold SetPlayerLimit, bind, get, modify, emit, modify, ret.
    destruct (_ || _ || _); intros [= <-]; simpl; lia.
  - unfold SetPlayerLoading, bind.
    destruct (deref p w) as [[so w1]|] eqn:Hd; [|done].
    apply deref_inv in Hd as [Hp ->]. unfold modify. intros [= <-]. simpl. lia.
  - intros [-> ->]%shutdown_op_maxSessionCounts. lia.
Qed.

(** X5: the highest counts of active and of queued sessions are not below
    the counts when a session is filed, and nothing lowers them. *)
Theorem max_session_counters_are_high_water_marks (w : World) :
  directory_ok w ->
  (forall s so w',
     objects w !! s = Some so -> ~ in_directory w s ->
     AddSession_ s w = Some (tt, w') -> m_sessions w' !! accountId so = Some s ->
     GetActiveSessionCount w' <= m_maxActiveSessionCount w' /\
     GetQueuedSessionCount w' <= m_maxQueuedSessionCount w') /\
  (forall ops w',
     for_each world_op ops w = Some (tt, w') ->
     m_maxActiveSessionCount w <= m_maxActiveSessionCount w' /\
     m_maxQueuedSessionCount w <= m_maxQueuedSessionCount w').
Proof.
  intros Hok. split.
  - intros s so w' Hs Hnew Hrun Hfiled.
    destruct (AddSession__cases s _ w Hok Hs Hnew) as (w2 & Hrun2 & _ & [-> | ->]);
      rewrite Hrun2 in Hrun; injection Hrun as <-.
    + exfalso. apply Hnew. left. eauto.
    + destruct (joined_maxSessionCounts s (accountId so) (security so) w) as [-> ->]. lia.
  - intros ops. revert w Hok. induction ops as [|op ops IH]; intros w Hok w'; simpl.
    + intros [= <-]. lia.
    + unfold bind. destruct (world_op op w) as [[[] w1]|] eqn:Hop; [|done].
      intros Hrest.
      destruct (world_op_maxSessionCounts op w w1 Hok Hop).
      destruct (IH w1 (directory_ok_world_op op w w1 Hok Hop) w' Hrest). lia.
Qed.

(** *** The queue is not longer than the map *)

Lemma directory_ok_queue_length (w : World) :
  directory_ok w -> (length (m_QueuedSessions w) <= size (m_sessions w))%nat.
Proof.
  intros Hok.
  set (f := fun p : N => default 0 (accountId <$> objects w !! p)).
  assert (Hf : forall p, p ∈ m_QueuedSessions w -> m_sessions w !! f p = Some p).
  { intros p Hp. destruct (ok_queued _ Hok p Hp) as (id & Hid & Hfiled).
    unfold f. by rewrite Hid. }
  rewrite <- (length_fmap f), <- length_map_to_list, <- (length_fmap fst).
  apply submseteq_length, NoDup_submseteq.
  - apply NoDup_fmap_2_strong; [|apply (ok_nodup _ Hok)].
    intros p q Hp Hq Hpq. apply Hf in Hp, Hq. rewrite Hpq in Hp. congruence.
  - intros id (p & -> & Hp)%list_elem_of_fmap. apply list_elem_of_fmap.
    exists (f p, p). split; [done|]. by apply elem_of_map_to_list, Hf.
Qed.

Lemma position_events_positive (iter : list N) (position : Z) (p : N) (pos : Z) :
  0 < position -> position + Z.of_nat (length iter) < 2 ^ 32 ->
  EvSendAuthWaitQue p pos ∈ position_events iter position -> 0 < pos.
Proof.
  intros Hpos Hlen. rewrite position_events_imap by lia.
  intros (i & x & [= -> ->] & _)%elem_of_lookup_imap. lia.
Qed.

(** X6: while the limit is negative, the release of a session lets nobody
    in from the queue. *)
Theorem negative_limit_release_lets_nobody_in (sess : N) (w : World) :
  directory_ok w -> m_playerLimit w < 0 ->
  Z.of_nat (size (m_sessions w)) < 2 ^ 31 ->
  exists w',
    RemoveQueuedSession sess w = Some (bool_decide (sess ∈ m_QueuedSessions w), w') /\
    m_QueuedSessions w' = filter (fun x => x <> sess) (m_QueuedSessions w) /\
    (forall p, p <> sess -> objects w' !! p = objects w !! p) /\
    (forall p position,
       EvSendAuthWaitQue p position ∈ drop (length (sent w)) (sent w') -> 0 < position).
Proof.
  intros Hok Hlimit Hsize.
  pose proof (directory_ok_queue_length w Hok) as Hlen.
  assert (Hfree : release_frees_capacity sess w = false).
  { unfold release_frees_capacity, GetActiveSessionCount.
    rewrite (u32_small (_ - _)) by lia.
    apply orb_false_intro; [lia|]. apply Z.ltb_ge.
    destruct (_ && _) eqn:Htest.
    - apply andb_prop in Htest as [_ Hnz]. apply negb_true_iff, Z.eqb_neq in Hnz.
      rewrite u32_small by lia. rewrite i32_small by lia. lia.
    - rewrite i32_small by lia. lia. }
  exists (released sess w). split; [|split; [|split]].
  - apply RemoveQueuedSession_run. intros x Hx. by apply (directory_ok_queue_live w).
  - pose proof (released_queue sess w) as Hq. simpl in Hq. rewrite Hq, Hfree. simpl.
    apply erase_rest_filter, (ok_nodup _ Hok).
  - intros p Hp. unfold released. rewrite Hfree. simpl.
    destruct (erase_found sess (m_QueuedSessions w)); simpl; [|done].
    by rewrite lookup_alter_ne.
  - intros p position. pose proof (released_sent sess w) as Hsent. simpl in Hsent.
    rewrite Hsent, Hfree, drop_app_length. simpl.
    pose proof (erase_decompose sess (m_QueuedSessions w)) as Hdec.
    destruct (bool_decide (sess ∈ m_QueuedSessions w)).
    + destruct Hdec as (Hq & _ & ->). apply (f_equal length) in Hq.
      rewrite length_app in Hq. simpl in Hq.
      rewrite count_up_small by lia.
      apply position_events_positive; lia.
    + destruct Hdec as [_ ->]. by intros ?%elem_of_nil.
Qed.

(** X7: [World::SetPlayerLimit] stores the limit, not below the tier of an
    administrator, and updates the realm exactly when it is asked to or the
    required tier changes. *)
Theorem SetPlayerLimit_clamps_and_updates_on_tier_change
    (limit : Z) (needUpdate : bool) (w : World) :
  exists w', SetPlayerLimit limit needUpdate w = Some (tt, w') /\
    m_playerLimit w' = Z.max limit (- SEC_ADMINISTRATOR) /\
    sent w' = sent w ++
      (if needUpdate || negb (Z.min (m_playerLimit w') 0 =? Z.min (m_playerLimit w) 0)
       then [EvAllowedSecurityLevel] else []) /\
    SetPlayerLimit limit false w' = Some (tt, w') /\
    objects w' = objects w /\ m_sessions w' = m_sessions w /\
    m_QueuedSessions w' = m_QueuedSessions w.
Proof.
  unfold SetPlayerLimit, bind, get, modify, emit, modify, ret. simpl.
  set (l := if limit <? - SEC_ADMINISTRATOR then - SEC_ADMINISTRATOR else limit).
  assert (Hl : l = Z.max limit (- SEC_ADMINISTRATOR)).
  { unfold l. destruct (Z.ltb_spec limit (- SEC_ADMINISTRATOR)); lia. }
  assert (Hcond : forall old,
    negb (Bool.eqb (l <? 0) (old <? 0)) || (l <? 0) && (old <? 0) && negb (l =? old)
    = negb (Z.min l 0 =? Z.min old 0)).
  { intros old.
    destruct (Z.ltb_spec l 0), (Z.ltb_spec old 0), (Z.eqb_spec l old),
      (Z.eqb_spec (Z.min l 0) (Z.min old 0)); simpl; try done; lia. }
  assert (Hsame : negb (Bool.eqb (l <? 0) (l <? 0)) || (l <? 0) && (l <? 0) && negb (l =? l)
                  = false).
  { by rewrite Hcond, Z.eqb_refl. }
  rewrite <- orb_assoc, Hcond.
  destruct (needUpdate || negb (Z.min l 0 =? Z.min (m_playerLimit w) 0)) eqn:Hupd.
  - exists (add_sent EvAllowedSecurityLevel (set_playerLimit l w)). simpl.
    rewrite Hupd, Hsame. by destruct w.
  - exists (set_playerLimit l w). simpl.
    rewrite Hupd, Hsame, app_nil_r. by destruct w.
Qed.

End DirectoryFacts.

(** ** The countdown over several ticks *)

Section CountdownFacts.
Context {hdr : Header}.

(** X8: a shutdown request with a delay starts the countdown at this delay,
    in place of any countdown in progress, and announces it at once unless it
    waits for the last session; a cancellation then names the kind of the
    new request. *)
Theorem ShutdownServ_with_delay_then_cancel (w : World) (time options exitcode : Z) :
  m_stopEvent w = false -> time <> 0 ->
  exists w1 w2,
    ShutdownServ time options exitcode w = Some (tt, w1) /\
    shutdown_state w1 = Counting /\
    m_ShutdownTimer w1 = time /\ m_ShutdownMask w1 = options /\ m_ExitCode w1 = exitcode /\
    sent w1 = sent w ++
      (if Z.land options SHUTDOWN_MASK_IDLE =? 0
       then [EvServerMessage
               (if Z.land options SHUTDOWN_MASK_RESTART =? 0
                then SERVER_MSG_SHUTDOWN_TIME else SERVER_MSG_RESTART_TIME)
               (Some time) NULL]
       else []) /\
    ShutdownCancel w1 = Some (tt, w2) /\
    shutdown_state w2 = Idle /\
    m_ShutdownMask w2 = 0 /\ m_ExitCode w2 = u8 SHUTDOWN_EXIT_CODE /\
    sent w2 = sent w1 ++
      [EvServerMessage
         (if Z.land options SHUTDOWN_MASK_RESTART =? 0
          then SERVER_MSG_SHUTDOWN_CANCELLED else SERVER_MSG_RESTART_CANCELLED)
         None NULL].
Proof.
  intros Hstop Htime.
  unfold ShutdownServ, ShutdownCancel, ShutdownMsg, shutdown_state,
    bind, get, modify, emit, modify, ret.
  rewrite Hstop. apply Z.eqb_neq in Htime. rewrite Htime. simpl.
  destruct (Z.land options SHUTDOWN_MASK_IDLE =? 0) eqn:Hidle;
    destruct (Z.land options SHUTDOWN_MASK_RESTART =? 0) eqn:Hrestart; simpl;
    (eexists _, _; split; [reflexivity|]; simpl; rewrite Hstop, Htime, ?Hrestart; simpl;
     rewrite ?app_nil_r;
     do 5 (split; [reflexivity|]); split; [reflexivity|]; simpl; by rewrite Hstop).
Qed.

Lemma Firing_ticks (elapsed : list Z) (w : World) :
  m_stopEvent w = true ->
  exists w', for_each _UpdateGameTime (times_from (m_gameTime w) elapsed) w = Some (tt, w') /\
    m_stopEvent w' = true /\ m_ExitCode w' = m_ExitCode w.
Proof.
  revert w. induction elapsed as [|d elapsed IH]; intros w Hstop; simpl.
  - by exists w.
  - unfold bind. rewrite Firing_UpdateGameTime by done.
    destruct (IH (set_gameTime (m_gameTime w + d) w) Hstop) as (w' & Hrun & Hstop' & Hexit).
    exists w'. by split.
Qed.

Lemma total_nonneg (elapsed : list Z) :
  Forall (fun d => 0 <= d < 2 ^ 32) elapsed -> 0 <= total elapsed.
Proof. induction 1 as [|d elapsed Hd _ IH]; simpl; lia. Qed.

(** One tick of a countdown that does not wait for the last session. *)
Lemma countdown_tick (w : World) (d : Z) :
  m_stopEvent w = false ->
  Z.land (m_ShutdownMask w) SHUTDOWN_MASK_IDLE = 0 ->
  0 < m_ShutdownTimer w < 2 ^ 32 -> 0 <= d < 2 ^ 32 ->
  exists w', _UpdateGameTime (m_gameTime w + d) w = Some (tt, w') /\
    m_gameTime w' = m_gameTime w + d /\
    m_ShutdownMask w' = m_ShutdownMask w /\ m_ExitCode w' = m_ExitCode w /\
    if d <? m_ShutdownTimer w
    then m_stopEvent w' = false /\ m_ShutdownTimer w' = m_ShutdownTimer w - d
    else m_stopEvent w' = true.
Proof.
  intros Hstop Hidle Htimer Hd.
  unfold _UpdateGameTime. unfold bind at 1. unfold get at 1.
  replace (m_gameTime w + d - m_gameTime w) with d by lia.
  rewrite (u32_small d) by done. unfold bind at 1. unfold modify at 1.
  rewrite Hstop, (proj2 (Z.ltb_lt 0 (m_ShutdownTimer w))) by lia. simpl.
  destruct (Z.ltb_spec 0 d) as [Hpos|Hzero].
  - destruct (Z.leb_spec (m_ShutdownTimer w) d) as [Hup|Hleft].
    + rewrite Hidle. simpl. unfold modify. eexists. split; [reflexivity|]. simpl.
      by rewrite (proj2 (Z.ltb_ge d (m_ShutdownTimer w))) by lia.
    + unfold bind at 1. unfold modify at 1.
      rewrite ShutdownMsg_not_idle by done.
      eexists. split; [reflexivity|].
      rewrite (proj2 (Z.ltb_lt d (m_ShutdownTimer w))) by lia.
      destruct (milestone _); simpl; rewrite u32_small by lia; done.
  - assert (d = 0) as -> by lia. unfold ret. eexists. split; [reflexivity|]. simpl.
    rewrite (proj2 (Z.ltb_lt 0 (m_ShutdownTimer w))) by lia.
    split; [done|]. split; [done|]. split; [done|]. split; [done | lia].
Qed.

(** X9: a countdown that does not wait for the last session fires when the
    time that has passed reaches its delay, and not before. *)
Theorem countdown_fires_when_time_is_up (w : World) (elapsed : list Z) :
  m_stopEvent w = false ->
  Z.land (m_ShutdownMask w) SHUTDOWN_MASK_IDLE = 0 ->
  0 < m_ShutdownTimer w < 2 ^ 32 ->
  Forall (fun d => 0 <= d < 2 ^ 32) elapsed ->
  exists w',
    for_each _UpdateGameTime (times_from (m_gameTime w) elapsed) w = Some (tt, w') /\
    m_ExitCode w' = m_ExitCode w /\
    if total elapsed <? m_ShutdownTimer w
    then shutdown_state w' = Counting /\
         m_ShutdownTimer w' = m_ShutdownTimer w - total elapsed
    else shutdown_state w' = Firing.
Proof.
  intros Hstop Hidle Htimer Hall. revert w Hstop Hidle Htimer.
  induction Hall as [|d elapsed Hd Hall IH]; intros w Hstop Hidle Htimer.
  - exists w. split; [done|]. split; [done|]. simpl.
    rewrite (proj2 (Z.ltb_lt 0 (m_ShutdownTimer w))) by lia.
    split; [|lia]. apply shutdown_state_Counting. split; [done | lia].
  - destruct (countdown_tick w d Hstop Hidle Htimer Hd)
      as (w1 & Htick & Htime1 & Hmask1 & Hexit1 & Hstate1).
    pose proof (total_nonneg elapsed Hall) as Hnonneg.
    cbn [times_from for_each total foldr]. fold (total elapsed).
    unfold bind. rewrite Htick, <- Htime1.
    destruct (Z.ltb_spec d (m_ShutdownTimer w)) as [Hleft|Hup].
    + destruct Hstate1 as [Hstop1 Htimer1].
      destruct (IH w1) as (w' & Hrun & Hexit & Hstate); [done | congruence | lia |].
      exists w'. split; [done|]. split; [congruence|].
      rewrite Htimer1 in Hstate.
      destruct (Z.ltb_spec (total elapsed) (m_ShutdownTimer w - d)).
      * rewrite (proj2 (Z.ltb_lt _ _)) by lia. destruct Hstate as [-> ->]. split; [done|lia].
      * by rewrite (proj2 (Z.ltb_ge _ _)) by lia.
    + destruct (Firing_ticks elapsed w1 Hstate1) as (w' & Hrun & Hstop' & Hexit).
      exists w'. split; [done|]. split; [congruence|].
      rewrite (proj2 (Z.ltb_ge _ _)) by lia. by apply shutdown_state_Firing.
Qed.

(** One tick of a countdown that waits for the last session, while a
    session is left. *)
Lemma idle_tick (w : World) (thisTime : Z) :
  m_stopEvent w = false ->
  Z.land (m_ShutdownMask w) SHUTDOWN_MASK_IDLE <> 0 ->
  0 < m_ShutdownTimer w < 2 ^ 32 ->
  GetActiveAndQueuedSessionCount w <> 0 ->
  exists w', _UpdateGameTime thisTime w = Some (tt, w') /\
    m_stopEvent w' = false /\ m_ShutdownMask w' = m_ShutdownMask w /\
    0 < m_ShutdownTimer w' <= m_ShutdownTimer w /\
    m_sessions w' = m_sessions w /\
    m_ExitCode w' = m_ExitCode w /\ sent w' = sent w.
Proof.
  intros Hstop Hidle Htimer Hcount.
  unfold _UpdateGameTime. unfold bind at 1. unfold get at 1.
  unfold bind at 1. unfold modify at 1.
  rewrite Hstop, (proj2 (Z.ltb_lt 0 (m_ShutdownTimer w))) by lia. simpl.
  pose proof (Z.mod_pos_bound (thisTime - m_gameTime w) (2 ^ 32) ltac:(lia)) as Hu.
  fold (u32 (thisTime - m_gameTime w)) in Hu.
  set (elapsed := u32 (thisTime - m_gameTime w)) in *.
  destruct (Z.ltb_spec 0 elapsed) as [Hpos|Hzero].
  - destruct (Z.leb_spec (m_ShutdownTimer w) elapsed) as [Hup|Hleft].
    + apply Z.eqb_neq in Hidle, Hcount. rewrite Hidle, Hcount. simpl. unfold modify.
      eexists. split; [reflexivity|]. simpl. repeat split; try done; lia.
    + unfold bind at 1. unfold modify at 1.
      rewrite ShutdownMsg_idle by done.
      eexists. split; [reflexivity|]. simpl.
      rewrite u32_small by lia. repeat split; try done; lia.
  - unfold ret. eexists. split; [reflexivity|]. simpl. repeat split; try done; lia.
Qed.

(** X10: a countdown that waits for the last session does not fire, and
    announces nothing, while a session is left, whatever time passes. *)
Theorem idle_countdown_waits_for_the_last_session (w : World) (times : list Z) :
  m_stopEvent w = false ->
  Z.land (m_ShutdownMask w) SHUTDOWN_MASK_IDLE <> 0 ->
  0 < m_ShutdownTimer w < 2 ^ 32 ->
  GetActiveAndQueuedSessionCount w <> 0 ->
  exists w', for_each _UpdateGameTime times w = Some (tt, w') /\
    shutdown_state w' = Counting /\
    0 < m_ShutdownTimer w' <= m_ShutdownTimer w /\
    m_ShutdownMask w' = m_ShutdownMask w /\ m_ExitCode w' = m_ExitCode w /\
    sent w' = sent w.
Proof.
  revert w. induction times as [|thisTime times IH]; intros w Hstop Hidle Htimer Hcount.
  - exists w. split; [done|]. split; [|split; [lia | done]].
    apply shutdown_state_Counting. split; [done | lia].
  - destruct (idle_tick w thisTime Hstop Hidle Htimer Hcount)
      as (w1 & Htick & Hstop1 & Hmask1 & Htimer1 & Hmap1 & Hexit1 & Hsent1).
    destruct (IH w1) as (w' & Hrun & Hstate & Htimer' & Hmask' & Hexit' & Hsent').
    + done.
    + by rewrite Hmask1.
    + lia.
    + unfold GetActiveAndQueuedSessionCount in *. by rewrite Hmap1.
    + exists w'. split; [simpl; unfold bind; by rewrite Htick|].
      split; [done|]. split; [lia|]. split; [congruence|]. split; congruence.
Qed.

(** X15: when the maintenance is due and the checker has run out, the update
    requests a restart in 30 seconds with exit code 2 and sets the checker to
    600000; it then requests nothing while no more than 600000 pass. *)
Theorem maintenance_requests_a_restart_then_waits
    (w : World) (today diff m_NextMaintenanceDate m_MaintenanceTimeChecker : Z) :
  m_NextMaintenanceDate <= today -> m_MaintenanceTimeChecker < diff ->
  exists w',
    Update_maintenance today diff m_NextMaintenanceDate m_MaintenanceTimeChecker w
      = Some (600000, w') /\
    (m_stopEvent w = false ->
       shutdown_state w' = Counting /\ m_ShutdownTimer w' = 30 /\
       m_ShutdownMask w' = SHUTDOWN_MASK_RESTART /\ m_ExitCode w' = 2) /\
    (m_stopEvent w = true -> w' = w) /\
    (forall diffs, Forall (fun d => 0 <= d) diffs -> total diffs <= 600000 ->
       maintenance_updates today m_NextMaintenanceDate diffs 600000 w'
         = Some (600000 - total diffs, w')).
Proof.
  intros Hdue Hout. unfold Update_maintenance.
  rewrite (proj2 (Z.leb_le _ _)) by done. rewrite (proj2 (Z.ltb_lt _ _)) by done.
  assert (Hwait : forall w' diffs checker,
    Forall (fun d => 0 <= d) diffs -> total diffs <= checker ->
    maintenance_updates today m_NextMaintenanceDate diffs checker w'
      = Some (checker - total diffs, w')).
  { intros w' diffs checker Hall. revert checker.
    induction Hall as [|d diffs Hd Hall IH]; intros checker Htotal; simpl in *.
    - unfold ret. do 2 f_equal. lia.
    - assert (0 <= total diffs).
      { clear -Hall. induction Hall; simpl; [done|]. unfold total in *. lia. }
      unfold bind, Update_maintenance.
      rewrite (proj2 (Z.leb_le _ _)) by done.
      rewrite (proj2 (Z.ltb_ge _ _)) by (unfold total in *; lia).
      unfold ret. rewrite IH by (unfold total in *; lia). do 2 f_equal.
      unfold total. lia. }
  destruct (m_stopEvent w) eqn:Hstop.
  - exists w. unfold bind. rewrite Firing_ShutdownServ by done. unfold ret.
    split; [done|]. split; [done|]. split; [done|]. intros diffs. apply Hwait.
  - unfold bind, ShutdownServ, ShutdownMsg, bind, get, modify, emit, modify, ret.
    rewrite Hstop. simpl.
    destruct (negb (Z.land SHUTDOWN_MASK_RESTART SHUTDOWN_MASK_IDLE =? 0));
      (eexists; split; [reflexivity|]; split; [|split; [done|]]).
    + intros _. unfold shutdown_state. simpl. by rewrite Hstop.
    + intros diffs. apply Hwait.
    + intros _. unfold shutdown_state. simpl. by rewrite Hstop.
    + intros diffs. apply Hwait.
Qed.

End CountdownFacts.

(** ** The configuration values *)

Section ConfigFacts.
Import String.StringSyntax.
#[local] Open Scope string_scope.
Variable Store : Type.
Variable getConfig : Z -> Store -> Z.
Variable storeConfig : Z -> Z -> Store -> Store.
Variable GetIntDefault : String.string -> Z -> Z.

(** What is stored under an index is what is read from it, and the other
    indices keep their values. *)
Hypothesis getConfig_storeConfig : forall index value c,
  getConfig index (storeConfig index value c) = value.
Hypothesis getConfig_storeConfig_ne : forall index index' value c,
  index' <> index -> getConfig index' (storeConfig index value c) = getConfig index' c.

Lemma u32_range (z : Z) : 0 <= u32 z < 2 ^ 32.
Proof. unfold u32. apply Z.mod_pos_bound. lia. Qed.

Lemma i32_range (z : Z) : - 2 ^ 31 <= i32 z < 2 ^ 31.
Proof.
  unfold i32. pose proof (Z.mod_pos_bound (z + 2 ^ 31) (2 ^ 32) ltac:(lia)). lia.
Qed.

Lemma i32_negative (z : Z) : 0 <= z < 2 ^ 32 -> (i32 z <? 0) = negb (z <? 2 ^ 31).
Proof.
  intros Hz. unfold i32. destruct (Z.ltb_spec z (2 ^ 31)); simpl.
  - rewrite Z.mod_small by lia. lia.
  - replace (z + 2 ^ 31) with (z - 2 ^ 31 + 1 * 2 ^ 32) by lia.
    rewrite Z.mod_add by lia. rewrite Z.mod_small by lia. lia.
Qed.

Lemma setConfig_UInt32_stored (index : Z) (fieldname : String.string) (defvalue : Z)
    (c : Store) :
  getConfig index
    (ConfigUInt32.setConfig Store getConfig storeConfig GetIntDefault
       index fieldname defvalue c) =
  if u32 (GetIntDefault fieldname defvalue) <? 2 ^ 31
  then u32 (GetIntDefault fieldname defvalue) else defvalue.
Proof.
  unfold ConfigUInt32.setConfig. rewrite getConfig_storeConfig.
  rewrite i32_negative by apply u32_range.
  destruct (_ <? 2 ^ 31); simpl; by rewrite getConfig_storeConfig.
Qed.

Lemma setConfig_UInt32_frame (index index' : Z) (fieldname : String.string) (defvalue : Z)
    (c : Store) :
  index' <> index ->
  getConfig index'
    (ConfigUInt32.setConfig Store getConfig storeConfig GetIntDefault
       index fieldname defvalue c) = getConfig index' c.
Proof.
  intros Hne. unfold ConfigUInt32.setConfig.
  destruct (_ <? 0); rewrite !getConfig_storeConfig_ne by done; done.
Qed.

Lemma setConfigMin_UInt32_stored (index : Z) (fieldname : String.string)
    (defvalue minvalue : Z) (c : Store) :
  getConfig index
    (ConfigUInt32.setConfigMin Store getConfig storeConfig GetIntDefault
       index fieldname defvalue minvalue c) =
  Z.max minvalue
    (getConfig index
       (ConfigUInt32.setConfig Store getConfig storeConfig GetIntDefault
          index fieldname defvalue c)).
Proof.
  unfold ConfigUInt32.setConfigMin.
  set (set := ConfigUInt32.setConfig _ _ _ _ _ _ _ _).
  destruct (Z.ltb_spec (getConfig index set) minvalue);
    rewrite ?getConfig_storeConfig; lia.
Qed.

Lemma setConfigMin_UInt32_frame (index index' : Z) (fieldname : String.string)
    (defvalue minvalue : Z) (c : Store) :
  index' <> index ->
  getConfig index'
    (ConfigUInt32.setConfigMin Store getConfig storeConfig GetIntDefault
       index fieldname defvalue minvalue c) = getConfig index' c.
Proof.
  intros Hne. unfold ConfigUInt32.setConfigMin.
  set (set := ConfigUInt32.setConfig _ _ _ _ _ _ _ _).
  destruct (getConfig index set <? minvalue);
    rewrite ?getConfig_storeConfig_ne by done; by apply setConfig_UInt32_frame.
Qed.

Lemma setConfigMinMax_UInt32_stored (index : Z) (fieldname : String.string)
    (defvalue minvalue maxvalue : Z) (c : Store) :
  let set := ConfigUInt32.setConfig Store getConfig storeConfig GetIntDefault
               index fieldname defvalue c in
  getConfig index
    (ConfigUInt32.setConfigMinMax Store getConfig storeConfig GetIntDefault
       index fieldname defvalue minvalue maxvalue c) =
  if getConfig index set <? minvalue then minvalue
  else if maxvalue <? getConfig index set then maxvalue
  else getConfig index set.
Proof.
  intros set. unfold ConfigUInt32.setConfigMinMax. fold set.
  destruct (getConfig index set <? minvalue); [by rewrite getConfig_storeConfig|].
  destruct (maxvalue <? getConfig index set); [by rewrite getConfig_storeConfig|done].
Qed.

Lemma setConfigMinMax_UInt32_frame (index index' : Z) (fieldname : String.string)
    (defvalue minvalue maxvalue : Z) (c : Store) :
  index' <> index ->
  getConfig index'
    (ConfigUInt32.setConfigMinMax Store getConfig storeConfig GetIntDefault
       index fieldname defvalue minvalue maxvalue c) = getConfig index' c.
Proof.
  intros Hne. unfold ConfigUInt32.setConfigMinMax.
  set (set := ConfigUInt32.setConfig _ _ _ _ _ _ _ _).
  destruct (getConfig index set <? minvalue);
    [|destruct (maxvalue <? getConfig index set)];
    rewrite ?getConfig_storeConfig_ne by done; by apply setConfig_UInt32_frame.
Qed.

(** X11: the unsigned configuration values are kept within their bounds: a
    value read that is negative as a signed number gives way to the default,
    a value below the least value to the least, a value above the greatest to
    the greatest; a value within the bounds is stored as it is read, and no
    other value changes. *)
Theorem setConfig_UInt32_within_bounds
    (index : Z) (fieldname : String.string) (defvalue minvalue maxvalue : Z) (c : Store) :
  let read := u32 (GetIntDefault fieldname defvalue) in
  let set := ConfigUInt32.setConfig Store getConfig storeConfig GetIntDefault
               index fieldname defvalue c in
  let set_min := ConfigUInt32.setConfigMin Store getConfig storeConfig GetIntDefault
                   index fieldname defvalue minvalue c in
  let set_min_max := ConfigUInt32.setConfigMinMax Store getConfig storeConfig GetIntDefault
                       index fieldname defvalue minvalue maxvalue c in
  (0 <= defvalue < 2 ^ 31 -> 0 <= i32 (getConfig index set)) /\
  minvalue <= getConfig index set_min /\
  (minvalue <= maxvalue -> minvalue <= getConfig index set_min_max <= maxvalue) /\
  (read < 2 ^ 31 ->
     getConfig index set = read /\
     (minvalue <= read -> getConfig index set_min = read) /\
     (minvalue <= read <= maxvalue -> getConfig index set_min_max = read)) /\
  (forall index', index' <> index ->
     getConfig index' set = getConfig index' c /\
     getConfig index' set_min = getConfig index' c /\
     getConfig index' set_min_max = getConfig index' c).
Proof.
  intros read set set_min set_min_max.
  pose proof (setConfig_UInt32_stored index fieldname defvalue c) as Hset.
  fold read set in Hset.
  pose proof (u32_range (GetIntDefault fieldname defvalue)) as Hread. fold read in Hread.
  pose proof (setConfigMin_UInt32_stored index fieldname defvalue minvalue c) as Hmin.
  fold set set_min in Hmin.
  pose proof (setConfigMinMax_UInt32_stored index fieldname defvalue minvalue maxvalue c)
    as Hminmax.
  simpl in Hminmax. fold set set_min_max in Hminmax.
  split; [|split; [|split; [|split]]].
  - intros Hdef. rewrite Hset. destruct (Z.ltb_spec read (2 ^ 31)).
    + rewrite i32_small by lia. lia.
    + rewrite i32_small by lia. lia.
  - rewrite Hmin. lia.
  - intros Hle. rewrite Hminmax.
    destruct (Z.ltb_spec (getConfig index set) minvalue); [lia|].
    destruct (Z.ltb_spec maxvalue (getConfig index set)); lia.
  - intros Hsmall. rewrite Hmin, Hminmax, Hset.
    rewrite (proj2 (Z.ltb_lt read (2 ^ 31))) by done.
    split; [done|]. split; [lia|]. intros [Hlo Hhi].
    rewrite (proj2 (Z.ltb_ge read minvalue)) by done.
    by rewrite (proj2 (Z.ltb_ge maxvalue read)) by done.
  - intros index' Hne. split; [by apply setConfig_UInt32_frame|].
    split; [by apply setConfigMin_UInt32_frame | by apply setConfigMinMax_UInt32_frame].
Qed.

(** X12: the signed configuration values are kept within their bounds; a
    value within the bounds is stored as it is read, and no other value
    changes. *)
Theorem setConfig_Int32_within_bounds
    (index : Z) (fieldname : String.string) (defvalue minvalue maxvalue : Z) (c : Store) :
  let read := i32 (GetIntDefault fieldname defvalue) in
  let set := ConfigInt32.setConfig Store storeConfig GetIntDefault
               index fieldname defvalue c in
  let set_min := ConfigInt32.setConfigMin Store getConfig storeConfig GetIntDefault
                   index fieldname defvalue minvalue c in
  let set_min_max := ConfigInt32.setConfigMinMax Store getConfig storeConfig GetIntDefault
                       index fieldname defvalue minvalue maxvalue c in
  getConfig index set = read /\
  getConfig index set_min = Z.max minvalue read /\
  (minvalue <= maxvalue ->
     minvalue <= getConfig index set_min_max <= maxvalue /\
     (minvalue <= read <= maxvalue -> getConfig index set_min_max = read)) /\
  (maxvalue < minvalue ->
     getConfig index set_min_max = if read <? minvalue then minvalue else maxvalue) /\
  (forall index', index' <> index ->
     getConfig index' set = getConfig index' c /\
     getConfig index' set_min = getConfig index' c /\
     getConfig index' set_min_max = getConfig index' c).
Proof.
  intros read set set_min set_min_max.
  assert (Hset : getConfig index set = read).
  { unfold set, ConfigInt32.setConfig. by rewrite getConfig_storeConfig. }
  assert (Hminmax : getConfig index set_min_max =
            if read <? minvalue then minvalue
            else if maxvalue <? read then maxvalue else read).
  { unfold set_min_max, ConfigInt32.setConfigMinMax. fold set. rewrite Hset.
    destruct (read <? minvalue); [by rewrite getConfig_storeConfig|].
    destruct (maxvalue <? read); [by rewrite getConfig_storeConfig|done]. }
  assert (Hframe : forall index', index' <> index -> getConfig index' set = getConfig index' c).
  { intros index' Hne. unfold set, ConfigInt32.setConfig.
    by rewrite getConfig_storeConfig_ne. }
  split; [done|]. split; [|split; [|split]].
  - unfold set_min, ConfigInt32.setConfigMin. fold set. rewrite Hset.
    destruct (Z.ltb_spec read minvalue); rewrite ?getConfig_storeConfig, ?Hset; lia.
  - intros Hle. rewrite Hminmax.
    destruct (Z.ltb_spec read minvalue); [lia|].
    destruct (Z.ltb_spec maxvalue read); lia.
  - intros Hlt. rewrite Hminmax.
    destruct (Z.ltb_spec read minvalue); [done|].
    destruct (Z.ltb_spec maxvalue read); [done|lia].
  - intros index' Hne. split; [by apply Hframe|]. split.
    + unfold set_min, ConfigInt32.setConfigMin. fold set.
      destruct (getConfig index set <? minvalue);
        rewrite ?getConfig_storeConfig_ne by done; by apply Hframe.
    + unfold set_min_max, ConfigInt32.setConfigMinMax. fold set.
      destruct (getConfig index set <? minvalue);
        [|destruct (maxvalue <? getConfig index set)];
        rewrite ?getConfig_storeConfig_ne by done; by apply Hframe.
Qed.

(** X18: the bounds that [World::LoadConfigSettings] takes from other
    values hold once it has read them: the characters of an account are not
    fewer than those of a realm, which are from 1 to 10, and the honor points
    at the start are not more than the most honor points. *)
Theorem LoadConfigSettings_dependent_bounds
    (CONFIG_UINT32_CHARACTERS_PER_REALM CONFIG_UINT32_CHARACTERS_PER_ACCOUNT
     CONFIG_UINT32_MAX_HONOR_POINTS CONFIG_UINT32_START_HONOR_POINTS : Z) (c : Store) :
  CONFIG_UINT32_CHARACTERS_PER_REALM <> CONFIG_UINT32_CHARACTERS_PER_ACCOUNT ->
  CONFIG_UINT32_MAX_HONOR_POINTS <> CONFIG_UINT32_START_HONOR_POINTS ->
  let characters :=
    LoadConfigSettings_characters Store getConfig storeConfig GetIntDefault
      CONFIG_UINT32_CHARACTERS_PER_REALM CONFIG_UINT32_CHARACTERS_PER_ACCOUNT c in
  let honor :=
    LoadConfigSettings_honor Store getConfig storeConfig GetIntDefault
      CONFIG_UINT32_MAX_HONOR_POINTS CONFIG_UINT32_START_HONOR_POINTS c in
  (1 <= getConfig CONFIG_UINT32_CHARACTERS_PER_REALM characters <= 10 /\
   getConfig CONFIG_UINT32_CHARACTERS_PER_REALM characters
     <= getConfig CONFIG_UINT32_CHARACTERS_PER_ACCOUNT characters) /\
  (0 <= getConfig CONFIG_UINT32_START_HONOR_POINTS honor
     <= getConfig CONFIG_UINT32_MAX_HONOR_POINTS honor /\
   getConfig CONFIG_UINT32_MAX_HONOR_POINTS honor < 2 ^ 31).
Proof.
  intros Hcharacters Hhonor characters honor. split.
  - unfold characters, LoadConfigSettings_characters.
    set (c1 := ConfigUInt32.setConfigMinMax _ _ _ _ _ _ 10 1 10 c).
    rewrite (setConfigMin_UInt32_frame CONFIG_UINT32_CHARACTERS_PER_ACCOUNT
               CONFIG_UINT32_CHARACTERS_PER_REALM) by done.
    rewrite setConfigMin_UInt32_stored.
    pose proof (setConfigMinMax_UInt32_stored CONFIG_UINT32_CHARACTERS_PER_REALM
                  "CharactersPerRealm" 10 1 10 c) as Hrealm.
    simpl in Hrealm. fold c1 in Hrealm. rewrite Hrealm.
    split; [|lia].
    destruct (Z.ltb_spec (getConfig CONFIG_UINT32_CHARACTERS_PER_REALM
                (ConfigUInt32.setConfig Store getConfig storeConfig GetIntDefault
                   CONFIG_UINT32_CHARACTERS_PER_REALM "CharactersPerRealm" 10 c)) 1); [lia|].
    destruct (Z.ltb_spec 10 (getConfig CONFIG_UINT32_CHARACTERS_PER_REALM
                (ConfigUInt32.setConfig Store getConfig storeConfig GetIntDefault
                   CONFIG_UINT32_CHARACTERS_PER_REALM "CharactersPerRealm" 10 c))); lia.
  - unfold honor, LoadConfigSettings_honor.
    set (c1 := ConfigUInt32.setConfig _ _ _ _ _ _ 75000 c).
    rewrite (setConfigMinMax_UInt32_frame CONFIG_UINT32_START_HONOR_POINTS
               CONFIG_UINT32_MAX_HONOR_POINTS) by done.
    pose proof (setConfig_UInt32_stored CONFIG_UINT32_MAX_HONOR_POINTS
                  "MaxHonorPoints" 75000 c) as Hmax. fold c1 in Hmax.
    pose proof (u32_range (GetIntDefault "MaxHonorPoints" 75000)) as Hread.
    assert (0 <= getConfig CONFIG_UINT32_MAX_HONOR_POINTS c1 < 2 ^ 31).
    { rewrite Hmax. destruct (Z.ltb_spec (u32 (GetIntDefault "MaxHonorPoints" 75000)) (2 ^ 31));
        lia. }
    split; [|lia].
    rewrite setConfigMinMax_UInt32_stored.
    destruct (Z.ltb_spec (getConfig CONFIG_UINT32_START_HONOR_POINTS
                (ConfigUInt32.setConfig Store getConfig storeConfig GetIntDefault
                   CONFIG_UINT32_START_HONOR_POINTS "StartHonorPoints" 0 c1)) 0); [lia|].
    destruct (Z.ltb_spec (getConfig CONFIG_UINT32_MAX_HONOR_POINTS c1)
                (getConfig CONFIG_UINT32_START_HONOR_POINTS
                   (ConfigUInt32.setConfig Store getConfig storeConfig GetIntDefault
                      CONFIG_UINT32_START_HONOR_POINTS "StartHonorPoints" 0 c1))); lia.
Qed.

End ConfigFacts.

(** ** The battleground week and the weekly maintenance *)

(** X13: the battleground week is on in the even weeks counted from the
    instant 1440518400, so it alternates from one week to the next. *)
Theorem BattleGroundWeek_alternates (now : Z) :
  1440518400 <= now < 1440518400 + 2 ^ 32 ->
  BattleGroundWeek now = Z.even ((now - 1440518400) / 604800) /\
  (now + 604800 < 1440518400 + 2 ^ 32 ->
     BattleGroundWeek (now + 604800) = negb (BattleGroundWeek now)).
Proof.
  assert (Hweek : forall t, 1440518400 <= t < 1440518400 + 2 ^ 32 ->
            BattleGroundWeek t = Z.even ((t - 1440518400) / 604800)).
  { intros t Ht. unfold BattleGroundWeek.
    rewrite (u32_small (t - 1440518400)) by lia.
    assert (Hq : (t - 1440518400) / 3600 / 24 / 7 = (t - 1440518400) / 604800).
    { by rewrite !Z.div_div by lia. }
    rewrite Hq.
    assert (0 <= (t - 1440518400) / 604800 < 7102).
    { split; [apply Z.div_pos; lia|]. apply Z.div_lt_upper_bound; lia. }
    rewrite i32_small by lia. rewrite Z.rem_mod_nonneg by lia.
    pose proof (Z.mod_pos_bound ((t - 1440518400) / 604800) 2 ltac:(lia)).
    rewrite u32_small by lia. by rewrite Zeven_mod. }
  intros Hnow. split; [by apply Hweek|]. intros Hnext.
  rewrite !Hweek by lia.
  replace (now + 604800 - 1440518400) with (now - 1440518400 + 1 * 604800) by lia.
  rewrite Z.div_add by lia. rewrite Z.even_add. simpl.
  by destruct (Z.even _).
Qed.

(** X14: the date of the next maintenance that
    [World::InitServerMaintenanceCheck] leaves is after today when the last
    maintenance day is at most six days old: the update of the world then
    requests no restart.  [World::ServerMaintenanceStart] leaves a date after
    today as long as the last maintenance day is less than two weeks old. *)
Theorem next_maintenance_is_after_today (mDate today : Z) :
  0 <= mDate -> mDate + 14 < 2 ^ 32 ->
  (today < ServerMaintenanceStart mDate today <-> today < mDate + 14) /\
  (mDate <= today < mDate + 7 ->
   forall result {hdr : Header} diff m_MaintenanceTimeChecker w,
     let m_NextMaintenanceDate := InitServerMaintenanceCheck result mDate today in
     today < m_NextMaintenanceDate /\
     (m_NextMaintenanceDate = mDate + 7 \/ result = Some m_NextMaintenanceDate) /\
     Update_maintenance today diff m_NextMaintenanceDate m_MaintenanceTimeChecker w
       = Some (m_MaintenanceTimeChecker, w)).
Proof.
  intros Hdate Hwrap.
  assert (Hstart : ServerMaintenanceStart mDate today =
            if mDate + 7 <=? today then mDate + 14 else mDate + 7).
  { unfold ServerMaintenanceStart. rewrite u32_small by lia.
    destruct (_ <=? _); lia. }
  split.
  - rewrite Hstart. destruct (Z.leb_spec (mDate + 7) today); lia.
  - intros Htoday result hdr diff checker w next.
    assert (Hnext : today < next /\ (next = mDate + 7 \/ result = Some next)).
    { unfold next, InitServerMaintenanceCheck. rewrite Hstart.
      rewrite (proj2 (Z.leb_gt (mDate + 7) today)) by lia.
      destruct result as [saved|].
      - destruct (Z.leb_spec saved today); [lia|]. split; [lia|]. by right.
      - rewrite u32_small by lia.
        destruct (Z.eqb_spec mDate today) as [->|Hne].
        + rewrite (proj2 (Z.leb_le today today)) by lia. lia.
        + rewrite (proj2 (Z.leb_gt (mDate + 7) today)) by lia. lia. }
    split; [apply Hnext|]. split; [apply Hnext|].
    unfold Update_maintenance. by rewrite (proj2 (Z.leb_gt next today)) by lia.
Qed.

(** ** The limit on the number of players *)

Section Capacity.
Context {hdr : Header}.

Lemma GetActiveSessionCount_small (w : World) :
  directory_ok w -> Z.of_nat (size (m_sessions w)) < 2 ^ 32 ->
  GetActiveSessionCount w =
    Z.of_nat (size (m_sessions w)) - Z.of_nat (length (m_QueuedSessions w)).
Proof.
  intros Hok Hsize. pose proof (directory_ok_queue_length w Hok).
  unfold GetActiveSessionCount. apply u32_small. lia.
Qed.

Lemma released_queue_length (sess : N) (w : World) :
  Z.of_nat (length (m_QueuedSessions (released sess w))) =
    Z.of_nat (length (m_QueuedSessions w))
    - (if bool_decide (sess ∈ m_QueuedSessions w) then 1 else 0)
    - (if release_frees_capacity sess w
          && negb (bool_decide (erase_before sess (m_QueuedSessions w)
                                ++ erase_iter sess (m_QueuedSessions w) = []))
       then 1 else 0).
Proof.
  pose proof (released_queue sess w) as Hq. simpl in Hq. rewrite Hq.
  pose proof (erase_decompose sess (m_QueuedSessions w)) as Hdec.
  set (q1 := erase_before sess (m_QueuedSessions w) ++ erase_iter sess (m_QueuedSessions w))
    in *.
  assert (Hlen : Z.of_nat (length q1) =
            Z.of_nat (length (m_QueuedSessions w))
            - (if bool_decide (sess ∈ m_QueuedSessions w) then 1 else 0)).
  { destruct (bool_decide (sess ∈ m_QueuedSessions w)).
    - destruct Hdec as (Hsplit & _). apply (f_equal length) in Hsplit.
      unfold q1. rewrite length_app in *. simpl in Hsplit. lia.
    - destruct Hdec as [Hb Hi]. unfold q1. rewrite Hb, Hi, app_nil_r. lia. }
  destruct (release_frees_capacity sess w && negb (bool_decide (q1 = []))) eqn:Hpromote.
  - apply andb_prop in Hpromote as [_ Hne]. apply negb_true_iff, bool_decide_eq_false in Hne.
    destruct q1 as [|x q1]; [done|]. simpl in *. lia.
  - lia.
Qed.

Lemma release_frees_capacity_bound (sess : N) (w : World) :
  directory_ok w -> 0 < m_playerLimit w ->
  Z.of_nat (size (m_sessions w)) < 2 ^ 31 ->
  release_frees_capacity sess w = true ->
  Z.of_nat (size (m_sessions w)) - Z.of_nat (length (m_QueuedSessions w))
  - (if bool_decide (sess ∈ m_QueuedSessions w) then 0 else 1) < m_playerLimit w.
Proof.
  intros Hok Hlimit Hsize. pose proof (directory_ok_queue_length w Hok) as Hlen.
  unfold release_frees_capacity. rewrite GetActiveSessionCount_small by (done || lia).
  rewrite (proj2 (Z.eqb_neq (m_playerLimit w) 0)) by lia. simpl.
  destruct (bool_decide (sess ∈ m_QueuedSessions w)); simpl.
  - rewrite i32_small by lia. lia.
  - destruct (Z.eqb_spec (Z.of_nat (size (m_sessions w))
                          - Z.of_nat (length (m_QueuedSessions w))) 0) as [Hz|Hnz]; simpl.
    + lia.
    + rewrite u32_small by lia. rewrite i32_small by lia. lia.
Qed.

Lemma erased_capacity (alive : N -> bool) (id : Z) (w : World) :
  directory_ok w -> 0 < m_playerLimit w ->
  Z.of_nat (size (m_sessions w)) < 2 ^ 31 ->
  GetActiveSessionCount w <= m_playerLimit w ->
  m_playerLimit (erased alive id w) = m_playerLimit w /\
  (size (m_sessions (erased alive id w)) <= size (m_sessions w))%nat /\
  GetActiveSessionCount (erased alive id w) <= m_playerLimit w.
Proof.
  intros Hok Hlimit Hsize Hactive.
  assert (Hok' : directory_ok (erased alive id w)).
  { apply (directory_ok_erase_dead_session alive id w); [done|].
    by apply erase_dead_session_run. }
  pose proof (directory_ok_queue_length _ Hok') as Hlen'.
  revert Hok' Hlen'. unfold erased.
  destruct (m_sessions w !! id) as [p|] eqn:Hp; [|done].
  destruct (alive p); [done|]. intros Hok' Hlen'.
  simpl in Hlen'. rewrite released_sessions in Hlen'.
  assert (Hsize' : size (base.delete id (m_sessions w)) = pred (size (m_sessions w))).
  { by rewrite map_size_delete, Hp. }
  assert (0 < size (m_sessions w))%nat.
  { destruct (decide (size (m_sessions w) = 0%nat)) as [Hz|]; [|lia].
    apply map_size_empty_iff in Hz. rewrite Hz in Hp. by rewrite lookup_empty in Hp. }
  split; [simpl; apply released_playerLimit|]. split; [simpl; rewrite released_sessions; lia|].
  rewrite GetActiveSessionCount_small in Hactive by (done || lia).
  rewrite GetActiveSessionCount_small by (done || simpl; rewrite released_sessions; lia).
  simpl. rewrite released_sessions, Hsize'.
  pose proof (released_queue_length p w) as Hq.
  pose proof (release_frees_capacity_bound p w Hok Hlimit Hsize) as Hbound.
  destruct (release_frees_capacity p w); simpl in Hq.
  - specialize (Hbound eq_refl).
    destruct (negb _), (bool_decide (p ∈ m_QueuedSessions w)); lia.
  - destruct (bool_decide (p ∈ m_QueuedSessions w)); lia.
Qed.

Lemma replaced_queue (id : Z) (w : World) :
  m_QueuedSessions (replaced id w) =
    match m_sessions w !! id with
    | Some old => m_QueuedSessions (released old (sends [EvKickPlayer old] w))
    | None => m_QueuedSessions w
    end.
Proof. unfold replaced. by destruct (m_sessions w !! id). Qed.

Lemma joined_capacity (s : N) (so : WorldSession) (w : World) :
  directory_ok w -> objects w !! s = Some so -> ~ in_directory w s ->
  security so = SEC_PLAYER ->
  0 < m_playerLimit w < 2 ^ 31 ->
  Z.of_nat (size (m_sessions w)) < 2 ^ 31 - 1 ->
  GetActiveSessionCount w <= m_playerLimit w ->
  GetActiveSessionCount (joined s (accountId so) (security so) w) <= m_playerLimit w.
Proof.
  intros Hok Hs Hnew Hplain Hlimit Hsize Hactive.
  pose proof (directory_ok_joined s so w Hok Hs Hnew) as Hok'.
  pose proof (directory_ok_queue_length _ Hok') as Hlen'.
  pose proof (directory_ok_queue_length _ Hok) as Hlen.
  rewrite joined_sessions, joined_queue in Hlen'.
  assert (Hsize' : Z.of_nat (size (<[accountId so := s]> (m_sessions w))) =
            Z.of_nat (size (m_sessions w))
            + match m_sessions w !! accountId so with Some _ => 0 | None => 1 end).
  { rewrite map_size_insert. destruct (m_sessions w !! accountId so); simpl; lia. }
  assert (Hsize1 : Z.of_nat (size (<[accountId so := s]> (m_sessions w))) <=
            Z.of_nat (size (m_sessions w)) + 1).
  { rewrite Hsize'. destruct (m_sessions w !! accountId so); lia. }
  rewrite GetActiveSessionCount_small in Hactive by (done || lia).
  rewrite GetActiveSessionCount_small by (done || rewrite joined_sessions; lia).
  rewrite joined_sessions, joined_queue, Hsize'.
  rewrite length_app in Hlen' |- *.
  destruct (goes_to_queue (accountId so) (security so) w) eqn:Hgo.
  - (* queued *)
    rewrite replaced_queue in Hlen' |- *. simpl length in *.
    destruct (m_sessions w !! accountId so) as [old|] eqn:Hold; [|lia].
    pose proof (released_queue_length old (sends [EvKickPlayer old] w)) as Hq.
    pose proof (release_frees_capacity_bound old (sends [EvKickPlayer old] w)
                  (directory_ok_sends _ _ Hok)) as Hbound.
    simpl in Hq, Hbound.
    destruct (release_frees_capacity old (sends [EvKickPlayer old] w)); simpl in Hq.
    + specialize (Hbound ltac:(lia) ltac:(lia) eq_refl).
      destruct (negb _), (bool_decide (old ∈ m_QueuedSessions w)); lia.
    + destruct (bool_decide (old ∈ m_QueuedSessions w)); lia.
  - (* admitted: the map as a whole is within the limit *)
    simpl length in *. unfold goes_to_queue in Hgo.
    assert (Hp : u32 (GetPlayerAmountLimit w) = m_playerLimit w).
    { unfold GetPlayerAmountLimit. rewrite (proj2 (Z.leb_le 0 _)) by lia.
      apply u32_small. lia. }
    rewrite Hp, Hplain, Z.eqb_refl, andb_true_r in Hgo.
    rewrite (proj2 (Z.ltb_lt 0 _)) in Hgo by lia. simpl in Hgo.
    apply Z.leb_gt in Hgo. unfold effective_session_count in Hgo.
    destruct (m_sessions w !! accountId so) as [old|] eqn:Hold.
    + assert (0 < size (m_sessions w))%nat.
      { destruct (decide (size (m_sessions w) = 0%nat)) as [Hz|]; [|lia].
        apply map_size_empty_iff in Hz. rewrite Hz in Hold. by rewrite lookup_empty in Hold. }
      rewrite (u32_small (Z.of_nat (size (m_sessions w)))) in Hgo by lia.
      destruct (bool_decide (old ∈ m_QueuedSessions w)).
      * lia.
      * rewrite u32_small in Hgo by lia. lia.
    + rewrite (u32_small (Z.of_nat (S (size (m_sessions w))))) in Hgo by lia.
      rewrite u32_small in Hgo by lia. lia.
Qed.

(** X16: the limit on the number of players is respected: when the active
    sessions are within a positive limit, they are still within it once a
    new session of the plain tier is added, and once the sessions are
    updated. *)
Theorem player_limit_is_respected (w : World) :
  directory_ok w ->
  0 < m_playerLimit w < 2 ^ 31 ->
  Z.of_nat (size (m_sessions w)) < 2 ^ 31 - 1 ->
  GetActiveSessionCount w <= m_playerLimit w ->
  (forall s so,
     objects w !! s = Some so -> ~ in_directory w s -> security so = SEC_PLAYER ->
     exists w', AddSession_ s w = Some (tt, w') /\
       m_playerLimit w' = m_playerLimit w /\
       GetActiveSessionCount w' <= m_playerLimit w') /\
  (forall alive,
     exists w', UpdateSessions [] alive w = Some (tt, w') /\
       m_playerLimit w' = m_playerLimit w /\
       GetActiveSessionCount w' <= m_playerLimit w').
Proof.
  intros Hok Hlimit Hsize Hactive. split.
  - intros s so Hs Hnew Hplain.
    destruct (AddSession__cases s so w Hok Hs Hnew) as (w' & Hrun & _ & [-> | ->]).
    + exists (refused s w). split; [done|]. split; [done|]. exact Hactive.
    + exists (joined s (accountId so) (security so) w). split; [done|].
      assert (Hsame : m_playerLimit (joined s (accountId so) (security so) w)
                      = m_playerLimit w).
      { unfold joined. destruct (goes_to_queue _ _ _); [|destruct (0 <? _)]; simpl;
          apply replaced_playerLimit. }
      split; [done|]. rewrite Hsame. by apply joined_capacity.
  - intros alive.
    destruct (erase_dead_sessions_run alive (session_keys w) w Hok)
      as (w' & Hrun & _).
    exists w'. split.
    { unfold UpdateSessions. simpl. unfold bind at 1. unfold ret at 1.
      unfold bind at 1. unfold get at 1. done. }
    enough (directory_ok w' /\ m_playerLimit w' = m_playerLimit w /\
            (size (m_sessions w') <= size (m_sessions w))%nat /\
            GetActiveSessionCount w' <= m_playerLimit w) as (_ & -> & _ & ?) by done.
    revert Hrun.
    apply (for_each_preserves
             (fun w2 => directory_ok w2 /\ m_playerLimit w2 = m_playerLimit w /\
                (size (m_sessions w2) <= size (m_sessions w))%nat /\
                GetActiveSessionCount w2 <= m_playerLimit w)
             (erase_dead_session alive)); [|done].
    intros id w2 w3 (Hok2 & Hlimit2 & Hsize2 & Hactive2) Hstep.
    split; [by apply (directory_ok_erase_dead_session alive id w2)|].
    rewrite (erase_dead_session_run alive id w2 Hok2) in Hstep. injection Hstep as <-.
    destruct (erased_capacity alive id w2) as (Hl & Hs & Ha); [done | lia | lia | lia |].
    split; [congruence|]. split; [lia|]. lia.
Qed.

End Capacity.

(** ** The battleground windows *)

(** X17: the update takes the switch of the battleground windows through
    the instants that the game time has reached, in order, and sends the
    statement of each of them once; once the last is reached the windows are
    cleared.  A second update at the same time does nothing. *)
Theorem battleground_windows_follow_the_game_time (now : Z) (b : BattleGroundTimes) :
  0 < battleground_time_Start1 b <= battleground_time_End1 b ->
  battleground_time_End1 b <= battleground_time_Start2 b ->
  battleground_time_Start2 b <= battleground_time_End2 b ->
  0 <= battleground_kaiguan b <= windows_reached now b ->
  battleground_kaiguan b <= 3 ->
  let reached := windows_reached now b in
  let b' := if reached =? 4 then mkBattleGroundTimes 0 0 0 0 0 else set_kaiguan reached b in
  Update_battleground now b =
    (b', concat (drop (Z.to_nat (battleground_kaiguan b))
                   (take (Z.to_nat reached) window_statements))) /\
  Update_battleground now b' = (b', []).
Proof.
  destruct b as [s1 e1 s2 e2 k]. unfold windows_reached, Update_battleground. simpl.
  intros H1 H2 H3 Hk Hk3.
  assert (Hcases : k = 0 \/ k = 1 \/ k = 2 \/ k = 3) by lia.
  destruct (Z.leb_spec s1 now), (Z.leb_spec e1 now), (Z.leb_spec s2 now),
    (Z.leb_spec e2 now); try lia;
    destruct Hcases as [-> | [-> | [-> | ->]]]; try lia; simpl;
    repeat (match goal with
            | |- context [?x =? 0] =>
                lazymatch x with
                | 0 => fail
                | _ => rewrite (proj2 (Z.eqb_neq x 0)) by lia
                end
            | |- context [?x <=? now] =>
                first [rewrite (proj2 (Z.leb_le x now)) by lia
                      | rewrite (proj2 (Z.leb_gt x now)) by lia]
            end; simpl); done.
Qed.

(** ** The session objects are deleted or filed *)

Section Ownership.
Context {hdr : Header}.

Lemma directory_ok_in_map (w : World) (q : N) :
  directory_ok w -> in_directory w q -> exists id, m_sessions w !! id = Some q.
Proof.
  intros Hok [Hmap | Hqueue]; [done|].
  destruct (ok_queued _ Hok q Hqueue) as (id & _ & Hid). eauto.
Qed.

Lemma replaced_live (id : Z) (w : World) (q : N) :
  is_Some (objects (replaced id w) !! q) <->
  is_Some (objects w !! q) /\ m_sessions w !! id <> Some q.
Proof.
  unfold replaced. destruct (m_sessions w !! id) as [old|] eqn:Hold.
  - simpl. rewrite lookup_delete. case_decide as Hq.
    + subst. split; [by intros [? ?]|]. by intros [_ []].
    + rewrite released_live. simpl. split; [|tauto].
      intros H. split; [done|]. congruence.
  - split; [|tauto]. intros H. by split.
Qed.

Lemma joined_live (s : N) (id sec : Z) (w : World) (q : N) :
  is_Some (objects (joined s id sec w) !! q) <->
  is_Some (objects w !! q) /\ m_sessions w !! id <> Some q.
Proof.
  rewrite joined_objects. destruct (goes_to_queue id sec w).
  - rewrite lookup_alter. case_decide; [subst; rewrite fmap_is_Some|];
      apply replaced_live.
  - apply replaced_live.
Qed.

Lemma joined_in_directory (s : N) (id sec : Z) (w : World) (q : N) :
  in_directory (joined s id sec w) q -> q = s \/ in_directory w q.
Proof.
  intros [[id' Hq] | Hq].
  - rewrite joined_sessions in Hq. destruct (decide (id' = id)) as [->|Hne].
    + rewrite lookup_insert_eq in Hq. left. congruence.
    + rewrite lookup_insert_ne in Hq by done. right. left. eauto.
  - rewrite joined_queue in Hq. apply elem_of_app in Hq as [Hq | Hq].
    + right. right. by apply (replaced_queue_subseteq id).
    + destruct (goes_to_queue id sec w); [|by apply elem_of_nil in Hq].
      apply list_elem_of_singleton in Hq. by left.
Qed.

(** One session is taken from [addSessQueue]. *)
Lemma AddSession__ownership (s : N) (so : WorldSession) (w : World) :
  directory_ok w -> objects w !! s = Some so -> ~ in_directory w s ->
  exists w', AddSession_ s w = Some (tt, w') /\ directory_ok w' /\
    (forall q, is_Some (objects w' !! q) -> is_Some (objects w !! q)) /\
    (forall q, q <> s -> ~ in_directory w q -> is_Some (objects w !! q) ->
       is_Some (objects w' !! q) /\ ~ in_directory w' q) /\
    (forall q, is_Some (objects w' !! q) -> in_directory w q \/ q = s ->
       exists id, m_sessions w' !! id = Some q).
Proof.
  intros Hok Hs Hnew.
  destruct (AddSession__cases s so w Hok Hs Hnew) as (w' & Hrun & Hok' & [-> | ->]);
    (eexists; split; [exact Hrun|]; split; [exact Hok'|]).
  - (* refused *)
    split; [|split].
    + intros q. unfold refused. simpl. rewrite lookup_delete. by case_decide.
    + intros q Hq Hout Hlive. split; [|done].
      unfold refused. simpl. by rewrite lookup_delete_ne.
    + intros q Hlive [Hin | ->].
      * by apply (directory_ok_in_map w).
      * unfold refused in Hlive. simpl in Hlive.
        rewrite lookup_delete_eq in Hlive. by destruct Hlive.
  - (* filed *)
    split; [|split].
    + intros q [Hlive _]%joined_live. done.
    + intros q Hq Hout Hlive. split.
      * apply joined_live. split; [done|]. intros Hold. apply Hout. left. eauto.
      * intros [-> | Hin]%joined_in_directory; done.
    + intros q [Hlive Hold]%joined_live [Hin | ->].
      * destruct (directory_ok_in_map w q Hok Hin) as [id Hid].
        exists id. rewrite joined_sessions, lookup_insert_ne; [done|]. congruence.
      * exists (accountId so). by rewrite joined_sessions, lookup_insert_eq.
Qed.

(** The sessions of [addSessQueue] are taken in turn. *)
Lemma AddSession__all_ownership (l : list N) (w : World) :
  directory_ok w -> NoDup l ->
  (forall s, s ∈ l -> is_Some (objects w !! s) /\ ~ in_directory w s) ->
  exists w', for_each AddSession_ l w = Some (tt, w') /\ directory_ok w' /\
    (forall q, is_Some (objects w' !! q) -> is_Some (objects w !! q)) /\
    (forall q, is_Some (objects w' !! q) ->
       (exists id, m_sessions w' !! id = Some q) \/
       (~ in_directory w q /\ (q ∉ l))).
Proof.
  revert w. induction l as [|s l IH]; intros w Hok Hnd Hpending.
  - exists w. split; [done|]. split; [done|]. split; [done|].
    intros q Hlive.
    destruct (decide (q ∈ (map_img (m_sessions w) : gset N))) as [Hin|Hout].
    + left. by apply elem_of_map_img in Hin.
    + right. split; [|by intros ?%elem_of_nil].
      intros [id Hid]%directory_ok_in_map; [|done].
      apply Hout, elem_of_map_img. eauto.
  - apply NoDup_cons in Hnd as [Hs Hnd].
    destruct (Hpending s) as [[so Hso] Hnew]; [apply elem_of_cons; by left|].
    destruct (AddSession__ownership s so w Hok Hso Hnew)
      as (w1 & Hrun1 & Hok1 & Hold1 & Hout1 & Hin1).
    destruct (IH w1 Hok1 Hnd) as (w' & Hrun & Hok' & Hold & Hfiled).
    { intros s' Hs'. destruct (Hpending s') as [Hlive' Hnew']; [apply elem_of_cons; by right|].
      apply Hout1; [|done..]. by intros ->. }
    exists w'. split; [simpl; unfold bind; by rewrite Hrun1|].
    split; [done|]. split; [by intros q ?%Hold%Hold1|].
    intros q Hlive. destruct (Hfiled q Hlive) as [Hmap | [Hout Hq]]; [by left|].
    right.
    assert (Hnot : ~ (in_directory w q \/ q = s)).
    { intros Hcase. apply Hout. left. by apply Hin1; [apply Hold|]. }
    split; [tauto|]. intros [-> | ?]%elem_of_cons; tauto.
Qed.

(** X19: [World::UpdateSessions] takes the sessions that were handed over,
    distinct live sessions that are not in the directory yet, without using
    a deleted session, and loses none: every session object there is
    afterwards is filed in the map and alive, or was never given to the
    world. *)
Theorem UpdateSessions_files_or_deletes (addSessQueue : list N) (alive : N -> bool)
    (w : World) :
  directory_ok w -> NoDup addSessQueue ->
  (forall s, s ∈ addSessQueue -> is_Some (objects w !! s) /\ ~ in_directory w s) ->
  exists w', UpdateSessions addSessQueue alive w = Some (tt, w') /\
    directory_ok w' /\
    (forall id q, m_sessions w' !! id = Some q -> alive q = true) /\
    (forall q, is_Some (objects w' !! q) ->
       (exists id, m_sessions w' !! id = Some q) \/
       (is_Some (objects w !! q) /\ ~ in_directory w q /\ (q ∉ addSessQueue))).
Proof.
  intros Hok Hnd Hpending.
  destruct (AddSession__all_ownership addSessQueue w Hok Hnd Hpending)
    as (w1 & Hrun1 & Hok1 & Hold1 & Hfiled1).
  destruct (erase_dead_sessions_run alive (session_keys w1) w1 Hok1)
    as (w' & Hrun & Hok' & Hmap & Hobj & _).
  exists w'. split; [|split; [done|split]].
  - unfold UpdateSessions. unfold bind at 1. rewrite Hrun1.
    unfold bind at 1. unfold get at 1. done.
  - intros id q. rewrite Hmap. destruct (m_sessions w1 !! id) as [p|] eqn:Hp; [|done].
    rewrite decide_True by (apply session_keys_spec; eauto).
    destruct (alive p) eqn:Hal; [|done]. by intros [= <-].
  - intros q [Hlive1 Hkept]%Hobj.
    destruct (Hfiled1 q Hlive1) as [[id Hid] | [Hout Hq]].
    + left. exists id. rewrite Hmap, Hid.
      rewrite decide_True by (apply session_keys_spec; eauto).
      destruct (alive q) eqn:Hal; [done|]. exfalso. apply Hkept. exists id.
      split; [apply session_keys_spec; eauto | done].
    + right. split; [by apply Hold1 | done].
Qed.

End Ownership.

(** ** The cleanup before the world stops *)

Section CleanupBeforeStop.
Context {hdr : Header}.

Lemma sends_to_only_refl (l : list N) (w : World) :
  m_QueuedSessions w = [] -> sends_to_only l w w.
Proof.
  intros Hq. split; [rewrite Hq; by intros x ?%elem_of_nil|].
  exists []. split; [by rewrite app_nil_r|]. by intros e p ?%elem_of_nil.
Qed.

Lemma sends_to_only_step (l : list N) (w0 w w' : World) :
  sends_to_only l w0 w ->
  (forall x, x ∈ m_QueuedSessions w' -> x ∈ m_QueuedSessions w \/ x ∈ l) ->
  (exists new, sent w' = sent w ++ new /\
     forall e p, e ∈ new -> event_session e = Some p ->
       p ∈ m_QueuedSessions w \/ p ∈ l \/ e = EvKickPlayer p) ->
  sends_to_only l w0 w'.
Proof.
  intros (Hqueue & later & Hsent & Hlater) Hqueue' (new & Hsent' & Hnew). split.
  - intros x [Hx | Hx]%Hqueue'; [by apply Hqueue | done].
  - exists (later ++ new). split; [by rewrite Hsent', Hsent, app_assoc|].
    intros e p [He | He]%elem_of_app Hp; [by apply (Hlater e)|].
    destruct (Hnew e p He Hp) as [Hq | [Hl | Hk]]; [left; by apply Hqueue | by left | by right].
Qed.

(** What admission sends once the old session is replaced goes to the new
    session, or to no session. *)
Lemma joined_sent_sessions (s : N) (id sec : Z) (w : World) :
  exists new, sent (joined s id sec w) = sent (replaced id w) ++ new /\
    forall e p, e ∈ new -> event_session e = Some p -> p = s.
Proof.
  unfold joined. destruct (goes_to_queue id sec w).
  - eexists [_]. simpl. split; [reflexivity|].
    intros e p ->%list_elem_of_singleton. simpl. congruence.
  - destruct (0 <? _); simpl.
    + eexists [_; _]. rewrite <- app_assoc. simpl. split; [reflexivity|].
      intros e p [-> | ->%list_elem_of_singleton]%elem_of_cons; simpl; congruence.
    + eexists [_]. split; [reflexivity|].
      intros e p ->%list_elem_of_singleton. simpl. congruence.
Qed.

Lemma sends_to_only_refused (l : list N) (w0 w : World) (s : N) :
  sends_to_only l w0 w -> sends_to_only l w0 (refused s w).
Proof.
  intros Hinv. apply (sends_to_only_step l w0 w); [done|by left|].
  exists [EvKickPlayer s]. split; [done|].
  intros e p ->%list_elem_of_singleton [= <-]. by right; right.
Qed.

Lemma sends_to_only_joined (l : list N) (w0 w : World) (s : N) (id sec : Z) :
  s ∈ l -> sends_to_only l w0 w -> sends_to_only l w0 (joined s id sec w).
Proof.
  intros Hs Hinv. apply (sends_to_only_step l w0 w); [done| |].
  - intros x. rewrite joined_queue. intros [Hx | Hx]%elem_of_app.
    + left. by apply (replaced_queue_subseteq id).
    + right. destruct (goes_to_queue id sec w); [|by apply elem_of_nil in Hx].
      by apply list_elem_of_singleton in Hx as ->.
  - destruct (joined_sent_sessions s id sec w) as (new & Hsent & Hnew).
    rewrite replaced_sent in Hsent.
    eexists. split; [rewrite Hsent, <- app_assoc; reflexivity|].
    intros e p [He | He]%elem_of_app Hp.
    + destruct (m_sessions w !! id) as [old|]; [|by apply elem_of_nil in He].
      apply elem_of_cons in He as [-> | He].
      * injection Hp as <-. by right; right.
      * apply released_events_sessions in He as (x & Hx & Hex). simpl in Hx.
        left. congruence.
    + right; left. by rewrite (Hnew e p He Hp).
Qed.

Lemma sends_to_only_erased (l : list N) (w0 w : World) (alive : N -> bool) (id : Z) :
  sends_to_only l w0 w -> sends_to_only l w0 (erased alive id w).
Proof.
  intros Hinv. apply (sends_to_only_step l w0 w); [done| |].
  - intros x ?%erased_queue. by left.
  - unfold erased. destruct (m_sessions w !! id) as [p|].
    2:{ exists []. split; [by rewrite app_nil_r|]. by intros e q ?%elem_of_nil. }
    destruct (alive p).
    { exists []. split; [by rewrite app_nil_r|]. by intros e q ?%elem_of_nil. }
    simpl. eexists. split; [apply released_sent_prefix|].
    intros e q (x & Hx & Hex)%released_events_sessions Hq. left. congruence.
Qed.

(** The sessions of [addSessQueue] are taken in turn: admission messages go
    to them only. *)
Lemma AddSession__all_sends (l0 l : list N) (w0 w : World) :
  directory_ok w -> NoDup l -> (forall s, s ∈ l -> s ∈ l0) ->
  (forall s, s ∈ l -> is_Some (objects w !! s) /\ ~ in_directory w s) ->
  sends_to_only l0 w0 w ->
  exists w', for_each AddSession_ l w = Some (tt, w') /\ directory_ok w' /\
    sends_to_only l0 w0 w'.
Proof.
  revert w. induction l as [|s l IH]; intros w Hok Hnd Hl0 Hpending Hinv.
  - by exists w.
  - apply NoDup_cons in Hnd as [Hs Hnd].
    destruct (Hpending s) as [[so Hso] Hnew]; [apply elem_of_cons; by left|].
    destruct (AddSession__ownership s so w Hok Hso Hnew)
      as (w1 & Hrun1 & Hok1 & _ & Hout1 & _).
    assert (Hinv1 : sends_to_only l0 w0 w1).
    { destruct (AddSession__cases s so w Hok Hso Hnew) as (w1' & Hrun1' & _ & Hcase).
      rewrite Hrun1 in Hrun1'. injection Hrun1' as <-.
      destruct Hcase as [-> | ->].
      - by apply sends_to_only_refused.
      - apply sends_to_only_joined; [|done]. apply Hl0, elem_of_cons. by left. }
    destruct (IH w1 Hok1 Hnd) as (w' & Hrun & Hok' & Hinv'); [| |done|].
    { intros s' Hs'. apply Hl0, elem_of_cons. by right. }
    { intros s' Hs'. destruct (Hpending s') as [Hlive' Hnew']; [apply elem_of_cons; by right|].
      apply Hout1; [|done..]. by intros ->. }
    exists w'. split; [simpl; unfold bind; by rewrite Hrun1|]. done.
Qed.

Lemma erase_dead_sessions_sends (l0 : list N) (w0 : World) (alive : N -> bool)
    (l : list Z) (w w' : World) :
  directory_ok w -> sends_to_only l0 w0 w ->
  for_each (erase_dead_session alive) l w = Some (tt, w') ->
  sends_to_only l0 w0 w'.
Proof.
  intros Hok Hinv Hrun.
  apply (for_each_preserves
           (fun w2 => directory_ok w2 /\ sends_to_only l0 w0 w2)
           (erase_dead_session alive) l
           (fun id w2 w3 H23 Hstep =>
              ltac:(destruct H23 as (Hok2 & Hinv2);
                    split; [by apply (directory_ok_erase_dead_session alive id w2)|];
                    rewrite (erase_dead_session_run alive id w2 Hok2) in Hstep;
                    injection Hstep as <-;
                    by apply sends_to_only_erased))
           w w'); done.
Qed.

(** When no session was handed over, [World::CleanupsBeforeStop] sends the
    kicks and nothing else, and leaves the sessions that are alive. *)
Lemma CleanupsBeforeStop_nothing_handed_over (alive : N -> bool) (w : World) :
  directory_ok w ->
  exists w', CleanupsBeforeStop [] alive w = Some (tt, w') /\
    sent w' = sent w ++ (EvKickPlayer <$> sessions_in_order w) /\
    m_QueuedSessions w' = [] /\
    (forall id, m_sessions w' !! id =
       match m_sessions w !! id with
       | Some p => if alive p then Some p else None
       | None => None
       end) /\
    (forall id p, m_sessions w !! id = Some p -> alive p = false -> objects w' !! p = None).
Proof.
  intros Hok.
  set (w1 := sends (EvKickPlayer <$> sessions_in_order w) (set_QueuedSessions [] w)).
  assert (Hok1 : directory_ok w1).
  { by apply directory_ok_sends, directory_ok_no_queue. }
  destruct (erase_dead_sessions_run alive (session_keys w1) w1 Hok1)
    as (w' & Hrun & Hok' & Hmap & Hobj & Hqueue).
  assert (Hinv : m_QueuedSessions w' = [] /\ sent w' = sent w1).
  { revert Hrun.
    apply (for_each_preserves
             (fun w2 => directory_ok w2 /\ m_QueuedSessions w2 = [] /\ sent w2 = sent w1)
             (erase_dead_session alive) (session_keys w1)
             (fun id w2 w3 H23 Hstep =>
                ltac:(destruct H23 as (Hok2 & Hq2 & Hs2);
                      rewrite (erase_dead_session_run alive id w2 Hok2) in Hstep;
                      injection Hstep as <-;
                      destruct (erased_empty_queue alive id w2 Hq2) as [Hq3 Hs3];
                      split; [by apply (directory_ok_erase_dead_session alive id w2),
                                 erase_dead_session_run|];
                      split; [done | congruence]))
             w1 w'); done. }
  destruct Hinv as [Hq' Hsent'].
  exists w'. split; [|split; [done|split; [done|split]]].
  - unfold CleanupsBeforeStop. unfold bind at 1. rewrite KickAll_run by done.
    fold w1. unfold UpdateSessions. simpl. unfold bind at 1. unfold ret at 1.
    unfold bind at 1. unfold get at 1. done.
  - intros id. rewrite Hmap. change (m_sessions w1) with (m_sessions w).
    destruct (m_sessions w !! id) as [p|] eqn:Hp; [|done].
    rewrite decide_True; [done|]. apply (session_keys_spec w1). simpl. eauto.
  - intros id p Hp Hal. apply eq_None_not_Some. rewrite Hobj. intros [_ []].
    exists id. split; [|done]. apply (session_keys_spec w1). simpl. eauto.
Qed.

(** With the sessions that were handed over and not yet added,
    [World::CleanupsBeforeStop] runs to its end: the kicks of the sessions of
    the map come first, and what follows lets in, or queues, sessions that
    were handed over only. *)
Lemma CleanupsBeforeStop_run (addSessQueue : list N) (alive : N -> bool) (w : World) :
  directory_ok w -> NoDup addSessQueue ->
  (forall s, s ∈ addSessQueue -> is_Some (objects w !! s) /\ ~ in_directory w s) ->
  exists w' later,
    CleanupsBeforeStop addSessQueue alive w = Some (tt, w') /\
    sent w' = sent w ++ (EvKickPlayer <$> sessions_in_order w) ++ later /\
    (forall e p, e ∈ later -> event_session e = Some p ->
       p ∈ addSessQueue \/ e = EvKickPlayer p) /\
    (forall x, x ∈ m_QueuedSessions w' -> x ∈ addSessQueue) /\
    (forall id q, m_sessions w' !! id = Some q -> alive q = true).
Proof.
  intros Hok Hnd Hpending.
  set (w1 := sends (EvKickPlayer <$> sessions_in_order w) (set_QueuedSessions [] w)).
  assert (Hok1 : directory_ok w1).
  { by apply directory_ok_sends, directory_ok_no_queue. }
  destruct (AddSession__all_sends addSessQueue addSessQueue w1 w1 Hok1 Hnd)
    as (w2 & Hrun2 & Hok2 & Hinv2); [done| |by apply sends_to_only_refl|].
  { intros s Hs. destruct (Hpending s Hs) as [Hlive Hnew]. split; [done|].
    intros [Hmap | Hq]; [|by apply elem_of_nil in Hq]. apply Hnew. by left. }
  destruct (erase_dead_sessions_run alive (session_keys w2) w2 Hok2)
    as (w' & Hrun & Hok' & Hmap & _).
  destruct (erase_dead_sessions_sends addSessQueue w1 alive _ w2 w' Hok2 Hinv2 Hrun)
    as (Hqueue & later & Hsent & Hlater).
  exists w', later. split; [|split; [|split; [done|split; [done|]]]].
  - unfold CleanupsBeforeStop. unfold bind at 1. rewrite KickAll_run by done.
    fold w1. unfold UpdateSessions. unfold bind at 1. rewrite Hrun2.
    unfold bind at 1. unfold get at 1. done.
  - rewrite Hsent. simpl. by rewrite app_assoc.
  - intros id q. rewrite Hmap. destruct (m_sessions w2 !! id) as [p|] eqn:Hp; [|done].
    rewrite decide_True by (apply session_keys_spec; eauto).
    destruct (alive p) eqn:Hal; [|done]. by intros [= <-].
Qed.

(** X2: [World::CleanupsBeforeStop], given the sessions that were handed over
    and not yet added, runs to its end.  It first kicks every session of the
    map, each once, before anything else is sent.  No session of the map or
    of the queue is let in or sent a position afterwards: what follows the
    kicks goes to sessions that were handed over, or is the kick of a session
    one of them replaces, and only sessions that were handed over are in the
    queue at the end.  The map is left with sessions whose update succeeded
    only.  When no session was handed over, nothing follows the kicks, the
    queue is left empty, the map keeps exactly the sessions whose update
    succeeded, and the others are deleted. *)
Theorem CleanupsBeforeStop_kicks_and_lets_nobody_in (addSessQueue : list N)
    (alive : N -> bool) (w : World) :
  directory_ok w -> NoDup addSessQueue ->
  (forall s, s ∈ addSessQueue -> is_Some (objects w !! s) /\ ~ in_directory w s) ->
  exists w' kicks later,
    CleanupsBeforeStop addSessQueue alive w = Some (tt, w') /\
    sent w' = sent w ++ kicks ++ later /\
    NoDup kicks /\
    (forall e, e ∈ kicks <-> exists id p, m_sessions w !! id = Some p /\ e = EvKickPlayer p) /\
    (forall e p, e ∈ later -> event_session e = Some p ->
       p ∈ addSessQueue \/ e = EvKickPlayer p) /\
    (forall x, x ∈ m_QueuedSessions w' -> x ∈ addSessQueue) /\
    (forall id q, m_sessions w' !! id = Some q -> alive q = true) /\
    (addSessQueue = [] ->
       later = [] /\ m_QueuedSessions w' = [] /\
       (forall id, m_sessions w' !! id =
          match m_sessions w !! id with
          | Some p => if alive p then Some p else None
          | None => None
          end) /\
       (forall id p, m_sessions w !! id = Some p -> alive p = false ->
          objects w' !! p = None)).
Proof.
  intros Hok Hnd Hpending.
  destruct (CleanupsBeforeStop_run addSessQueue alive w Hok Hnd Hpending)
    as (w' & later & Hrun & Hsent & Hlater & Hqueue & Halive).
  exists w', (EvKickPlayer <$> sessions_in_order w), later.
  split; [done|]. split; [done|]. split; [|split; [|split; [done|split; [done|split; [done|]]]]].
  - apply NoDup_fmap_2; [by intros p q [= ->] | by apply sessions_in_order_NoDup].
  - intros e. rewrite list_elem_of_fmap. split.
    + intros (p & -> & [id Hid]%sessions_in_order_spec). eauto.
    + intros (id & p & Hid & ->). exists p. split; [done|].
      apply sessions_in_order_spec. eauto.
  - intros ->.
    destruct (CleanupsBeforeStop_nothing_handed_over alive w Hok)
      as (w'' & Hrun' & Hsent' & Hq' & Hmap' & Hobj').
    rewrite Hrun in Hrun'. injection Hrun' as <-.
    split; [|done].
    rewrite Hsent in Hsent'. apply app_inv_head in Hsent'.
    rewrite <- (app_nil_r (EvKickPlayer <$> sessions_in_order w)) in Hsent' at 2.
    by apply app_inv_head in Hsent'.
Qed.

End CleanupBeforeStop.

(** ** Worked examples of the further properties *)

(** X1, on the world of [queue_of_one] when session 1 is dead: account 10 is
    removed and its session deleted, account 20 stays. *)
Lemma UpdateSessions_keeps_the_alive_witness :
  exists w',
    UpdateSessions (hdr := example_header) [] all_but_1
      (world_after (hdr := example_header) queue_of_one) = Some (tt, w') /\
    m_sessions w' !! 10 = None /\ m_sessions w' !! 20 = Some 2%N /\
    objects w' !! 1%N = None.
Proof.
  destruct (UpdateSessions_keeps_the_alive (hdr := example_header) all_but_1
              (world_after (hdr := example_header) queue_of_one))
    as (w' & Hrun & _ & Hmap & Hdead & _).
  { apply (reachable_directory_ok (hdr := example_header)), world_after_reachable.
    vm_compute. discriminate. }
  exists w'. split; [exact Hrun|]. split; [|split].
  - rewrite Hmap. vm_compute. reflexivity.
  - rewrite Hmap. vm_compute. reflexivity.
  - apply (Hdead 10 1%N); vm_compute; reflexivity.
Defined.

(** X2, on the world of [queue_of_one] when nothing is handed over and no
    session is alive: the three sessions are kicked and nothing else is sent,
    the map and the queue are left empty.  On the world of [fourth_pending]
    when session 4 is handed over: after the kicks session 3, which waited in
    the queue, is neither let in nor sent a position, and is not in the queue
    any more. *)
Lemma CleanupsBeforeStop_kicks_and_lets_nobody_in_witness :
  (exists w' kicks,
     CleanupsBeforeStop (hdr := example_header) [] (fun _ => false)
       (world_after (hdr := example_header) queue_of_one) = Some (tt, w') /\
     sent w' = sent (world_after (hdr := example_header) queue_of_one) ++ kicks /\
     (forall e, e ∈ kicks <-> e = EvKickPlayer 1 \/ e = EvKickPlayer 2 \/ e = EvKickPlayer 3) /\
     m_sessions w' = ∅ /\ m_QueuedSessions w' = []) /\
  (exists w' kicks later,
     CleanupsBeforeStop (hdr := example_header) [4%N] (fun _ => true)
       (world_after (hdr := example_header) fourth_pending) = Some (tt, w') /\
     sent w' = sent (world_after (hdr := example_header) fourth_pending) ++ kicks ++ later /\
     EvKickPlayer 3 ∈ kicks /\
     (EvAuthOk 3 ∉ later) /\ (forall pos, EvSendAuthWaitQue 3 pos ∉ later) /\
     (3%N ∉ m_QueuedSessions w')).
Proof.
  split.
  - destruct (CleanupsBeforeStop_kicks_and_lets_nobody_in (hdr := example_header)
                [] (fun _ => false) (world_after (hdr := example_header) queue_of_one))
      as (w' & kicks & later & Hrun & Hsent & _ & Hkicks & _ & _ & _ & Hnone).
    + apply (reachable_directory_ok (hdr := example_header)), world_after_reachable.
      vm_compute. discriminate.
    + apply NoDup_nil_2.
    + by intros s ?%elem_of_nil.
    + destruct (Hnone eq_refl) as (-> & Hqueue & Hmap & _).
      exists w', kicks. split; [exact Hrun|]. rewrite app_nil_r in Hsent.
      split; [exact Hsent|]. split; [|split; [|exact Hqueue]].
      * intros e. rewrite Hkicks. split.
        -- intros (id & p & Hid & ->).
           assert (Hin : (id, p) ∈ [(30, 3%N); (10, 1%N); (20, 2%N)]).
           { apply (elem_of_map_to_list
                      (m_sessions (world_after (hdr := example_header) queue_of_one))) in Hid.
             exact Hid. }
           apply elem_of_cons in Hin as [[= -> ->] | Hin]; [tauto|].
           apply elem_of_cons in Hin as [[= -> ->] | Hin]; [tauto|].
           apply list_elem_of_singleton in Hin as [= -> ->]. tauto.
        -- intros [-> | [-> | ->]]; [exists 10, 1%N | exists 20, 2%N | exists 30, 3%N];
             (split; [vm_compute|]; reflexivity).
      * apply map_eq. intros id. rewrite Hmap, lookup_empty.
        by destruct (m_sessions (world_after (hdr := example_header) queue_of_one) !! id).
  - destruct (CleanupsBeforeStop_kicks_and_lets_nobody_in (hdr := example_header)
                [4%N] (fun _ => true) (world_after (hdr := example_header) fourth_pending))
      as (w' & kicks & later & Hrun & Hsent & _ & Hkicks & Hlater & Hqueue & _).
    + apply (reachable_directory_ok (hdr := example_header)), world_after_reachable.
      vm_compute. discriminate.
    + apply NoDup_singleton.
    + intros s Hs. apply list_elem_of_singleton in Hs as ->.
      apply (is_pending_spec (world_after (hdr := example_header) fourth_pending) 4).
      vm_compute. reflexivity.
    + exists w', kicks, later. split; [exact Hrun|]. split; [exact Hsent|].
      split; [|split; [|split]].
      * apply Hkicks. exists 30, 3%N. split; [vm_compute|]; reflexivity.
      * intros He. destruct (Hlater _ 3%N He eq_refl) as [Hin | Heq]; [|discriminate].
        apply list_elem_of_singleton in Hin. discriminate.
      * intros pos He. destruct (Hlater _ 3%N He eq_refl) as [Hin | Heq]; [|discriminate].
        apply list_elem_of_singleton in Hin. discriminate.
      * intros Hin%Hqueue. apply list_elem_of_singleton in Hin. discriminate.
Defined.

(** X3, on the world of [mixed_tiers]: below tier 3 the player is kicked,
    the administrator is not. *)
Lemma KickAllLess_kicks_below_tier_witness :
  exists es,
    KickAllLess 3 (world_after (hdr := example_header) mixed_tiers)
      = Some (tt, sends es (world_after (hdr := example_header) mixed_tiers)) /\
    EvKickPlayer 1 ∈ es /\ EvKickPlayer 2 ∉ es.
Proof.
  destruct (KickAllLess_kicks_below_tier 3 (world_after (hdr := example_header) mixed_tiers))
    as (es & Hrun & _ & Hes).
  { apply (reachable_directory_ok (hdr := example_header)), world_after_reachable.
    vm_compute. discriminate. }
  exists es. split; [exact Hrun|]. split.
  - apply Hes. exists 10, 1%N, (mkSession 10 0 false false).
    split; [reflexivity|]. split; [vm_compute; reflexivity|].
    split; [vm_compute; reflexivity|]. simpl. lia.
  - intros Hin. apply Hes in Hin as (id & p & s & Hp & _ & Hs & Hsec).
    injection Hp as <-. vm_compute in Hs. injection Hs as <-. simpl in Hsec. lia.
Defined.

(** X4, when the account 10 connects again (session 2): the account is
    filed under session 2, and session 1 is deleted. *)
Lemma AddSession__files_own_account_only_witness :
  exists w',
    AddSession_ (hdr := example_header) 2 (world_after (hdr := example_header) same_account_again)
      = Some (tt, w') /\
    FindSession 10 w' = 2%N /\ objects w' !! 1%N = None /\
    FindSession 20 w' = NULL.
Proof.
  destruct (AddSession__files_own_account_only (hdr := example_header) 2%N
              (mkSession 10 0 false false)
              (world_after (hdr := example_header) same_account_again))
    as (w' & Hrun & Hothers & _ & Hown).
  - apply (reachable_directory_ok (hdr := example_header)), world_after_reachable.
    vm_compute. discriminate.
  - vm_compute. reflexivity.
  - apply (is_pending_spec (world_after (hdr := example_header) same_account_again) 2).
    vm_compute. reflexivity.
  - exists w'. split; [exact Hrun|].
    change (m_sessions (world_after (hdr := example_header) same_account_again)
              !! accountId (mkSession 10 0 false false)) with (Some 1%N) in Hown.
    change (bool_decide
              (m_playerLoading <$>
               objects (world_after (hdr := example_header) same_account_again) !! 1%N
               = Some true)) with false in Hown.
    destruct Hown as [Hfiled Hgone].
    split; [exact Hfiled|]. split; [exact Hgone|].
    rewrite (Hothers 20); [vm_compute; reflexivity | discriminate].
Defined.

(** X5, when the third session of scenario A is added: the highest counts
    were 2 and 0 and are 2 and 1. *)
Lemma max_session_counters_are_high_water_marks_witness :
  exists w',
    for_each (world_op (hdr := example_header)) [OpAddSession_ 3]
      (world_after (hdr := example_header) two_admitted) = Some (tt, w') /\
    m_maxActiveSessionCount (world_after (hdr := example_header) two_admitted)
      <= m_maxActiveSessionCount w' /\
    m_maxQueuedSessionCount (world_after (hdr := example_header) two_admitted)
      <= m_maxQueuedSessionCount w'.
Proof.
  destruct (max_session_counters_are_high_water_marks (hdr := example_header)
              (world_after (hdr := example_header) two_admitted)) as [_ Hmarks].
  { apply (reachable_directory_ok (hdr := example_header)), world_after_reachable.
    vm_compute. discriminate. }
  destruct (for_each (world_op (hdr := example_header)) [OpAddSession_ 3]
              (world_after (hdr := example_header) two_admitted))
    as [[[] w']|] eqn:Hrun; [|vm_compute in Hrun; discriminate].
  exists w'. split; [reflexivity|]. exact (Hmarks [OpAddSession_ 3] w' Hrun).
Defined.

(** X6, on the world of [limit_made_a_tier] when the active session 1
    goes: session 3 stays in the queue. *)
Lemma negative_limit_release_lets_nobody_in_witness :
  exists w',
    RemoveQueuedSession 1 (world_after (hdr := example_header) limit_made_a_tier)
      = Some (false, w') /\
    m_QueuedSessions w' = [3%N].
Proof.
  destruct (negative_limit_release_lets_nobody_in 1%N
              (world_after (hdr := example_header) limit_made_a_tier))
    as (w' & Hrun & Hqueue & _).
  - apply (reachable_directory_ok (hdr := example_header)), world_after_reachable.
    vm_compute. discriminate.
  - vm_compute. reflexivity.
  - vm_compute. reflexivity.
  - exists w'. split; [exact Hrun|]. rewrite Hqueue. vm_compute. reflexivity.
Defined.

(** X8, on a new world: a restart in 600 seconds with exit code 2 is
    announced and counts down; its cancellation is announced as that of a
    restart. *)
Lemma ShutdownServ_with_delay_then_cancel_witness :
  exists w1 w2,
    ShutdownServ (hdr := example_header) 600 1 2 (World_new (hdr := example_header) 5000)
      = Some (tt, w1) /\
    sent w1 = [EvServerMessage SERVER_MSG_RESTART_TIME (Some 600) NULL] /\
    ShutdownCancel (hdr := example_header) w1 = Some (tt, w2) /\
    shutdown_state w2 = Idle /\
    sent w2 = [EvServerMessage SERVER_MSG_RESTART_TIME (Some 600) NULL;
               EvServerMessage SERVER_MSG_RESTART_CANCELLED None NULL].
Proof.
  destruct (ShutdownServ_with_delay_then_cancel (hdr := example_header)
              (World_new (hdr := example_header) 5000) 600 1 2)
    as (w1 & w2 & Hrun & _ & _ & _ & _ & Hsent1 & Hcancel & Hidle & _ & _ & Hsent2).
  - reflexivity.
  - discriminate.
  - exists w1, w2. split; [exact Hrun|]. split; [exact Hsent1|].
    split; [exact Hcancel|]. split; [exact Hidle|]. rewrite Hsent2, Hsent1. reflexivity.
Defined.

(** X9, on a countdown of 10 seconds updated every 3 seconds: it is
    counting, with 1 second left, after three updates, and fires at the
    fourth. *)
Lemma countdown_fires_when_time_is_up_witness :
  (exists w',
     for_each (_UpdateGameTime (hdr := example_header)) [5003; 5006; 5009] (countdown 0 10)
       = Some (tt, w') /\
     shutdown_state w' = Counting /\ m_ShutdownTimer w' = 1) /\
  (exists w',
     for_each (_UpdateGameTime (hdr := example_header)) [5003; 5006; 5009; 5012]
       (countdown 0 10) = Some (tt, w') /\
     shutdown_state w' = Firing).
Proof.
  split.
  - destruct (countdown_fires_when_time_is_up (hdr := example_header)
                (countdown 0 10) [3; 3; 3]) as (w' & Hrun & _ & Hstate).
    + reflexivity.
    + reflexivity.
    + simpl. lia.
    + repeat constructor; lia.
    + exists w'. split; [exact Hrun|]. exact Hstate.
  - destruct (countdown_fires_when_time_is_up (hdr := example_header)
                (countdown 0 10) [3; 3; 3; 3]) as (w' & Hrun & _ & Hstate).
    + reflexivity.
    + reflexivity.
    + simpl. lia.
    + repeat constructor; lia.
    + exists w'. split; [exact Hrun|]. exact Hstate.
Defined.

(** X10, on the world of three sessions with a countdown of 5 seconds that
    waits for the last session: an hour later it is still counting and has
    announced nothing. *)
Lemma idle_countdown_waits_for_the_last_session_witness :
  exists w',
    for_each (_UpdateGameTime (hdr := example_header)) [5003; 8600; 8601]
      (set_ShutdownMask 2 (set_ShutdownTimer 5 three_sessions)) = Some (tt, w') /\
    shutdown_state w' = Counting /\ sent w' = [].
Proof.
  destruct (idle_countdown_waits_for_the_last_session (hdr := example_header)
              (set_ShutdownMask 2 (set_ShutdownTimer 5 three_sessions)) [5003; 8600; 8601])
    as (w' & Hrun & Hstate & _ & _ & _ & Hsent).
  - reflexivity.
  - discriminate.
  - simpl. lia.
  - vm_compute. discriminate.
  - exists w'. split; [exact Hrun|]. split; [exact Hstate | exact Hsent].
Defined.

Lemma example_getConfig_storeConfig (index value : Z) (c : Z -> Z) :
  example_getConfig index (example_storeConfig index value c) = value.
Proof. unfold example_getConfig, example_storeConfig. by rewrite decide_True. Qed.

Lemma example_getConfig_storeConfig_ne (index index' value : Z) (c : Z -> Z) :
  index' <> index ->
  example_getConfig index' (example_storeConfig index value c) = example_getConfig index' c.
Proof.
  intros Hne. unfold example_getConfig, example_storeConfig. by rewrite decide_False.
Qed.

(** X11, when the field reads -5 and the default is 100: the default is
    stored; with the bounds 200 and 300 the least value is stored. *)
Lemma setConfig_UInt32_within_bounds_witness :
  0 <= i32 (example_getConfig 7
              (ConfigUInt32.setConfig (Z -> Z) example_getConfig example_storeConfig
                 reads_minus_5 7 String.EmptyString 100 (fun _ => 0))) /\
  200 <= example_getConfig 7
           (ConfigUInt32.setConfigMinMax (Z -> Z) example_getConfig example_storeConfig
              reads_minus_5 7 String.EmptyString 100 200 300 (fun _ => 0)) <= 300.
Proof.
  destruct (setConfig_UInt32_within_bounds (Z -> Z) example_getConfig example_storeConfig
              reads_minus_5 example_getConfig_storeConfig example_getConfig_storeConfig_ne
              7 String.EmptyString 100 200 300 (fun _ => 0))
    as (Hset & _ & Hminmax & _).
  split; [apply Hset; lia | apply Hminmax; lia].
Defined.

(** X12, when the field reads -5: with the bounds -3 and 3 the least value
    is stored, and the value at another index is as it was. *)
Lemma setConfig_Int32_within_bounds_witness :
  example_getConfig 7
    (ConfigInt32.setConfig (Z -> Z) example_storeConfig reads_minus_5
       7 String.EmptyString 1 (fun _ => 0)) = -5 /\
  example_getConfig 7
    (ConfigInt32.setConfigMinMax (Z -> Z) example_getConfig example_storeConfig
       reads_minus_5 7 String.EmptyString 1 (-3) 3 (fun _ => 0)) = -3 /\
  example_getConfig 8
    (ConfigInt32.setConfigMinMax (Z -> Z) example_getConfig example_storeConfig
       reads_minus_5 7 String.EmptyString 1 (-3) 3 (fun _ => 0)) = 0.
Proof.
  destruct (setConfig_Int32_within_bounds (Z -> Z) example_getConfig example_storeConfig
              reads_minus_5 example_getConfig_storeConfig example_getConfig_storeConfig_ne
              7 String.EmptyString 1 (-3) 3 (fun _ => 0))
    as (Hset & _ & Hminmax & _ & Hframe).
  split; [exact Hset|]. split.
  - destruct Hminmax as [[Hlo Hhi] _]; [lia|].
    reflexivity.
  - destruct (Hframe 8) as (_ & _ & Hother); [discriminate|]. exact Hother.
Defined.

(** X18, when every field reads -5: the characters of a realm and of an
    account are 10 and 50, the honor points 0 of 75000. *)
Lemma LoadConfigSettings_dependent_bounds_witness :
  example_getConfig 1
    (LoadConfigSettings_characters (Z -> Z) example_getConfig example_storeConfig
       reads_minus_5 1 2 (fun _ => 0))
  <= example_getConfig 2
       (LoadConfigSettings_characters (Z -> Z) example_getConfig example_storeConfig
          reads_minus_5 1 2 (fun _ => 0)) /\
  example_getConfig 4
    (LoadConfigSettings_honor (Z -> Z) example_getConfig example_storeConfig
       reads_minus_5 3 4 (fun _ => 0))
  <= example_getConfig 3
       (LoadConfigSettings_honor (Z -> Z) example_getConfig example_storeConfig
          reads_minus_5 3 4 (fun _ => 0)).
Proof.
  destruct (LoadConfigSettings_dependent_bounds (Z -> Z) example_getConfig
              example_storeConfig reads_minus_5
              example_getConfig_storeConfig example_getConfig_storeConfig_ne
              1 2 3 4 (fun _ => 0))
    as [[_ Hcharacters] [[_ Hhonor] _]]; [discriminate | discriminate |].
  split; [exact Hcharacters | exact Hhonor].
Defined.

(** X13, 700000 seconds after the first instant: the second week is not a
    battleground week, the third is. *)
Lemma BattleGroundWeek_alternates_witness :
  BattleGroundWeek 1441218400 = false /\ BattleGroundWeek (1441218400 + 604800) = true.
Proof.
  destruct (BattleGroundWeek_alternates 1441218400) as [Hweek Hnext]; [lia|].
  split; [exact Hweek|]. rewrite Hnext by lia. rewrite Hweek. reflexivity.
Defined.

(** X14, three days after the maintenance day 20000, when the table holds
    the stale date 19990: the next maintenance is on the day 20007, and the
    update requests no restart. *)
Lemma next_maintenance_is_after_today_witness :
  InitServerMaintenanceCheck (Some 19990) 20000 20003 = 20007 /\
  Update_maintenance (hdr := example_header) 20003 1000
    (InitServerMaintenanceCheck (Some 19990) 20000 20003) 500
    (World_new (hdr := example_header) 5000)
  = Some (500, World_new (hdr := example_header) 5000).
Proof.
  destruct (next_maintenance_is_after_today 20000 20003) as [_ Hinit]; [lia | lia |].
  destruct (Hinit ltac:(lia) (Some 19990) example_header 1000 500
              (World_new (hdr := example_header) 5000)) as (_ & Hnext & Hupdate).
  split; [|exact Hupdate].
  destruct Hnext as [Hnext | Hnext]; [exact Hnext | discriminate Hnext].
Defined.

(** X15, on a new world when the maintenance is due: the restart is
    requested, and the two updates that follow request nothing. *)
Lemma maintenance_requests_a_restart_then_waits_witness :
  exists w',
    Update_maintenance (hdr := example_header) 20007 2000 20007 1000
      (World_new (hdr := example_header) 5000) = Some (600000, w') /\
    shutdown_state w' = Counting /\ m_ShutdownTimer w' = 30 /\ m_ExitCode w' = 2 /\
    maintenance_updates (hdr := example_header) 20007 20007 [2000; 2000] 600000 w'
      = Some (596000, w').
Proof.
  destruct (maintenance_requests_a_restart_then_waits (hdr := example_header)
              (World_new (hdr := example_header) 5000) 20007 2000 20007 1000)
    as (w' & Hrun & Hstate & _ & Hwait); [lia | lia |].
  destruct (Hstate eq_refl) as (Hcounting & Htimer & _ & Hexit).
  exists w'. split; [exact Hrun|]. split; [exact Hcounting|]. split; [exact Htimer|].
  split; [exact Hexit|].
  apply (Hwait [2000; 2000]); [repeat constructor; lia | simpl; lia].
Defined.

(** X16, on the world of [fourth_pending], where the limit is 2 and two
    sessions are active: the fourth session is added and two sessions are
    active still. *)
Lemma player_limit_is_respected_witness :
  GetActiveSessionCount (world_after (hdr := example_header) fourth_pending) = 2 /\
  exists w',
    AddSession_ (hdr := example_header) 4 (world_after (hdr := example_header) fourth_pending)
      = Some (tt, w') /\
    GetActiveSessionCount w' <= 2.
Proof.
  split; [vm_compute; reflexivity|].
  destruct (player_limit_is_respected (hdr := example_header)
              (world_after (hdr := example_header) fourth_pending)) as [Hadd _].
  - apply (reachable_directory_ok (hdr := example_header)), world_after_reachable.
    vm_compute. discriminate.
  - vm_compute. split; reflexivity.
  - vm_compute. reflexivity.
  - vm_compute. discriminate.
  - destruct (Hadd 4%N (mkSession 40 0 false false)) as (w' & Hrun & Hlimit & Hactive).
    + vm_compute. reflexivity.
    + apply (is_pending_spec (world_after (hdr := example_header) fourth_pending) 4).
      vm_compute. reflexivity.
    + reflexivity.
    + exists w'. split; [exact Hrun|]. rewrite Hlimit in Hactive. exact Hactive.
Defined.

(** X17, for the windows from 100 to 200 and from 300 to 400, at the time
    250 and from the start: the first window is opened and closed, and the
    switch is at 2. *)
Lemma battleground_windows_follow_the_game_time_witness :
  Update_battleground 250 (mkBattleGroundTimes 100 200 300 400 0) =
    (mkBattleGroundTimes 100 200 300 400 2, [SET_battleground 1 1; SET_battleground 0 1]).
Proof.
  destruct (battleground_windows_follow_the_game_time 250
              (mkBattleGroundTimes 100 200 300 400 0)) as [Hrun _];
    [simpl; lia | simpl; lia | simpl; lia | unfold windows_reached; simpl; lia
    | simpl; lia |].
  exact Hrun.
Defined.

(** X19, on the world of [fourth_pending] when session 4 is handed over and
    session 1 is dead: the update succeeds and session 1 is deleted. *)
Lemma UpdateSessions_files_or_deletes_witness :
  exists w',
    UpdateSessions (hdr := example_header) [4%N] all_but_1
      (world_after (hdr := example_header) fourth_pending) = Some (tt, w') /\
    objects w' !! 1%N = None.
Proof.
  destruct (UpdateSessions_files_or_deletes (hdr := example_header) [4%N] all_but_1
              (world_after (hdr := example_header) fourth_pending))
    as (w' & Hrun & _ & Halive & Hfiled).
  - apply (reachable_directory_ok (hdr := example_header)), world_after_reachable.
    vm_compute. discriminate.
  - apply NoDup_singleton.
  - intros s Hs. apply list_elem_of_singleton in Hs as ->.
    apply (is_pending_spec (world_after (hdr := example_header) fourth_pending) 4).
    vm_compute. reflexivity.
  - exists w'. split; [exact Hrun|].
    apply eq_None_not_Some. intros Hlive.
    destruct (Hfiled 1%N Hlive) as [[id Hid] | (_ & Hout & _)].
    + apply Halive in Hid. discriminate Hid.
    + apply Hout. left. exists 10. vm_compute. reflexivity.
Defined.
